(** * CitySense: recommendation cache, record normalisation and dashboard
      orchestration

    A shallow embedding of [services/geminiService.ts], of the state logic of
    the [Dashboard] component and of [App.handleReset], followed by the
    properties the specification states about them; then of the chat, the
    search and category filter, the map, the saved events, the events the
    user creates, the onboarding and what [App] reads back at start-up,
    with further properties of the code.

    Conventions.
    - A JavaScript string is a [string]; every [ascii] is read as one UTF-16
      code unit below 256.
    - A value produced by [JSON.parse] is a [json]; [undefined] only arises
      from reading a missing property and is the [None] of [option json].
    - Code that may throw returns a [Res]; code that touches [localStorage],
      the React state or the AI collaborator is a state transformer [M] over
      [World].
    - Everything the browser or the network decides (the clock, the API key,
      the answers of the AI collaborator, geolocation, the storage quota and
      the built-ins [JSON.parse] / [JSON.stringify]) is a field of [Env]. *)

From Stdlib Require Import Ascii String ZArith Lia Permutation.
From Stdlib Require Import Decimal DecimalString DecimalNat DecimalZ.
From stdpp Require Import gmap strings list sorting.

Set Warnings "-register-all".

(** ** JavaScript strings *)

Module JsString.

Definition code (c : ascii) : nat := nat_of_ascii c.

(** The characters matched by the regular expression class [\s] and removed
    by [String.prototype.trim], among the code units below 256. *)
Definition isWhiteSpace (c : ascii) : bool :=
  let n := code c in
  (9 <=? n) && (n <=? 13) || (n =? 32) || (n =? 160).

Definition isEmpty (s : string) : bool :=
  match s with EmptyString => true | String _ _ => false end.

(** [s.replace(/\s+/g, '')] and [s.replace(/\s/g, '')]: both delete every
    white-space character. *)
Fixpoint removeWhiteSpace (s : string) : string :=
  match s with
  | EmptyString => EmptyString
  | String c r =>
      if isWhiteSpace c then removeWhiteSpace r else String c (removeWhiteSpace r)
  end.

Fixpoint trimStart (s : string) : string :=
  match s with
  | EmptyString => EmptyString
  | String c r => if isWhiteSpace c then trimStart r else s
  end.

Fixpoint trimEnd (s : string) : string :=
  match s with
  | EmptyString => EmptyString
  | String c r =>
      let r' := trimEnd r in
      if isWhiteSpace c && isEmpty r' then EmptyString else String c r'
  end.

(** [s.trim()] *)
Definition trim (s : string) : string := trimEnd (trimStart s).

Definition toLowerChar (c : ascii) : ascii :=
  let n := code c in
  if (65 <=? n) && (n <=? 90) || (192 <=? n) && (n <=? 222) && negb (n =? 215)
  then ascii_of_nat (n + 32)
  else c.

(** [s.toLowerCase()] *)
Fixpoint toLowerCase (s : string) : string :=
  match s with
  | EmptyString => EmptyString
  | String c r => String (toLowerChar c) (toLowerCase r)
  end.

(** [s.startsWith(p)] *)
Definition startsWith (p s : string) : bool := String.prefix p s.

(** [s.endsWith(p)] *)
Definition endsWith (p s : string) : bool :=
  String.prefix (String.rev p) (String.rev s).

(** [s.slice(n)] for a literal [n >= 0] *)
Definition sliceFrom (n : nat) (s : string) : string :=
  substring n (String.length s - n) s.

(** [s.slice(0, -n)] for a literal [n > 0] *)
Definition sliceDropLast (n : nat) (s : string) : string :=
  substring 0 (String.length s - n) s.

(** [l.join(sep)] on an array of strings *)
Fixpoint join (sep : string) (l : list string) : string :=
  match l with
  | [] => EmptyString
  | [x] => x
  | x :: r => x +:+ sep +:+ join sep r
  end.

(** [[...l].sort()]: the default comparison orders strings by their code
    units, which is [String.le]; the result of sorting is the only sorted
    permutation, so the algorithm does not matter. *)
Definition sort (l : list string) : list string := merge_sort String.le l.

(** Decimal rendering of the integers that template literals interpolate. *)
Definition natToString (n : nat) : string :=
  NilZero.string_of_uint (Nat.to_uint n).

Definition intToString (z : Z) : string :=
  NilZero.string_of_int (Z.to_int z).

Definition hexDigit (n : nat) : ascii :=
  if n <? 10 then ascii_of_nat (48 + n) else ascii_of_nat (55 + n).

Definition percentByte (n : nat) : string :=
  String "%" (String (hexDigit (n / 16)) (String (hexDigit (n mod 16)) EmptyString)).

Definition isUriUnreserved (c : ascii) : bool :=
  let n := code c in
  (65 <=? n) && (n <=? 90) || (97 <=? n) && (n <=? 122) || (48 <=? n) && (n <=? 57)
  || (n =? 45) || (n =? 95) || (n =? 46) || (n =? 33) || (n =? 126)
  || (n =? 42) || (n =? 39) || (n =? 40) || (n =? 41).

(** [encodeURIComponent(s)]: every other character is replaced by the
    percent-escapes of its UTF-8 bytes (one byte below 128, two above). *)
Fixpoint encodeURIComponent (s : string) : string :=
  match s with
  | EmptyString => EmptyString
  | String c r =>
      let n := code c in
      (if isUriUnreserved c then String c EmptyString
       else if n <? 128 then percentByte n
       else percentByte (192 + n / 64) +:+ percentByte (128 + n mod 64))
      +:+ encodeURIComponent r
  end.

End JsString.

(** ** JSON values *)

(** A number as a JSON text writes it: [mantissa * 10 ^ exponent]. *)
Record number := Decimal { mantissa : Z; exponent : Z }.

Inductive json : Type :=
| JNull
| JBool (b : bool)
| JNum (n : number)
| JStr (s : string)
| JArr (items : list json)
| JObj (props : list (string * json)).

(** An object: its own properties in enumeration order. *)
Definition Event : Type := list (string * json).

Module Js.

Import JsString.

(** [ToBoolean] of the result of a property read. *)
Definition truthy (v : option json) : bool :=
  match v with
  | None => false
  | Some JNull => false
  | Some (JBool b) => b
  | Some (JNum n) => negb (mantissa n =? 0)%Z
  | Some (JStr s) => negb (isEmpty s)
  | Some (JArr _) => true
  | Some (JObj _) => true
  end.

Fixpoint lookupProp (k : string) (props : list (string * json)) : option json :=
  match props with
  | [] => None
  | (k', v) :: r => if String.eqb k k' then Some v else lookupProp k r
  end.

(** Writing a property in an object literal after a spread: an existing key
    keeps its place, a new key goes last. *)
Fixpoint setProp (k : string) (v : json) (props : list (string * json))
  : list (string * json) :=
  match props with
  | [] => [(k, v)]
  | (k', v') :: r =>
      if String.eqb k k' then (k, v) :: r else (k', v') :: setProp k v r
  end.

Fixpoint indexed {A : Type} (i : nat) (l : list A) : list (nat * A) :=
  match l with
  | [] => []
  | x :: r => (i, x) :: indexed (S i) r
  end.

(** [{...v}]: the own enumerable properties of [v]. *)
Definition spread (v : json) : list (string * json) :=
  match v with
  | JObj props => props
  | JArr items => map (fun p => (natToString (fst p), snd p)) (indexed 0 items)
  | JStr s =>
      map (fun p => (natToString (fst p), JStr (String (snd p) EmptyString)))
          (indexed 0 (list_ascii_of_string s))
  | _ => []
  end.

Fixpoint repeatChar (n : nat) (c : ascii) : string :=
  match n with O => EmptyString | S k => String c (repeatChar k c) end.

(** [Number.prototype.toString] for decimals in the range that JavaScript
    prints without an exponent. *)
Definition numberToString (n : number) : string :=
  let m := mantissa n in
  let e := exponent n in
  let sign := if (m <? 0)%Z then "-" else EmptyString in
  let digits := natToString (Z.abs_nat m) in
  if (m =? 0)%Z then "0"
  else if (0 <=? e)%Z then sign +:+ digits +:+ repeatChar (Z.to_nat e) "0"
  else
    let k := Z.to_nat (- e) in
    let len := String.length digits in
    if k <? len
    then sign +:+ substring 0 (len - k) digits +:+ "." +:+ substring (len - k) k digits
    else sign +:+ "0." +:+ repeatChar (k - len) "0" +:+ digits.

(** [ToString], as the [+] operator applies it to a non-string operand.
    An object is first converted to a primitive: [Object.prototype.valueOf]
    gives the object back, so its [toString] is called next.  An own
    property [toString] of a parsed object hides [Object.prototype.toString]
    and, being a JSON value, cannot be called: the conversion then throws a
    TypeError, which is the [None] here.  An array is joined, its elements
    being converted in the same way. *)
Fixpoint toString (v : json) : option string :=
  match v with
  | JNull => Some "null"
  | JBool true => Some "true"
  | JBool false => Some "false"
  | JNum n => Some (numberToString n)
  | JStr s => Some s
  | JArr items =>
      option_map (join ",")
        ((fix elements (l : list json) : option (list string) :=
            match l with
            | [] => Some []
            | x :: r =>
                match match x with JNull => Some EmptyString | _ => toString x end,
                      elements r with
                | Some s, Some ss => Some (s :: ss)
                | _, _ => None
                end
            end) items)
  | JObj props =>
      match lookupProp "toString" props with
      | Some _ => None
      | None => Some "[object Object]"
      end
  end.

Definition toStringOpt (v : option json) : option string :=
  match v with None => Some "undefined" | Some x => toString x end.

End Js.

(** ** Data model ([types.ts]) *)

(** The shape [EventItem]: an object with the six required string fields,
    whose optional fields have their declared types when present. *)
Module EventShape.

Import Js.

Definition isString (v : json) : bool :=
  match v with JStr _ => true | _ => false end.

Definition isBoolean (v : json) : bool :=
  match v with JBool _ => true | _ => false end.

Definition isNumber (v : json) : bool :=
  match v with JNum _ => true | _ => false end.

Definition required (k : string) (check : json -> bool) (props : list (string * json)) : bool :=
  match lookupProp k props with
  | Some v => check v
  | None => false
  end.

Definition optional (k : string) (check : json -> bool) (props : list (string * json)) : bool :=
  match lookupProp k props with
  | Some v => check v
  | None => true
  end.

Definition isCoordinates (v : json) : bool :=
  match v with
  | JObj props => required "lat" isNumber props && required "lng" isNumber props
  | _ => false
  end.

Definition isRecommendationLevel (v : json) : bool :=
  match v with
  | JStr s =>
      String.eqb s "Highly Recommended" || String.eqb s "Consider"
      || String.eqb s "Not Recommended"
  | _ => false
  end.

Definition isEventItem (v : json) : bool :=
  match v with
  | JObj props =>
      required "id" isString props && required "title" isString props
      && required "description" isString props && required "date" isString props
      && required "location" isString props && required "category" isString props
      && optional "imageUrl" isString props && optional "link" isString props
      && optional "recommendationLevel" isRecommendationLevel props
      && optional "justification" isString props && optional "price" isString props
      && optional "coordinates" isCoordinates props
      && optional "isUserCreated" isBoolean props
  | _ => false
  end.

Definition isEventList (v : json) : bool :=
  match v with
  | JArr items => forallb isEventItem items
  | _ => false
  end.

End EventShape.

Record UserProfile := mkUserProfile {
  name : string;
  hasOnboarded : bool;
  interests : list string;
  spotifyConnected : bool;
  topArtists : list string;
  currentCity : string
}.

(** [RecommendationLevel.HIGHLY_RECOMMENDED] *)
Definition HIGHLY_RECOMMENDED : string := "Highly Recommended".

(** ** The environment: built-ins and collaborators *)

(** A request to the AI collaborator; the prompt text is a function of these
    arguments. *)
Inductive Request :=
| IdentifyCity (lat lng : number)
| SearchEvents (city query : string)
| InitialRecommendations (city : string) (userProfile : UserProfile).

(** What [generateContent] does: it rejects, or it resolves to a response
    whose [text] may be undefined. *)
Inductive AIResponse :=
| AIFails
| AIText (text : option string).

(** What [navigator.geolocation.getCurrentPosition] does. *)
Inductive GeoOutcome :=
| GeoRejected
| GeoPosition (latitude longitude : number).

Record Env := mkEnv {
  (** [JSON.parse]; [None] is a thrown [SyntaxError] *)
  JSON_parse : string -> option json;
  JSON_stringify : json -> string;
  (** [new Date().toDateString()] *)
  toDateString : string;
  (** [Date.now()] as read by the [map] callback at a given index *)
  Date_now : nat -> Z;
  (** [process.env.API_KEY] *)
  API_KEY : option string;
  generateContent : Request -> AIResponse;
  (** [None] when ["geolocation" in navigator] is false *)
  geolocation : option GeoOutcome;
  (** whether [localStorage.setItem] fits in the quota *)
  storageAccepts : gmap string string -> string -> string -> bool
}.

(** ** Exceptions and state *)

Inductive Error :=
| TypeError
| SyntaxError
| MissingApiKey
| CollaboratorError
| GeolocationError
| QuotaExceededError.

Inductive Res (A : Type) : Type :=
| Ok (a : A)
| Throw (e : Error).

Arguments Ok {A} a.
Arguments Throw {A} e.

Definition bindRes {A B : Type} (r : Res A) (k : A -> Res B) : Res B :=
  match r with
  | Ok a => k a
  | Throw e => Throw e
  end.

Notation "'val' x <- r ;; k" := (bindRes r (fun x => k))
  (at level 10, x name, r at level 99, k at level 200).

(** The browser storage, the log of AI requests, the [userProfile] state of
    [App] and the state of [Dashboard]. *)
Record World := mkWorld {
  localStorage : gmap string string;
  aiCalls : list Request;
  app_userProfile : option UserProfile;
  dash_events : json;
  dash_loading : bool;
  dash_error : option string
}.

Definition withStorage (f : gmap string string -> gmap string string) (w : World) : World :=
  mkWorld (f (localStorage w)) (aiCalls w) (app_userProfile w)
          (dash_events w) (dash_loading w) (dash_error w).

Definition logCall (r : Request) (w : World) : World :=
  mkWorld (localStorage w) (aiCalls w ++ [r]) (app_userProfile w)
          (dash_events w) (dash_loading w) (dash_error w).

Definition M (A : Type) : Type := World -> Res A * World.

Definition ret {A : Type} (a : A) : M A := fun w => (Ok a, w).

Definition throw {A : Type} (e : Error) : M A := fun w => (Throw e, w).

Definition bind {A B : Type} (m : M A) (k : A -> M B) : M B :=
  fun w =>
    match m w with
    | (Ok a, w') => k a w'
    | (Throw e, w') => (Throw e, w')
    end.

Notation "'do' x <- m ;; k" := (bind m (fun x => k))
  (at level 10, x name, m at level 99, k at level 200).
Notation "'exec' m ;; k" := (bind m (fun _ => k))
  (at level 10, m at level 99, k at level 200).

(** [try { m } catch (e) { h e }] *)
Definition tryCatch {A : Type} (m : M A) (h : Error -> M A) : M A :=
  fun w =>
    match m w with
    | (Ok a, w') => (Ok a, w')
    | (Throw e, w') => h e w'
    end.

(** [try { m } finally { f }] *)
Definition tryFinally {A : Type} (m : M A) (f : M unit) : M A :=
  fun w =>
    match m w with
    | (r, w') =>
        match f w' with
        | (Ok _, w'') => (r, w'')
        | (Throw e, w'') => (Throw e, w'')
        end
    end.

Definition liftRes {A : Type} (r : Res A) : M A := fun w => (r, w).

(** *** [localStorage] *)

Definition getItem (k : string) : M (option string) :=
  fun w => (Ok (localStorage w !! k), w).

Definition removeItem (k : string) : M unit :=
  fun w => (Ok tt, withStorage (delete k) w).

Definition setItem (env : Env) (k v : string) : M unit :=
  fun w =>
    if storageAccepts env (localStorage w) k v
    then (Ok tt, withStorage (insert k v) w)
    else (Throw QuotaExceededError, w).

(** *** The AI collaborator *)

(** [getAIClient]: throws when the API key is missing or empty. *)
Definition getAIClient (env : Env) : M unit :=
  match API_KEY env with
  | Some k => if JsString.isEmpty k then throw MissingApiKey else ret tt
  | None => throw MissingApiKey
  end.

(** [await ai.models.generateContent(...)], then [response.text] *)
Definition generate (env : Env) (req : Request) : M (option string) :=
  fun w =>
    match generateContent env req with
    | AIFails => (Throw CollaboratorError, logCall req w)
    | AIText text => (Ok text, logCall req w)
    end.

(** ** [services/geminiService.ts] *)

Module Service.

Import JsString Js.

Definition CACHE_KEY_PREFIX : string := "CITYSENSE_EVENTS_CACHE_".

(** [generateCacheKey]: the key is built from the day, the city without
    white space in lower case, and the sorted interests joined by a dash. *)
Definition generateCacheKey (env : Env) (city : string) (userProfile : UserProfile) : string :=
  let dateStr := toDateString env in
  let interestsStr := join "-" (sort (interests userProfile)) in
  let cityClean := toLowerCase (removeWhiteSpace city) in
  CACHE_KEY_PREFIX +:+ dateStr +:+ "_" +:+ cityClean +:+ "_" +:+ interestsStr.

(** [cleanAndParseJSON]: the parsed value is returned as it is, whatever its
    shape; an undefined or empty text and a text that does not parse give
    the empty array. *)
Definition cleanAndParseJSON (env : Env) (text : option string) : json :=
  match text with
  | None => JArr []
  | Some text =>
      if isEmpty text then JArr []
      else
        let clean := trim text in
        let clean := if startsWith "```json" clean then sliceFrom 7 clean else clean in
        let clean := if startsWith "```" clean then sliceFrom 3 clean else clean in
        let clean := if endsWith "```" clean then sliceDropLast 3 clean else clean in
        match JSON_parse env clean with
        | Some v => v
        | None => JArr []
        end
  end.

(** [identifyCityFromCoords] *)
Definition identifyCityFromCoords (env : Env) (lat lng : number) : M string :=
  tryCatch
    (exec getAIClient env ;;
     do text <- generate env (IdentifyCity lat lng) ;;
     ret (match text with
          | Some t => if isEmpty (trim t) then "Unknown Location" else trim t
          | None => "Unknown Location"
          end))
    (fun _ => ret "Unknown Location").

(** [ev.k]: reading a property of [null] throws; of the names read below
    ([id], [imageUrl], [title], [link]) a value that is not an object has
    none before [title], whose absence already throws. *)
Definition getProp (ev : json) (k : string) : Res (option json) :=
  match ev with
  | JNull => Throw TypeError
  | JObj props => Ok (lookupProp k props)
  | _ => Ok None
  end.

(** [title.replace(/\s/g, '')]: only a string has a [replace] method. *)
Definition callReplace (title : option json) : Res string :=
  match title with
  | Some (JStr s) => Ok (removeWhiteSpace s)
  | _ => Throw TypeError
  end.

(** The left operand of [title + ' ' + ...], converted to a string. *)
Definition concatOperand (title : option json) : Res string :=
  match toStringOpt title with
  | Some s => Ok s
  | None => Throw TypeError
  end.

(** [v || fallback], the fallback being evaluated only when needed. *)
Definition orElse (v : option json) (fallback : Res json) : Res json :=
  match v with
  | Some x => if truthy v then Ok x else fallback
  | None => fallback
  end.

(** The id given to a record that has none:
    [`${sourcePrefix}-${city.substring(0,3)}-${idx}-${Date.now()}`]. *)
Definition synthesizedId (env : Env) (sourcePrefix city : string) (idx : nat) : string :=
  sourcePrefix +:+ "-" +:+ substring 0 3 city +:+ "-" +:+ natToString idx
    +:+ "-" +:+ intToString (Date_now env idx).

(** The callback of [events.map((ev, idx) => ...)]; the two callers differ
    in the source prefix only ([search] and [evt]). *)
Definition normalizeRecord (env : Env) (sourcePrefix city : string) (idx : nat) (ev : json)
  : Res Event :=
  let copied := spread ev in
  val rawId <- getProp ev "id" ;;
  val id <- orElse rawId (Ok (JStr (synthesizedId env sourcePrefix city idx))) ;;
  val rawImage <- getProp ev "imageUrl" ;;
  val imageUrl <- orElse rawImage
    (val title <- getProp ev "title" ;;
     val seed <- callReplace title ;;
     Ok (JStr ("https://picsum.photos/seed/" +:+ seed +:+ natToString idx +:+ "/800/600"))) ;;
  val rawLink <- getProp ev "link" ;;
  val link <- orElse rawLink
    (val title <- getProp ev "title" ;;
     val titleText <- concatOperand title ;;
     Ok (JStr ("https://www.google.com/search?q="
               +:+ encodeURIComponent (titleText +:+ " " +:+ city +:+ " tickets")))) ;;
  Ok (setProp "link" link (setProp "imageUrl" imageUrl (setProp "id" id copied))).

Fixpoint mapFrom (env : Env) (sourcePrefix city : string) (idx : nat) (items : list json)
  : Res (list Event) :=
  match items with
  | [] => Ok []
  | ev :: rest =>
      val e <- normalizeRecord env sourcePrefix city idx ev ;;
      val es <- mapFrom env sourcePrefix city (S idx) rest ;;
      Ok (e :: es)
  end.

(** [events.map(...)]: only an array has a [map] method. *)
Definition mapEvents (env : Env) (sourcePrefix city : string) (events : json)
  : Res (list Event) :=
  match events with
  | JArr items => mapFrom env sourcePrefix city 0 items
  | _ => Throw TypeError
  end.

Definition eventsToJson (events : list Event) : json := JArr (map JObj events).

(** [searchEvents] *)
Definition searchEvents (env : Env) (city query : string) : M json :=
  tryCatch
    (exec getAIClient env ;;
     do text <- generate env (SearchEvents city query) ;;
     do events <- liftRes (mapEvents env "search" city (cleanAndParseJSON env text)) ;;
     ret (eventsToJson events))
    (fun _ => ret (JArr [])).

(** Step 1 of [getInitialRecommendations]: the cached value if the entry is
    a non-empty string that parses; an entry that does not parse is removed. *)
Definition checkCache (env : Env) (cacheKey : string) : M (option json) :=
  do cachedData <- getItem cacheKey ;;
  match cachedData with
  | Some data =>
      if isEmpty data then ret None
      else
        match JSON_parse env data with
        | Some parsedEvents => ret (Some parsedEvents)
        | None => exec removeItem cacheKey ;; ret None
        end
  | None => ret None
  end.

Definition isStale (cacheKey : string) (entry : string * string) : Prop :=
  startsWith CACHE_KEY_PREFIX (fst entry) = true ∧ fst entry ≠ cacheKey.

(** Step 2: every key that starts with the prefix and is not today's key is
    removed. *)
Definition evictStale (cacheKey : string) : M unit :=
  fun w => (Ok tt, withStorage (filter (fun entry => ¬ isStale cacheKey entry)) w).

(** Steps 3 and 4: fetch, normalise, save when not empty. *)
Definition fetchFresh (env : Env) (city : string) (userProfile : UserProfile)
    (cacheKey : string) : M json :=
  tryCatch
    (exec getAIClient env ;;
     do text <- generate env (InitialRecommendations city userProfile) ;;
     do events <- liftRes (mapEvents env "evt" city (cleanAndParseJSON env text)) ;;
     exec (match events with
           | [] => ret tt
           | _ :: _ => setItem env cacheKey (JSON_stringify env (eventsToJson events))
           end) ;;
     ret (eventsToJson events))
    (fun _ => ret (JArr [])).

(** [getInitialRecommendations] *)
Definition getInitialRecommendations (env : Env) (city : string) (userProfile : UserProfile)
  : M json :=
  let cacheKey := generateCacheKey env city userProfile in
  do cached <- checkCache env cacheKey ;;
  match cached with
  | Some parsedEvents => ret parsedEvents
  | None =>
      exec evictStale cacheKey ;;
      fetchFresh env city userProfile cacheKey
  end.

End Service.

(** ** [Onboarding]: the selection of interests *)

Module Onboarding.

(** [toggleInterest]: a selected interest is removed, another one is added
    at the end. *)
Definition toggleInterest (interest : string) (prev : list string) : list string :=
  if existsb (String.eqb interest) prev
  then List.filter (fun i => negb (String.eqb i interest)) prev
  else prev ++ [interest].

End Onboarding.

(** ** [App]: the profile state, its persistence and the reset *)

Module App.

Import JsString Js.

Definition setUserProfile (p : option UserProfile) : M unit :=
  fun w =>
    (Ok tt, mkWorld (localStorage w) (aiCalls w) p
                    (dash_events w) (dash_loading w) (dash_error w)).

(** The object [JSON.stringify] receives for a profile. *)
Definition profileToJson (p : UserProfile) : json :=
  JObj [("name", JStr (name p));
        ("hasOnboarded", JBool (hasOnboarded p));
        ("interests", JArr (map JStr (interests p)));
        ("spotifyConnected", JBool (spotifyConnected p));
        ("topArtists", JArr (map JStr (topArtists p)));
        ("currentCity", JStr (currentCity p))].

(** The effect with dependency [[userProfile]]: it runs after a render in
    which that state changed. *)
Definition persistProfileEffect (env : Env) : M unit :=
  fun w =>
    match app_userProfile w with
    | Some p =>
        setItem env "citysense_user_profile" (JSON_stringify env (profileToJson p)) w
    | None => removeItem "citysense_user_profile" w
    end.

(** [handleReset]: the profile state becomes [null] and every key of the
    daily cache is removed. *)
Definition handleReset : M unit :=
  exec setUserProfile None ;;
  fun w =>
    (Ok tt,
     withStorage
       (filter (fun entry : string * string =>
                  ¬ (startsWith "CITYSENSE_EVENTS_CACHE_" (fst entry) = true)))
       w).

(** A click on the reset control: the handler, then the render it causes,
    after which the profile effect runs (the user-events effect does not:
    its dependency did not change). *)
Definition resetAndCommit (env : Env) : M unit :=
  exec handleReset ;; persistProfileEffect env.

(** [handleUpdateCity] *)
Definition handleUpdateCity (city : string) : M unit :=
  fun w =>
    match app_userProfile w with
    | Some p =>
        if String.eqb (currentCity p) city then (Ok tt, w)
        else
          setUserProfile
            (Some (mkUserProfile (name p) (hasOnboarded p) (interests p)
                                 (spotifyConnected p) (topArtists p) city)) w
    | None => (Ok tt, w)
    end.

End App.

(** ** [Dashboard] *)

Module Dashboard.

Import JsString Js.

Definition setLoading (b : bool) : M unit :=
  fun w =>
    (Ok tt, mkWorld (localStorage w) (aiCalls w) (app_userProfile w)
                    (dash_events w) b (dash_error w)).

Definition setEvents (events : json) : M unit :=
  fun w =>
    (Ok tt, mkWorld (localStorage w) (aiCalls w) (app_userProfile w)
                    events (dash_loading w) (dash_error w)).

Definition setError (msg : string) : M unit :=
  fun w =>
    (Ok tt, mkWorld (localStorage w) (aiCalls w) (app_userProfile w)
                    (dash_events w) (dash_loading w) (Some msg)).

(** The promise around [navigator.geolocation.getCurrentPosition]. *)
Definition getCurrentPosition (geo : GeoOutcome) : M (number * number) :=
  match geo with
  | GeoRejected => throw GeolocationError
  | GeoPosition latitude longitude => ret (latitude, longitude)
  end.

(** The first half of [init]: the city the load is made for. *)
Definition resolveCity (env : Env) (updateCity : string -> M unit)
    (userProfile : UserProfile) : M string :=
  let currentCity := currentCity userProfile in
  if negb (isEmpty currentCity) then ret currentCity
  else
    match geolocation env with
    | Some geo =>
        tryCatch
          (do position <- getCurrentPosition geo ;;
           do city <- Service.identifyCityFromCoords env (fst position) (snd position) ;;
           exec updateCity city ;;
           ret city)
          (fun _ =>
             exec updateCity "New York, USA" ;;
             ret "New York, USA")
    | None =>
        exec updateCity "New York, USA" ;;
        ret "New York, USA"
    end.

(** [init], the body of the mount effect. *)
Definition init (env : Env) (updateCity : string -> M unit) (userProfile : UserProfile)
  : M unit :=
  tryFinally
    (tryCatch
       (exec setLoading true ;;
        do currentCity <- resolveCity env updateCity userProfile ;;
        do recommendedEvents <-
          Service.getInitialRecommendations env currentCity userProfile ;;
        setEvents recommendedEvents)
       (fun _ => setError "Failed to load events. Please try refreshing."))
    (setLoading false).

(** [allEvents]: the user's events first. *)
Definition allEvents (userEvents events : list Event) : list Event :=
  userEvents ++ events.

Definition isHighlyRecommended (e : Event) : bool :=
  match lookupProp "recommendationLevel" e with
  | Some (JStr s) => String.eqb s HIGHLY_RECOMMENDED
  | _ => false
  end.

(** [topPicks] *)
Definition topPicks (allEvents : list Event) : list Event :=
  List.filter
    (fun e => isHighlyRecommended e || truthy (lookupProp "isUserCreated" e))
    allEvents.

(** The states the specification names, read off the [loading] and [error]
    flags of the component. *)
Inductive Phase := Loading | Ready | Failed.

Definition phase (w : World) : Phase :=
  if dash_loading w then Loading
  else match dash_error w with
       | Some _ => Failed
       | None => Ready
       end.

End Dashboard.

(** ** [chatWithCitySense] *)

Module Chat.

Import JsString Js.

(** [chunk.web] *)
Record WebSource := mkWebSource {
  uri : option string;
  title : option string
}.

Record GroundingChunk := mkChunk { web : option WebSource }.

(** What [ai.chats.create] followed by [chat.sendMessage] does: it rejects,
    or it resolves to a result with a [text] that may be undefined and with
    grounding chunks that may be missing. *)
Inductive ChatReply :=
| ChatFails
| ChatAnswers (text : option string) (groundingChunks : option (list GroundingChunk)).

Inductive Role := RoleUser | RoleModel.

Record Turn := mkTurn { role : Role; text : string }.

(** The chat collaborator, as a function of what is sent to it. *)
Definition Collaborator : Type := list Turn -> string -> UserProfile -> ChatReply.

(** The value [chatWithCitySense] resolves to. *)
Record Response := mkResponse {
  responseText : string;
  events : option (list Event)
}.

Definition newline : string := String (ascii_of_nat 10) EmptyString.

Definition APOLOGY : string :=
  "I'm having trouble connecting to the city network right now. Please try again.".

(** The line of a chunk that has both a uri and a title, [null] otherwise. *)
Definition sourceLine (chunk : GroundingChunk) : option string :=
  match web chunk with
  | Some w =>
      match uri w, title w with
      | Some u, Some t =>
          if isEmpty u || isEmpty t then None
          else Some ("- [" +:+ t +:+ "](" +:+ u +:+ ")")
      | _, _ => None
      end
  | None => None
  end.

(** [Array.from(new Set(l))]: the first occurrence of every element, in
    order. *)
Fixpoint uniqueFirst (l : list string) : list string :=
  match l with
  | [] => []
  | x :: r => x :: List.filter (fun y => negb (String.eqb y x)) (uniqueFirst r)
  end.

Definition withSources (responseText : string) (groundingChunks : list GroundingChunk)
  : string :=
  let sourcesList := omap sourceLine groundingChunks in
  match sourcesList with
  | [] => responseText
  | _ :: _ =>
      responseText +:+ newline +:+ newline +:+ "**Sources:**" +:+ newline
        +:+ join newline (uniqueFirst sourcesList)
  end.

(** [chatWithCitySense] *)
Definition chatWithCitySense (env : Env) (chat : Collaborator)
    (history : list Turn) (currentMessage : string) (userProfile : UserProfile)
  : M Response :=
  tryCatch
    (exec getAIClient env ;;
     do result <- liftRes (match chat history currentMessage userProfile with
                           | ChatFails => Throw CollaboratorError
                           | ChatAnswers text chunks => Ok (text, chunks)
                           end) ;;
     let responseText := match fst result with Some t => t | None => EmptyString end in
     let groundingChunks := match snd result with Some c => c | None => [] end in
     ret (mkResponse (withSources responseText groundingChunks) None))
    (fun _ => ret (mkResponse APOLOGY None)).

End Chat.

(** ** [ChatPlanner] *)

Module ChatPlanner.

Import JsString Js.

(** [ChatMessage] of [types.ts] *)
Record ChatMessage := mkMessage {
  msgId : string;
  msgRole : Chat.Role;
  msgText : string;
  msgSuggestedEvents : option (list Event)
}.

Record State := mkState {
  messages : list ChatMessage;
  input : string;
  isThinking : bool
}.

(** The message the conversation starts with. *)
Definition welcome (userProfile : UserProfile) : ChatMessage :=
  mkMessage "welcome" Chat.RoleModel
    ("Hi " +:+ name userProfile +:+ "! I'm CitySense. I see you're interested in "
       +:+ join ", " (firstn 3 (interests userProfile))
       +:+ ". How can I help you plan your time in " +:+ currentCity userProfile +:+ "?")
    None.

Definition initialState (userProfile : UserProfile) : State :=
  mkState [welcome userProfile] EmptyString false.

(** [handleSend]; [nowUser] and [nowModel] are the two readings of
    [Date.now()], before and after the answer. *)
Definition handleSend (env : Env) (chat : Chat.Collaborator) (nowUser nowModel : Z)
    (userProfile : UserProfile) (st : State) : M State :=
  if isEmpty (trim (input st)) || isThinking st then ret st
  else
    let userMsg := mkMessage (intToString nowUser) Chat.RoleUser (input st) None in
    let history := map (fun m => Chat.mkTurn (msgRole m) (msgText m)) (messages st) in
    do response <- Chat.chatWithCitySense env chat history (msgText userMsg) userProfile ;;
    ret (mkState
           (messages st ++ [userMsg]
              ++ [mkMessage (intToString (nowModel + 1)) Chat.RoleModel
                            (Chat.responseText response) (Chat.events response)])
           EmptyString false).

End ChatPlanner.

(** ** [Dashboard]: search and category filter *)

Module DashboardView.

Import JsString Js.

(** [s.includes(pat)] on strings *)
Definition includes (pat s : string) : bool :=
  match index 0 pat s with
  | Some _ => true
  | None => false
  end.

(** [handleSearch]: the new category filter is returned; a blank query
    leaves everything as it is. *)
Definition handleSearch (env : Env) (userProfile : UserProfile)
    (searchQuery categoryFilter : string) : M string :=
  if isEmpty (trim searchQuery) then ret categoryFilter
  else
    exec Dashboard.setLoading true ;;
    exec tryFinally
      (tryCatch
         (do results <- Service.searchEvents env (currentCity userProfile) searchQuery ;;
          Dashboard.setEvents results)
         (fun _ => Dashboard.setError "Search failed. Please try again."))
      (Dashboard.setLoading false) ;;
    ret "All".

(** [e.category?.includes(categoryFilter) || e.category === categoryFilter]:
    a missing or null category gives false, a string is searched, an array
    is searched for the filter as an element, anything else has no
    [includes] to call. *)
Definition matchesCategory (categoryFilter : string) (e : Event) : Res bool :=
  match lookupProp "category" e with
  | None => Ok false
  | Some JNull => Ok false
  | Some (JStr category) =>
      Ok (includes categoryFilter category || String.eqb category categoryFilter)
  | Some (JArr items) =>
      Ok (existsb (fun x => match x with
                            | JStr s => String.eqb s categoryFilter
                            | _ => false
                            end) items)
  | Some _ => Throw TypeError
  end.

Fixpoint filterRes (f : Event -> Res bool) (l : list Event) : Res (list Event) :=
  match l with
  | [] => Ok []
  | e :: rest =>
      val keep <- f e ;;
      val kept <- filterRes f rest ;;
      Ok (if keep then e :: kept else kept)
  end.

(** [filteredEvents] *)
Definition filteredEvents (allEvents : list Event) (categoryFilter : string)
  : Res (list Event) :=
  if String.eqb categoryFilter "All" then Ok allEvents
  else filterRes (matchesCategory categoryFilter) allEvents.

End DashboardView.

(** ** [MapView] *)

Module MapView.

Import JsString Js.

(** [v?.k] *)
Definition optionalProp (v : option json) (k : string) : option json :=
  match v with
  | Some (JObj props) => lookupProp k props
  | _ => None
  end.

(** [e.coordinates?.lat && e.coordinates?.lng] as a condition *)
Definition hasPosition (e : Event) : bool :=
  truthy (optionalProp (lookupProp "coordinates" e) "lat")
  && truthy (optionalProp (lookupProp "coordinates" e) "lng").

(** [validEvents]: the events that get a marker. *)
Definition validEvents (events : list Event) : list Event :=
  List.filter hasPosition events.

Definition levelIs (level : string) (e : Event) : bool :=
  match lookupProp "recommendationLevel" e with
  | Some (JStr s) => String.eqb s level
  | _ => false
  end.

(** [markerColor] after the three tests *)
Definition markerColor (e : Event) : string :=
  let c := "#6366f1" in
  let c := if levelIs "Highly Recommended" e then "#22c55e" else c in
  let c := if levelIs "Consider" e then "#eab308" else c in
  if levelIs "Not Recommended" e then "#ef4444" else c.

(** Whether the overlay that says there is no location data is shown:
    [events.filter(e => e.coordinates).length === 0]. *)
Definition showsNoLocationOverlay (events : list Event) : bool :=
  match List.filter (fun e => truthy (lookupProp "coordinates" e)) events with
  | [] => true
  | _ :: _ => false
  end.

End MapView.

(** ** [EventCard]: the saved events *)

Module EventCard.

Import JsString Js.

(** [x === event.id], the id being a string *)
Definition isId (id : string) (x : json) : bool :=
  match x with
  | JStr s => String.eqb s id
  | _ => false
  end.

(** [JSON.parse(localStorage.getItem('savedEvents') || '[]')] *)
Definition readSaved (env : Env) : M json :=
  do stored <- getItem "savedEvents" ;;
  let text := match stored with
              | Some s => if isEmpty s then "[]" else s
              | None => "[]"
              end in
  match JSON_parse env text with
  | Some v => ret v
  | None => throw SyntaxError
  end.

(** The effect on mount: whether the card shows as saved. *)
Definition mountEffect (env : Env) (id : string) : M bool :=
  tryCatch
    (do savedEvents <- readSaved env ;;
     ret (match savedEvents with
          | JArr items => existsb (isId id) items
          | _ => false
          end))
    (fun _ => ret false).

(** [toggleSave]: the new value of [isSaved] is returned. *)
Definition toggleSave (env : Env) (id : string) (isSaved : bool) : M bool :=
  tryCatch
    (do savedEvents <- readSaved env ;;
     let newSavedEvents := match savedEvents with
                           | JArr items => items
                           | _ => []
                           end in
     let newSavedEvents :=
       if isSaved then List.filter (fun x => negb (isId id x)) newSavedEvents
       else if existsb (isId id) newSavedEvents then newSavedEvents
       else newSavedEvents ++ [JStr id] in
     exec setItem env "savedEvents" (JSON_stringify env (JArr newSavedEvents)) ;;
     ret (negb isSaved))
    (fun _ => ret isSaved).

(** [handleImageError]: the image the card falls back to. *)
Definition backupImage (title : string) : string :=
  "https://picsum.photos/seed/" +:+ removeWhiteSpace title +:+ "backup/800/600".

End EventCard.

(** ** [CreateEventModal] and [App.handleCreateEvent] *)

Module CreateEventModal.

Import JsString Js.

Record FormData := mkFormData {
  title : string;
  description : string;
  date : string;
  time : string;
  location : string;
  category : string;
  price : string;
  imageUrl : string;
  link : string
}.

(** [a || b] on strings *)
Definition orString (a b : string) : string := if isEmpty a then b else a.

(** The event [handleSubmit] hands to [onSubmit]. [formattedDate] is the
    text that [Date], [toLocaleDateString] and [toLocaleTimeString] make of
    the date and time fields, [now] is [Date.now()] and [currentCity] is the
    prop of the modal. *)
Definition newEvent (formData : FormData) (formattedDate : string) (now : Z)
    (currentCity : string) : Event :=
  [("id", JStr ("user-" +:+ intToString now));
   ("title", JStr (title formData));
   ("description", JStr (description formData));
   ("date", JStr formattedDate);
   ("location", JStr (orString (location formData) currentCity));
   ("category", JStr (category formData));
   ("price", JStr (if isEmpty (price formData) then "Free"
                   else if String.eqb (price formData) "0" then "Free"
                   else "$" +:+ price formData));
   ("imageUrl", JStr (orString (imageUrl formData)
                        ("https://picsum.photos/seed/"
                           +:+ removeWhiteSpace (title formData) +:+ "/800/600")));
   ("link", JStr (orString (link formData) "#"));
   ("recommendationLevel", JStr "Highly Recommended");
   ("isUserCreated", JBool true)].

(** The [currentCity] prop that [App] passes to the modal. *)
Definition modalCity (userProfile : UserProfile) : string :=
  orString (currentCity userProfile) "your city".

(** [App.handleCreateEvent] *)
Definition handleCreateEvent (event : Event) (prev : list Event) : list Event :=
  event :: prev.

End CreateEventModal.

(** ** [Onboarding.handleSubmit] and [App.handleOnboardingComplete] *)

Module Signup.

Import JsString Js.

(** [Partial<UserProfile>], as far as the handler reads it *)
Record PartialProfile := mkPartial {
  partialName : option string;
  partialInterests : option (list string);
  partialSpotifyConnected : option bool;
  partialTopArtists : option (list string)
}.

Definition MOCK_TOP_ARTISTS : list string :=
  ["Burna Boy"; "SZA"; "Fred again.."; "Kaytranada";
   "Beyonc" +:+ String (ascii_of_nat 233) EmptyString].

(** [Onboarding.handleSubmit]: nothing is handed on while no interest is
    selected. *)
Definition handleSubmit (name : string) (selectedInterests : list string)
    (spotifyConnected : bool) : option PartialProfile :=
  match selectedInterests with
  | [] => None
  | _ :: _ =>
      Some (mkPartial (Some name) (Some selectedInterests) (Some spotifyConnected)
                      (Some (if spotifyConnected then MOCK_TOP_ARTISTS else [])))
  end.

(** [App.handleOnboardingComplete] *)
Definition handleOnboardingComplete (data : PartialProfile) : M unit :=
  App.setUserProfile
    (Some (mkUserProfile
             (match partialName data with
              | Some n => if isEmpty n then "Traveler" else n
              | None => "Traveler"
              end)
             true
             (match partialInterests data with Some l => l | None => [] end)
             (match partialSpotifyConnected data with Some b => b | None => false end)
             (match partialTopArtists data with Some l => l | None => [] end)
             EmptyString)).

End Signup.

(** ** [App]: what is read back at start-up *)

Module Startup.

Import JsString Js.

(** The initial value of the [userProfile] state: the parsed entry, [null]
    when there is none or when it does not parse. *)
Definition loadUserProfile (env : Env) : M json :=
  tryCatch
    (do saved <- getItem "citysense_user_profile" ;;
     match saved with
     | Some s =>
         if isEmpty s then ret JNull
         else match JSON_parse env s with
              | Some v => ret v
              | None => throw SyntaxError
              end
     | None => ret JNull
     end)
    (fun _ => ret JNull).

(** The initial value of the [userEvents] state. *)
Definition loadUserEvents (env : Env) : M json :=
  tryCatch
    (do saved <- getItem "citysense_user_events" ;;
     match saved with
     | Some s =>
         if isEmpty s then ret (JArr [])
         else match JSON_parse env s with
              | Some v => ret v
              | None => throw SyntaxError
              end
     | None => ret (JArr [])
     end)
    (fun _ => ret (JArr [])).

(** The effect with dependency [[userEvents]] *)
Definition persistUserEventsEffect (env : Env) (userEvents : list Event) : M unit :=
  setItem env "citysense_user_events" (JSON_stringify env (Service.eventsToJson userEvents)).

End Startup.

(** ** A reference [JSON.parse] / [JSON.stringify]

    The theorems below hold for every [Env]; this instance, a recursive
    descent parser and a printer for JSON texts over the code units below
    256, is the one the concrete runs use. *)

Module RefJSON.

Import JsString Js.

Definition dquote : ascii := ascii_of_nat 34.
Definition backslash : ascii := ascii_of_nat 92.

Definition isJsonSpace (c : ascii) : bool :=
  let n := code c in (n =? 32) || (n =? 9) || (n =? 10) || (n =? 13).

Fixpoint skipWs (s : string) : string :=
  match s with
  | EmptyString => EmptyString
  | String c r => if isJsonSpace c then skipWs r else s
  end.

Definition digitVal (c : ascii) : option Z :=
  let n := code c in
  if (48 <=? n) && (n <=? 57) then Some (Z.of_nat (n - 48)) else None.

Definition hexVal (c : ascii) : option nat :=
  let n := code c in
  if (48 <=? n) && (n <=? 57) then Some (n - 48)
  else if (65 <=? n) && (n <=? 70) then Some (n - 55)
  else if (97 <=? n) && (n <=? 102) then Some (n - 87)
  else None.

(** Reads a run of digits: its value, its length and what follows. *)
Fixpoint readDigits (s : string) (acc : Z) (count : nat) : Z * nat * string :=
  match s with
  | EmptyString => (acc, count, s)
  | String c r =>
      match digitVal c with
      | Some d => readDigits r (acc * 10 + d)%Z (S count)
      | None => (acc, count, s)
      end
  end.

(** Drops the trailing zeros of a fraction. *)
Fixpoint canonical (fuel : nat) (m e : Z) : number :=
  match fuel with
  | O => Decimal m e
  | S fuel' =>
      if (m =? 0)%Z then Decimal 0 0
      else if (e <? 0)%Z && (m mod 10 =? 0)%Z then canonical fuel' (m / 10)%Z (e + 1)%Z
      else Decimal m e
  end.

Definition startsWithChar (c : ascii) (s : string) : bool :=
  match s with
  | String c' _ => Ascii.eqb c c'
  | EmptyString => false
  end.

Definition tail (s : string) : string :=
  match s with
  | String _ r => r
  | EmptyString => EmptyString
  end.

Definition parseNumber (s : string) : option (number * string) :=
  let negative := startsWithChar "-" s in
  let s1 := if negative then tail s else s in
  let '(int, intLen, s2) := readDigits s1 0%Z 0 in
  if (intLen =? 0) || (startsWithChar "0" s1 && (1 <? intLen)) then None
  else
    let fraction :=
      if startsWithChar "." s2 then
        let '(frac, fracLen, s3) := readDigits (tail s2) 0%Z 0 in
        if fracLen =? 0 then None
        else Some ((int * 10 ^ Z.of_nat fracLen + frac)%Z, fracLen, s3)
      else Some (int, 0, s2) in
    match fraction with
    | None => None
    | Some (m, fracLen, s3) =>
        let signed := if negative then (- m)%Z else m in
        if startsWithChar "e" s3 || startsWithChar "E" s3 then
          let s4 := tail s3 in
          let expNegative := startsWithChar "-" s4 in
          let s5 := if expNegative || startsWithChar "+" s4 then tail s4 else s4 in
          let '(ex, exLen, s6) := readDigits s5 0%Z 0 in
          if exLen =? 0 then None
          else
            let ex' := if expNegative then (- ex)%Z else ex in
            Some (canonical (S fracLen) signed (ex' - Z.of_nat fracLen)%Z, s6)
        else Some (canonical (S fracLen) signed (- Z.of_nat fracLen)%Z, s3)
    end.

(** The characters of a string literal after its opening quote. *)
Fixpoint parseStringBody (s : string) : option (string * string) :=
  match s with
  | EmptyString => None
  | String c r =>
      if Ascii.eqb c dquote then Some (EmptyString, r)
      else if Ascii.eqb c backslash then
        match r with
        | String e r2 =>
            let continue (ch : ascii) (rest : option (string * string)) :=
              match rest with
              | Some (body, after) => Some (String ch body, after)
              | None => None
              end in
            if Ascii.eqb e dquote then continue dquote (parseStringBody r2)
            else if Ascii.eqb e backslash then continue backslash (parseStringBody r2)
            else if Ascii.eqb e "/" then continue "/"%char (parseStringBody r2)
            else if Ascii.eqb e "b" then continue (ascii_of_nat 8) (parseStringBody r2)
            else if Ascii.eqb e "f" then continue (ascii_of_nat 12) (parseStringBody r2)
            else if Ascii.eqb e "n" then continue (ascii_of_nat 10) (parseStringBody r2)
            else if Ascii.eqb e "r" then continue (ascii_of_nat 13) (parseStringBody r2)
            else if Ascii.eqb e "t" then continue (ascii_of_nat 9) (parseStringBody r2)
            else if Ascii.eqb e "u" then
              match r2 with
              | String h1 (String h2 (String h3 (String h4 r3))) =>
                  match hexVal h1, hexVal h2, hexVal h3, hexVal h4 with
                  | Some 0, Some 0, Some a, Some b =>
                      continue (ascii_of_nat (16 * a + b)) (parseStringBody r3)
                  | _, _, _, _ => None
                  end
              | _ => None
              end
            else None
        | EmptyString => None
        end
      else if code c <? 32 then None
      else
        match parseStringBody r with
        | Some (body, after) => Some (String c body, after)
        | None => None
        end
  end.

Fixpoint parseValue (fuel : nat) (s : string) {struct fuel} : option (json * string) :=
  match fuel with
  | O => None
  | S fuel' =>
      let s := skipWs s in
      match s with
      | EmptyString => None
      | String c r =>
          if Ascii.eqb c "[" then
            if startsWithChar "]" (skipWs r) then Some (JArr [], tail (skipWs r))
            else
              match parseElements fuel' r with
              | Some (items, after) => Some (JArr items, after)
              | None => None
              end
          else if Ascii.eqb c "{" then
            if startsWithChar "}" (skipWs r) then Some (JObj [], tail (skipWs r))
            else
              match parseMembers fuel' r with
              | Some (members, after) =>
                  Some (JObj (fold_left (fun acc kv => setProp (fst kv) (snd kv) acc)
                                        members []), after)
              | None => None
              end
          else if Ascii.eqb c dquote then
            match parseStringBody r with
            | Some (body, after) => Some (JStr body, after)
            | None => None
            end
          else if String.prefix "null" s then Some (JNull, sliceFrom 4 s)
          else if String.prefix "true" s then Some (JBool true, sliceFrom 4 s)
          else if String.prefix "false" s then Some (JBool false, sliceFrom 5 s)
          else
            match parseNumber s with
            | Some (n, after) => Some (JNum n, after)
            | None => None
            end
      end
  end
with parseElements (fuel : nat) (s : string) {struct fuel} : option (list json * string) :=
  match fuel with
  | O => None
  | S fuel' =>
      match parseValue fuel' s with
      | Some (v, r) =>
          let r := skipWs r in
          if startsWithChar "," r then
            match parseElements fuel' (tail r) with
            | Some (vs, after) => Some (v :: vs, after)
            | None => None
            end
          else if startsWithChar "]" r then Some ([v], tail r)
          else None
      | None => None
      end
  end
with parseMembers (fuel : nat) (s : string) {struct fuel}
  : option (list (string * json) * string) :=
  match fuel with
  | O => None
  | S fuel' =>
      let s := skipWs s in
      if startsWithChar dquote s then
        match parseStringBody (tail s) with
        | Some (key, r1) =>
            let r1 := skipWs r1 in
            if startsWithChar ":" r1 then
              match parseValue fuel' (tail r1) with
              | Some (v, r2) =>
                  let r2 := skipWs r2 in
                  if startsWithChar "," r2 then
                    match parseMembers fuel' (tail r2) with
                    | Some (ms, after) => Some ((key, v) :: ms, after)
                    | None => None
                    end
                  else if startsWithChar "}" r2 then Some ([(key, v)], tail r2)
                  else None
              | None => None
              end
            else None
        | None => None
        end
      else None
  end.

(** [JSON.parse]: one value, surrounded by white space only. *)
Definition parse (s : string) : option json :=
  match parseValue (2 * String.length s + 2) s with
  | Some (v, after) => if isEmpty (skipWs after) then Some v else None
  | None => None
  end.

Definition escapeChar (c : ascii) : string :=
  let n := code c in
  if Ascii.eqb c dquote then String backslash (String dquote EmptyString)
  else if Ascii.eqb c backslash then String backslash (String backslash EmptyString)
  else if n =? 8 then String backslash "b"
  else if n =? 12 then String backslash "f"
  else if n =? 10 then String backslash "n"
  else if n =? 13 then String backslash "r"
  else if n =? 9 then String backslash "t"
  else if n <? 32 then
    String backslash ("u00" +:+ String (toLowerChar (hexDigit (n / 16)))
                                   (String (toLowerChar (hexDigit (n mod 16))) EmptyString))
  else String c EmptyString.

Fixpoint escape (s : string) : string :=
  match s with
  | EmptyString => EmptyString
  | String c r => escapeChar c +:+ escape r
  end.

Definition quote (s : string) : string :=
  String dquote (escape s +:+ String dquote EmptyString).

(** [JSON.stringify] *)
Fixpoint stringify (v : json) : string :=
  match v with
  | JNull => "null"
  | JBool true => "true"
  | JBool false => "false"
  | JNum n => numberToString n
  | JStr s => quote s
  | JArr items => "[" +:+ join "," (map stringify items) +:+ "]"
  | JObj props =>
      "{" +:+ join "," (map (fun kv => quote (fst kv) +:+ ":" +:+ stringify (snd kv)) props)
          +:+ "}"
  end.

(** Test texts are written with single quotes. *)
Fixpoint ofSingleQuoted (s : string) : string :=
  match s with
  | EmptyString => EmptyString
  | String c r => String (if Ascii.eqb c "'" then dquote else c) (ofSingleQuoted r)
  end.

End RefJSON.

(** ** Concrete environments *)

Module Example.

Definition clock (idx : nat) : Z := (1698400000000 + Z.of_nat idx)%Z.

(** An environment with the reference JSON built-ins, an API key, a fixed
    day and a storage that never overflows. *)
Definition envWith (ai : Request -> AIResponse) (geo : option GeoOutcome) : Env :=
  mkEnv RefJSON.parse RefJSON.stringify "Fri Oct 27 2023" clock (Some "key")
        ai geo (fun _ _ _ => true).

Definition answering (text : string) : Request -> AIResponse :=
  fun _ => AIText (Some (RefJSON.ofSingleQuoted text)).

Definition failing : Request -> AIResponse := fun _ => AIFails.

Definition jazzFan : UserProfile :=
  mkUserProfile "Ada" true ["Jazz"] false [] "Miami, USA".

Definition newcomer : UserProfile :=
  mkUserProfile "Ada" true ["Jazz"; "Brunch"] false [] EmptyString.

(** The world at mount: the given storage, no request yet, loading. *)
Definition worldWith (storage : gmap string string) (p : UserProfile) : World :=
  mkWorld storage [] (Some p) (JArr []) true None.

Definition jazzKey : string := "CITYSENSE_EVENTS_CACHE_Fri Oct 27 2023_miami,usa_Jazz".

(** Two records, the second without id, image and link. *)
Definition twoRecords : string :=
  "```json [{'id':'a1','title':'Jazz Night','imageUrl':'https://img/1.png','link':'https://tix/1'},{'title':'Blue Note'}] ```".


Definition miami : number := Decimal 257617 (-4).
Definition miamiLng : number := Decimal (-801918) (-4).

End Example.

(** * Vocabulary of the properties *)

Import JsString Js Service.

(** ** Top picks *)

Module TopPicks.

Import Js.

(** [isUserCreated?: boolean] in [EventItem]. *)
Definition flagTyped (e : Event) : Prop :=
  lookupProp "isUserCreated" e = None
  ∨ ∃ b : bool, lookupProp "isUserCreated" e = Some (JBool b).

Definition levelIsHighlyRecommended (e : Event) : Prop :=
  lookupProp "recommendationLevel" e = Some (JStr "Highly Recommended").

Definition isUserCreated (e : Event) : Prop :=
  lookupProp "isUserCreated" e = Some (JBool true).

(** The rule as the specification words it: the level equals Highly
    Recommended, or [isUserCreated] is true. *)
Definition keptBySpec (e : Event) : bool :=
  match lookupProp "recommendationLevel" e with
  | Some (JStr level) => String.eqb level "Highly Recommended"
  | _ => false
  end
  || match lookupProp "isUserCreated" e with
     | Some (JBool true) => true
     | _ => false
     end.

(** The rule the code applies: the level equals Highly Recommended, or
    [isUserCreated] is truthy, whatever its type. *)
Definition flagTruthy (e : Event) : Prop :=
  truthy (lookupProp "isUserCreated" e) = true.

Definition keptByCode (e : Event) : bool :=
  match lookupProp "recommendationLevel" e with
  | Some (JStr level) => String.eqb level "Highly Recommended"
  | _ => false
  end
  || truthy (lookupProp "isUserCreated" e).

End TopPicks.

(** ** The daily cache *)

Definition isCacheKey (k : string) : Prop :=
  startsWith CACHE_KEY_PREFIX k = true.

(** Every cache key held by the store is [key]. *)
Definition cacheKeysWithin (key : string) (m : gmap string string) : Prop :=
  ∀ k, isCacheKey k -> is_Some (m !! k) -> k = key.

Definition atMostOneCacheEntry (m : gmap string string) : Prop :=
  ∀ k1 k2, isCacheKey k1 -> isCacheKey k2 ->
           is_Some (m !! k1) -> is_Some (m !! k2) -> k1 = k2.

(** What the code does when the cache gives nothing: steps 2 to 4. *)
Definition missPath (env : Env) (city : string) (userProfile : UserProfile) : M json :=
  exec evictStale (generateCacheKey env city userProfile) ;;
  fetchFresh env city userProfile (generateCacheKey env city userProfile).

Definition apiKeyPresent (env : Env) : bool :=
  match API_KEY env with
  | Some k => negb (isEmpty k)
  | None => false
  end.

(** The cache gives nothing: no entry, an empty one, or one that does not
    parse. *)
Definition isMiss (env : Env) (key : string) (storage : gmap string string) : Prop :=
  match storage !! key with
  | None => True
  | Some payload => payload = EmptyString ∨ JSON_parse env payload = None
  end.

Definition cacheFree (m : gmap string string) : Prop :=
  ∀ k, isCacheKey k -> m !! k = None.

(** One step of the application on the world: every operation of the
    repository that writes to [localStorage], and the ones that run between
    two loads. *)
Inductive appStep : World -> World -> Prop :=
| step_load (env : Env) (city : string) (p : UserProfile) (w : World) :
    appStep w (snd (getInitialRecommendations env city p w))
| step_search (env : Env) (city query : string) (w : World) :
    appStep w (snd (searchEvents env city query w))
| step_init (env : Env) (p : UserProfile) (w : World) :
    appStep w (snd (Dashboard.init env App.handleUpdateCity p w))
| step_updateCity (city : string) (w : World) :
    appStep w (snd (App.handleUpdateCity city w))
| step_persistProfile (env : Env) (w : World) :
    appStep w (snd (App.persistProfileEffect env w))
| step_reset (env : Env) (w : World) :
    appStep w (snd (App.resetAndCommit env w))
| step_persistUserEvents (env : Env) (v : string) (w : World) :
    appStep w (snd (setItem env "citysense_user_events" v w))
| step_toggleSave (env : Env) (v : string) (w : World) :
    appStep w (snd (setItem env "savedEvents" v w)).

(** The worlds the application reaches from a store without cache entries. *)
Definition reachable (w : World) : Prop :=
  ∃ w0 : World, cacheFree (localStorage w0) ∧ rtc appStep w0 w.

(** ** Normalised records *)

Module Normalize.

Import Js.

(** The raw id of a record, as [ev.id] reads it. *)
Definition rawId (ev : json) : option json :=
  match ev with
  | JObj props => lookupProp "id" props
  | _ => None
  end.

(** A field that is present and is neither [null] nor the empty string; the
    code establishes the stronger fact that it is truthy. *)
Definition nonEmptyField (k : string) (e : Event) : Prop :=
  ∃ v : json,
    lookupProp k e = Some v ∧ v ≠ JNull ∧ v ≠ JStr EmptyString
    ∧ truthy (Some v) = true.

Definition wellFormed (e : Event) : Prop :=
  nonEmptyField "id" e ∧ nonEmptyField "imageUrl" e ∧ nonEmptyField "link" e.

(** A record the callback can repair: an object that has an image URL or,
    failing that, a title that is a string, and that has a link or, failing
    that, a title that the [+] operator can convert to a string. *)
Definition repairable (raw : json) : Prop :=
  ∃ props : list (string * json),
    raw = JObj props
    ∧ (truthy (lookupProp "imageUrl" props) = true
       ∨ ∃ title : string, lookupProp "title" props = Some (JStr title))
    ∧ (truthy (lookupProp "link" props) = true
       ∨ is_Some (toStringOpt (lookupProp "title" props))).

End Normalize.

(** ** Runs of digits *)

Module Digits.



End Digits.

(** ** Results of the fetching functions *)

Module Fetch.

Import Js Normalize.

(** The ids of [events] are those of the raw [items], repaired. *)
Definition idsRepaired (env : Env) (sourcePrefix city : string)
    (items : list json) (events : list Event) : Prop :=
  length events = length items
  ∧ ∀ (i : nat) (raw : json) (e : Event),
      items !! i = Some raw -> events !! i = Some e ->
      lookupProp "id" e
      = if truthy (rawId raw) then rawId raw
        else Some (JStr (sourcePrefix +:+ "-" +:+ substring 0 3 city +:+ "-"
                           +:+ natToString i +:+ "-" +:+ intToString (Date_now env i))).

(** [events] is empty, or it is the normalisation of the array that the
    answer to [req] parses to. *)
Definition normalizes (env : Env) (sourcePrefix city : string) (req : Request)
    (events : list Event) : Prop :=
  events = []
  ∨ ∃ (text : option string) (items : list json),
      generateContent env req = AIText text
      ∧ cleanAndParseJSON env text = JArr items
      ∧ idsRepaired env sourcePrefix city items events.


End Fetch.

(** ** The mount effect *)

Module Mount.

(** [w'] differs from [w] in the profile state of [App] at most. *)
Definition sameButProfile (w w' : World) : Prop :=
  localStorage w' = localStorage w ∧ aiCalls w' = aiCalls w
  ∧ dash_events w' = dash_events w ∧ dash_loading w' = dash_loading w
  ∧ dash_error w' = dash_error w.

(** The city [identifyCityFromCoords] settles on. *)
Definition cityOfText (text : option string) : string :=
  match text with
  | Some t => if isEmpty (trim t) then "Unknown Location" else trim t
  | None => "Unknown Location"
  end.

(** The requests that resolving the city adds to the log. *)
Definition geocodeCalls (env : Env) (userProfile : UserProfile) : list Request :=
  if isEmpty (currentCity userProfile) then
    match geolocation env with
    | Some (GeoPosition lat lng) =>
        if apiKeyPresent env then [IdentifyCity lat lng] else []
    | _ => []
    end
  else [].

End Mount.

(** ** Data of the concrete runs *)

Module Runs.

Import Example.


Definition cachedTwo : string :=
  RefJSON.ofSingleQuoted
    "[{'id':'a1','title':'Jazz Night','imageUrl':'https://img/1.png','link':'https://tix/1'},{'title':'Blue Note','id':'evt-Mia-1-1698400000001','imageUrl':'https://picsum.photos/seed/BlueNote1/800/600','link':'https://www.google.com/search?q=Blue%20Note%20Miami%2C%20USA%20tickets'}]".

Definition normalizedTwo : json :=
  JArr
    [JObj [("id", JStr "a1"); ("title", JStr "Jazz Night");
           ("imageUrl", JStr "https://img/1.png"); ("link", JStr "https://tix/1")];
     JObj [("title", JStr "Blue Note"); ("id", JStr "evt-Mia-1-1698400000001");
           ("imageUrl", JStr "https://picsum.photos/seed/BlueNote1/800/600");
           ("link",
            JStr "https://www.google.com/search?q=Blue%20Note%20Miami%2C%20USA%20tickets")]].

(** A payload that parses but is no event list. *)
Definition notEvents : string := RefJSON.ofSingleQuoted "{'oops':1}".

Definition userMade : Event :=
  [("id", JStr "user-1"); ("title", JStr "Porch Concert");
   ("recommendationLevel", JStr "Not Recommended"); ("isUserCreated", JBool true)].

Definition recommended : Event :=
  [("id", JStr "a1"); ("title", JStr "Jazz Night");
   ("recommendationLevel", JStr "Highly Recommended")].

Definition considered : Event :=
  [("id", JStr "a2"); ("title", JStr "Open Mic");
   ("recommendationLevel", JStr "Consider"); ("isUserCreated", JBool false)].

Definition staleKey : string := "CITYSENSE_EVENTS_CACHE_Thu Oct 26 2023_miami,usa_Jazz".


(** A store with a profile, today's cache entry, a user event list and a
    saved id. *)
Definition fullStore : gmap string string :=
  <["citysense_user_profile" := "{}"]>
    (<[jazzKey := "[]"]>
       (<["citysense_user_events" := "[]"]> {["savedEvents" := "[1]"]})).

End Runs.

(** ** What an operation leaves alone *)

(** [w'] has the React state of [w]. *)
Definition sameReactState (w w' : World) : Prop :=
  app_userProfile w' = app_userProfile w ∧ dash_events w' = dash_events w
  ∧ dash_loading w' = dash_loading w ∧ dash_error w' = dash_error w.

(** ** Records the callback can repair, as a test *)

Module Repair.

Import Js.

(** An object that has a truthy image URL or a title that is a string. *)
Definition canRepair (raw : json) : bool :=
  match raw with
  | JObj props =>
      truthy (lookupProp "imageUrl" props)
      || match lookupProp "title" props with
         | Some (JStr _) => true
         | _ => false
         end
  | _ => false
  end.

End Repair.

(** ** Categories *)

Module Category.

Import Js.

(** The category is a string, or there is none ([category: string] in
    [EventItem], read leniently). *)
Definition textual (e : Event) : bool :=
  match lookupProp "category" e with
  | None | Some JNull | Some (JStr _) => true
  | _ => false
  end.

(** The category is a number, a boolean or an object. *)
Definition untyped (e : Event) : bool :=
  match lookupProp "category" e with
  | Some (JNum _) | Some (JBool _) | Some (JObj _) => true
  | _ => false
  end.

(** The category is a string in which [categoryFilter] occurs. *)
Definition contains (categoryFilter : string) (e : Event) : Prop :=
  ∃ pre post : string,
    lookupProp "category" e = Some (JStr (pre +:+ categoryFilter +:+ post)).

(** The test of the filter on an event whose category is a string. *)
Definition keeps (categoryFilter : string) (e : Event) : bool :=
  match lookupProp "category" e with
  | Some (JStr category) =>
      DashboardView.includes categoryFilter category || String.eqb category categoryFilter
  | _ => false
  end.

End Category.

(** ** Data of the further runs *)

Module Scenes.

Import Example.

(** The environment of the examples without an API key. *)
Definition withoutKey : Env :=
  mkEnv RefJSON.parse RefJSON.stringify "Fri Oct 27 2023" clock None
        (answering twoRecords) None (fun _ _ _ => true).

(** The environment of the examples with a store that is full. *)
Definition quotaExceeded : Env :=
  mkEnv RefJSON.parse RefJSON.stringify "Fri Oct 27 2023" clock (Some "key")
        (answering twoRecords) None (fun _ _ _ => false).

(** The environment of the examples one day later. *)
Definition nextDay : Env :=
  mkEnv RefJSON.parse RefJSON.stringify "Sat Oct 28 2023" clock (Some "key")
        failing None (fun _ _ _ => true).

(** Two records, the second without image and title. *)
Definition oneBad : string := "[{'id':'a1','title':'Jazz Night'},{'id':'a2'}]".

Definition oneBadItems : list json :=
  [JObj [("id", JStr "a1"); ("title", JStr "Jazz Night")]; JObj [("id", JStr "a2")]].

Definition blueNote : list (string * json) := [("title", JStr "Blue Note")].

(** [blueNote] after normalisation at index 0 of a fetch for Miami. *)
Definition blueNoteNormalized : Event :=
  [("title", JStr "Blue Note"); ("id", JStr "evt-Mia-0-1698400000000");
   ("imageUrl", JStr "https://picsum.photos/seed/BlueNote0/800/600");
   ("link", JStr "https://www.google.com/search?q=Blue%20Note%20Miami%2C%20USA%20tickets")].

(** The body of a fenced answer, and the answer with white space around
    the fences. *)
Definition fencedBody : string :=
  Chat.newline +:+ RefJSON.ofSingleQuoted "[{'title':'Blue Note'}]" +:+ Chat.newline.

Definition fencedAnswer : string :=
  Chat.newline +:+ "```json" +:+ fencedBody +:+ "```" +:+ Chat.newline.

Definition liveMusic : Event :=
  [("id", JStr "a1"); ("title", JStr "Jazz Night"); ("category", JStr "Live Music")].

Definition brunch : Event :=
  [("id", JStr "a2"); ("title", JStr "Sunday Brunch"); ("category", JStr "Food")].

(** An answer whose record carries the text false as its [isUserCreated],
    and the event it becomes. *)
Definition flaggedAnswer : string :=
  "[{'id':'a7','title':'Open Mic','imageUrl':'https://img/7.png','link':'https://tix/7','recommendationLevel':'Not Recommended','isUserCreated':'false'}]".

Definition flagged : Event :=
  [("id", JStr "a7"); ("title", JStr "Open Mic"); ("imageUrl", JStr "https://img/7.png");
   ("link", JStr "https://tix/7"); ("recommendationLevel", JStr "Not Recommended");
   ("isUserCreated", JStr "false")].

(** An event whose category is a number. *)
Definition numbered : Event :=
  [("id", JStr "a3"); ("title", JStr "Mystery"); ("category", JNum (Decimal 5 0))].

End Scenes.

(** * Properties *)

(** ** The cache key *)

(** Sorting forgets the order in which the interests were selected. *)
Lemma sort_of_permutation (l1 l2 : list string) :
  l1 ≡ₚ l2 -> sort l1 = sort l2.
Proof.
  intros Hperm. unfold sort.
  apply (Sorted_unique String.le).
  - apply Sorted_merge_sort; apply _.
  - apply Sorted_merge_sort; apply _.
  - rewrite !merge_sort_Permutation. exact Hperm.
Qed.

Lemma NoDup_List_filter {A : Type} (f : A -> bool) (l : list A) :
  NoDup l -> NoDup (List.filter f l).
Proof.
  induction 1 as [| x l Hx Hl IH]; simpl; [constructor |].
  destruct (f x); [| exact IH].
  constructor; [| exact IH].
  intros Hmem. apply Hx. apply list_elem_of_In in Hmem.
  apply filter_In in Hmem as [Hmem _]. apply list_elem_of_In, Hmem.
Qed.

(** The interests of a profile are selected by toggling, which never
    duplicates one. *)
Lemma toggleInterest_NoDup (interest : string) (prev : list string) :
  NoDup prev -> NoDup (Onboarding.toggleInterest interest prev).
Proof.
  intros Hprev. unfold Onboarding.toggleInterest.
  destruct (existsb (String.eqb interest) prev) eqn:Hin.
  - apply NoDup_List_filter, Hprev.
  - apply NoDup_app. split; [exact Hprev |]. split; [| apply NoDup_singleton].
    intros x Hx Hx'. apply list_elem_of_singleton in Hx'. subst x.
    assert (existsb (String.eqb interest) prev = true) as Hex.
    { apply existsb_exists. exists interest.
      split; [apply list_elem_of_In, Hx | apply String.eqb_refl]. }
    congruence.
Qed.

(** C4. The cache key depends on the environment through the day only, on
    the profile through its interests only, and on the city through its
    white-space-free lower-case form only: two calls on the same day, with
    cities that agree after that normalisation and with the same interests in
    any order (one list a permutation of the other or, the lists being free
    of duplicates, the same set), produce the same key. *)
Theorem generateCacheKey_deterministic
    (env1 env2 : Env) (city1 city2 : string) (p1 p2 : UserProfile) :
  toDateString env1 = toDateString env2 ->
  toLowerCase (removeWhiteSpace city1) = toLowerCase (removeWhiteSpace city2) ->
  interests p1 ≡ₚ interests p2
  ∨ (NoDup (interests p1) ∧ NoDup (interests p2)
     ∧ ∀ x : string, x ∈ interests p1 <-> x ∈ interests p2) ->
  generateCacheKey env1 city1 p1 = generateCacheKey env2 city2 p2.
Proof.
  intros Hday Hcity Hsame. unfold generateCacheKey.
  assert (Hperm : interests p1 ≡ₚ interests p2).
  { destruct Hsame as [Hperm | (Hnd1 & Hnd2 & Hset)]; [exact Hperm |].
    apply NoDup_Permutation; assumption. }
  rewrite Hday, Hcity, (sort_of_permutation _ _ Hperm). reflexivity.
Qed.

(** ** Top picks *)

Module TopPicksFacts.

Import Dashboard TopPicks.

Lemma isHighlyRecommended_iff (e : Event) :
  isHighlyRecommended e = true <-> levelIsHighlyRecommended e.
Proof.
  unfold isHighlyRecommended, levelIsHighlyRecommended, HIGHLY_RECOMMENDED.
  destruct (lookupProp "recommendationLevel" e) as [[| | |s| |]|]; split;
    try discriminate; try congruence.
  - intros H. apply String.eqb_eq in H. congruence.
  - intros [= ->]. reflexivity.
Qed.

Lemma truthy_flag_iff (e : Event) :
  flagTyped e ->
  truthy (lookupProp "isUserCreated" e) = true <-> isUserCreated e.
Proof.
  unfold flagTyped, isUserCreated.
  intros [-> | [b ->]]; simpl; split; try discriminate; congruence.
Qed.

Lemma filter_sublist {A : Type} (f : A -> bool) (l : list A) :
  sublist (List.filter f l) l.
Proof.
  induction l as [| x l IH]; simpl.
  - constructor.
  - destruct (f x); [apply sublist_skip | apply sublist_cons]; exact IH.
Qed.

End TopPicksFacts.

(** C9. For every merged list, [topPicks] keeps, in their order, exactly
    the events whose level is Highly Recommended or whose [isUserCreated] is
    truthy; an event whose [isUserCreated] is true is kept whatever its
    level.  Where every [isUserCreated] is a boolean when present, this is
    the rule in the words of the specification: the level is Highly
    Recommended or [isUserCreated] is true. *)
Theorem topPicks_exact (userEvents events : list Event) :
  Dashboard.topPicks (Dashboard.allEvents userEvents events)
  = List.filter TopPicks.keptByCode (Dashboard.allEvents userEvents events)
  ∧ (∀ e : Event,
     In e (Dashboard.topPicks (Dashboard.allEvents userEvents events)) <->
     In e (Dashboard.allEvents userEvents events)
     ∧ (TopPicks.levelIsHighlyRecommended e ∨ TopPicks.flagTruthy e))
  ∧ (∀ e : Event,
       In e (Dashboard.allEvents userEvents events) ->
       TopPicks.isUserCreated e ->
       In e (Dashboard.topPicks (Dashboard.allEvents userEvents events)))
  ∧ sublist (Dashboard.topPicks (Dashboard.allEvents userEvents events))
            (Dashboard.allEvents userEvents events)
  ∧ Dashboard.topPicks (Dashboard.allEvents userEvents events)
    = Dashboard.topPicks userEvents ++ Dashboard.topPicks events
  ∧ (Forall TopPicks.flagTyped (Dashboard.allEvents userEvents events) ->
     Dashboard.topPicks (Dashboard.allEvents userEvents events)
     = List.filter TopPicks.keptBySpec (Dashboard.allEvents userEvents events)
     ∧ ∀ e : Event,
         In e (Dashboard.topPicks (Dashboard.allEvents userEvents events)) <->
         In e (Dashboard.allEvents userEvents events)
         ∧ (TopPicks.levelIsHighlyRecommended e ∨ TopPicks.isUserCreated e)).
Proof.
  assert (Hiff : ∀ e : Event,
     In e (Dashboard.topPicks (Dashboard.allEvents userEvents events)) <->
     In e (Dashboard.allEvents userEvents events)
     ∧ (TopPicks.levelIsHighlyRecommended e ∨ TopPicks.flagTruthy e)).
  { intros e. unfold Dashboard.topPicks, TopPicks.flagTruthy. rewrite filter_In.
    rewrite orb_true_iff, TopPicksFacts.isHighlyRecommended_iff. reflexivity. }
  split; [reflexivity |]. split; [exact Hiff |].
  split; [| split; [| split]].
  - intros e Hin Huser. apply Hiff. split; [exact Hin |]. right.
    unfold TopPicks.flagTruthy. unfold TopPicks.isUserCreated in Huser.
    rewrite Huser. reflexivity.
  - apply TopPicksFacts.filter_sublist.
  - unfold Dashboard.topPicks, Dashboard.allEvents. apply List.filter_app.
  - intros Htyped.
    assert (Htyped' : ∀ e, In e (Dashboard.allEvents userEvents events) ->
                           TopPicks.flagTyped e).
    { intros e Hin. rewrite Forall_forall in Htyped.
      apply Htyped, list_elem_of_In, Hin. }
    split.
    + unfold Dashboard.topPicks. apply filter_ext_in. intros e Hin.
      unfold TopPicks.keptBySpec, Dashboard.isHighlyRecommended, HIGHLY_RECOMMENDED.
      f_equal. destruct (Htyped' e Hin) as [-> | [[] ->]]; reflexivity.
    + intros e. rewrite Hiff. split; intros [Hin Hkept]; (split; [exact Hin |]).
      * destruct Hkept as [H | H]; [left; exact H | right].
        apply TopPicksFacts.truthy_flag_iff; [apply Htyped', Hin | exact H].
      * destruct Hkept as [H | H]; [left; exact H | right].
        apply TopPicksFacts.truthy_flag_iff; [apply Htyped', Hin | exact H].
Qed.

(** ** Storage lemmas *)

Section StorageFilter.

Context (P : string * string -> Prop) `{!∀ x, Decision (P x)}.

Lemma lookup_filter_kept (m : gmap string string) (k : string) :
  (∀ v, P (k, v)) -> filter P m !! k = m !! k.
Proof.
  intros HP. destruct (m !! k) as [v |] eqn:E.
  - apply map_lookup_filter_Some. split; [exact E | apply HP].
  - apply map_lookup_filter_None. left. exact E.
Qed.

Lemma lookup_filter_dropped (m : gmap string string) (k : string) :
  (∀ v, ¬ P (k, v)) -> filter P m !! k = None.
Proof.
  intros HP. apply map_lookup_filter_None. right. intros v _. apply HP.
Qed.

End StorageFilter.

(** ** Reset *)

(** C10. A reset, once committed, leaves no stored profile and no key of
    the daily cache; every other key of the store, among them
    [citysense_user_events] and [savedEvents], keeps its value. *)
Theorem reset_clears_profile_and_cache_only (env : Env) (w : World) :
  ∃ w' : World,
    App.resetAndCommit env w = (Ok tt, w')
    ∧ app_userProfile w' = None
    ∧ localStorage w' !! "citysense_user_profile" = None
    ∧ (∀ k, startsWith CACHE_KEY_PREFIX k = true -> localStorage w' !! k = None)
    ∧ (∀ k, k ≠ "citysense_user_profile" -> startsWith CACHE_KEY_PREFIX k = false ->
            localStorage w' !! k = localStorage w !! k)
    ∧ localStorage w' !! "citysense_user_events" = localStorage w !! "citysense_user_events"
    ∧ localStorage w' !! "savedEvents" = localStorage w !! "savedEvents".
Proof.
  eexists. split; [reflexivity |]. cbn [app_userProfile localStorage withStorage].
  assert (Hframe : ∀ k, k ≠ "citysense_user_profile" ->
            startsWith CACHE_KEY_PREFIX k = false ->
            delete "citysense_user_profile"
              (filter (fun entry : string * string =>
                         ¬ (startsWith "CITYSENSE_EVENTS_CACHE_" (fst entry) = true))
                      (localStorage w)) !! k = localStorage w !! k).
  { intros k Hk Hpre. rewrite lookup_delete_ne by congruence.
    apply lookup_filter_kept. intros v. cbn [fst].
    unfold CACHE_KEY_PREFIX in Hpre. rewrite Hpre. discriminate. }
  split; [reflexivity |]. split; [apply lookup_delete_eq |]. split; [| split; [exact Hframe |]].
  - intros k Hpre.
    rewrite lookup_delete_ne.
    + apply lookup_filter_dropped. intros v. cbn [fst].
      unfold CACHE_KEY_PREFIX in Hpre. tauto.
    + intros <-. vm_compute in Hpre. discriminate.
  - split; apply Hframe; (discriminate || reflexivity).
Qed.

(** ** The daily load: cache read, eviction, fetch *)

Lemma getAIClient_run (env : Env) (w : World) :
  getAIClient env w
  = if apiKeyPresent env then (Ok tt, w) else (Throw MissingApiKey, w).
Proof.
  unfold getAIClient, apiKeyPresent.
  destruct (API_KEY env) as [k |]; [destruct (isEmpty k) |]; reflexivity.
Qed.

Lemma generateCacheKey_isCacheKey (env : Env) (city : string) (p : UserProfile) :
  isCacheKey (generateCacheKey env city p).
Proof.
  unfold isCacheKey, generateCacheKey, startsWith, CACHE_KEY_PREFIX. cbn.
  destruct (toDateString env +:+ _); reflexivity.
Qed.

Lemma isEmpty_false (s : string) : s ≠ EmptyString -> isEmpty s = false.
Proof. destruct s; [congruence | reflexivity]. Qed.

Lemma isEmpty_true (s : string) : isEmpty s = true -> s = EmptyString.
Proof. destruct s; [reflexivity | discriminate]. Qed.

(** The three outcomes of the cache read. *)
Lemma load_on_hit (env : Env) (city : string) (p : UserProfile) (w : World)
    (payload : string) (v : json) :
  localStorage w !! generateCacheKey env city p = Some payload ->
  isEmpty payload = false ->
  JSON_parse env payload = Some v ->
  getInitialRecommendations env city p w = (Ok v, w).
Proof.
  intros Hget Hne Hparse.
  unfold getInitialRecommendations, checkCache, bind, getItem, ret.
  rewrite Hget, Hne, Hparse. reflexivity.
Qed.

Lemma load_on_corrupt (env : Env) (city : string) (p : UserProfile) (w : World)
    (payload : string) :
  localStorage w !! generateCacheKey env city p = Some payload ->
  isEmpty payload = false ->
  JSON_parse env payload = None ->
  getInitialRecommendations env city p w
  = missPath env city p (withStorage (delete (generateCacheKey env city p)) w).
Proof.
  intros Hget Hne Hparse.
  unfold getInitialRecommendations, missPath, checkCache, bind, getItem, ret, removeItem.
  rewrite Hget, Hne, Hparse. reflexivity.
Qed.

Lemma load_on_absent (env : Env) (city : string) (p : UserProfile) (w : World) :
  (localStorage w !! generateCacheKey env city p = None
   ∨ localStorage w !! generateCacheKey env city p = Some EmptyString) ->
  getInitialRecommendations env city p w = missPath env city p w.
Proof.
  intros Hget.
  unfold getInitialRecommendations, missPath, checkCache, bind, getItem, ret.
  destruct Hget as [-> | ->]; reflexivity.
Qed.

(** The outcomes of steps 3 and 4. *)
Lemma fetchFresh_cases (env : Env) (city : string) (p : UserProfile) (key : string)
    (w : World) :
  let req := InitialRecommendations city p in
  fetchFresh env city p key w =
  if apiKeyPresent env then
    match generateContent env req with
    | AIFails => (Ok (JArr []), logCall req w)
    | AIText text =>
        match mapEvents env "evt" city (cleanAndParseJSON env text) with
        | Throw _ => (Ok (JArr []), logCall req w)
        | Ok [] => (Ok (JArr []), logCall req w)
        | Ok (e :: es) =>
            if storageAccepts env (localStorage w) key
                 (JSON_stringify env (eventsToJson (e :: es)))
            then (Ok (eventsToJson (e :: es)),
                  withStorage (insert key (JSON_stringify env (eventsToJson (e :: es))))
                              (logCall req w))
            else (Ok (JArr []), logCall req w)
        end
    end
  else (Ok (JArr []), w).
Proof.
  cbn zeta. unfold fetchFresh, tryCatch, bind. rewrite getAIClient_run.
  destruct (apiKeyPresent env); [| reflexivity].
  unfold generate. destruct (generateContent env _) as [| text]; [reflexivity |].
  unfold liftRes.
  destruct (mapEvents env "evt" city (cleanAndParseJSON env text)) as [[| e es] | err];
    try reflexivity.
  unfold setItem. cbn [localStorage logCall].
  destruct (storageAccepts env _ _ _); reflexivity.
Qed.

Lemma evictStale_within (key : string) (w : World) :
  cacheKeysWithin key (localStorage (snd (evictStale key w))).
Proof.
  intros k Hk [v Hv]. cbn in Hv.
  apply map_lookup_filter_Some in Hv as [_ Hkeep].
  unfold isStale in Hkeep. cbn [fst] in Hkeep.
  destruct (decide (k = key)) as [-> | Hne]; [reflexivity |].
  exfalso. apply Hkeep. split; [exact Hk | exact Hne].
Qed.

Lemma cacheKeysWithin_insert (key v : string) (m : gmap string string) :
  cacheKeysWithin key m -> cacheKeysWithin key (<[key := v]> m).
Proof.
  intros Hm k Hk Hsome.
  destruct (decide (key = k)) as [-> | Hne]; [reflexivity |].
  rewrite lookup_insert_ne in Hsome by exact Hne. apply Hm; assumption.
Qed.

Lemma fetchFresh_within (env : Env) (city : string) (p : UserProfile) (key : string)
    (w : World) :
  cacheKeysWithin key (localStorage w) ->
  cacheKeysWithin key (localStorage (snd (fetchFresh env city p key w))).
Proof.
  intros Hw. rewrite fetchFresh_cases. cbn zeta.
  destruct (apiKeyPresent env); [| exact Hw].
  destruct (generateContent env _) as [| text]; [exact Hw |].
  destruct (mapEvents env "evt" city _) as [[| e es] | err]; try exact Hw.
  destruct (storageAccepts env _ _ _); [| exact Hw].
  cbn. apply cacheKeysWithin_insert. exact Hw.
Qed.

Lemma missPath_within (env : Env) (city : string) (p : UserProfile) (w : World) :
  cacheKeysWithin (generateCacheKey env city p)
                  (localStorage (snd (missPath env city p w))).
Proof.
  unfold missPath, bind.
  destruct (evictStale (generateCacheKey env city p) w) as [r w1] eqn:E.
  assert (Hw1 : w1 = snd (evictStale (generateCacheKey env city p) w)) by (rewrite E; reflexivity).
  unfold evictStale in E. injection E as <- _.
  apply fetchFresh_within. rewrite Hw1. apply evictStale_within.
Qed.

Lemma fetchFresh_returns (env : Env) (city : string) (p : UserProfile) (key : string)
    (w : World) :
  ∃ (v : json) (w' : World), fetchFresh env city p key w = (Ok v, w').
Proof.
  rewrite fetchFresh_cases. cbn zeta.
  destruct (apiKeyPresent env); [| eauto].
  destruct (generateContent env _) as [| text]; [eauto |].
  destruct (mapEvents env "evt" city _) as [[| e es] | err]; eauto.
  destruct (storageAccepts env _ _ _); eauto.
Qed.

Lemma missPath_returns (env : Env) (city : string) (p : UserProfile) (w : World) :
  ∃ (v : json) (w' : World), missPath env city p w = (Ok v, w').
Proof. unfold missPath, bind, evictStale. apply fetchFresh_returns. Qed.

(** Every load is a hit, a miss on an absent or empty entry, or a miss on an
    entry that does not parse. *)
Lemma load_classification (env : Env) (city : string) (p : UserProfile) (w : World) :
  let key := generateCacheKey env city p in
  (∃ payload v,
      localStorage w !! key = Some payload ∧ isEmpty payload = false
      ∧ JSON_parse env payload = Some v
      ∧ getInitialRecommendations env city p w = (Ok v, w))
  ∨ getInitialRecommendations env city p w = missPath env city p w
  ∨ getInitialRecommendations env city p w
    = missPath env city p (withStorage (delete key) w).
Proof.
  cbn zeta.
  destruct (localStorage w !! generateCacheKey env city p) as [payload |] eqn:Hget.
  - destruct (isEmpty payload) eqn:Hne.
    + right; left. apply load_on_absent. right.
      rewrite Hget. f_equal. apply isEmpty_true, Hne.
    + destruct (JSON_parse env payload) as [v |] eqn:Hparse.
      * left. exists payload, v. repeat split; try assumption.
        eapply load_on_hit; eassumption.
      * right; right. eapply load_on_corrupt; eassumption.
  - right; left. apply load_on_absent. left. exact Hget.
Qed.

Lemma cacheKeysWithin_delete (key k : string) (m : gmap string string) :
  cacheKeysWithin key m -> cacheKeysWithin key (delete k m).
Proof.
  intros Hm k' Hk' [v Hv]. apply Hm; [exact Hk' |].
  apply lookup_delete_Some in Hv as [_ Hv]. eauto.
Qed.

(** A miss that returns events has stored them under the key. *)
Lemma missPath_stores (env : Env) (city : string) (p : UserProfile) (w w1 : World)
    (e : Event) (es : list Event) :
  missPath env city p w = (Ok (eventsToJson (e :: es)), w1) ->
  localStorage w1 !! generateCacheKey env city p
  = Some (JSON_stringify env (eventsToJson (e :: es))).
Proof.
  unfold missPath, bind, evictStale. rewrite fetchFresh_cases. cbn zeta.
  destruct (apiKeyPresent env); [| discriminate].
  destruct (generateContent env _) as [| text]; [discriminate |].
  destruct (mapEvents env "evt" city _) as [[| e' es'] | err]; try discriminate.
  destruct (storageAccepts env _ _ _); [| discriminate].
  intros H.
  assert (Hev : eventsToJson (e' :: es') = eventsToJson (e :: es)) by congruence.
  rewrite <- Hev.
  match type of H with (_, ?w') = _ => assert (Hw : w1 = w') by congruence end.
  rewrite Hw. cbn. apply lookup_insert_eq.
Qed.

Lemma generateCacheKey_same_day (env1 env2 : Env) (city : string) (p : UserProfile) :
  toDateString env1 = toDateString env2 ->
  generateCacheKey env1 city p = generateCacheKey env2 city p.
Proof. intros Hday. unfold generateCacheKey. rewrite Hday. reflexivity. Qed.

(** C1. A load that finds at today's key a non-empty payload that parses
    returns the parsed value and leaves the world, and so the log of AI
    requests, as it was. In particular a list stored under the key is read
    back identical whenever [JSON.parse] inverts [JSON.stringify] on it, and
    so is the list that an earlier load of the same day fetched and stored:
    the later load returns it and asks the collaborator nothing. *)
Theorem cache_hit_returns_stored (env : Env) (city : string) (p : UserProfile) (w : World) :
  (∀ (payload : string) (v : json),
     localStorage w !! generateCacheKey env city p = Some payload ->
     payload ≠ EmptyString ->
     JSON_parse env payload = Some v ->
     getInitialRecommendations env city p w = (Ok v, w)
     ∧ aiCalls (snd (getInitialRecommendations env city p w)) = aiCalls w)
  ∧ (∀ events : json,
       JSON_stringify env events ≠ EmptyString ->
       JSON_parse env (JSON_stringify env events) = Some events ->
       getInitialRecommendations env city p
         (withStorage (insert (generateCacheKey env city p) (JSON_stringify env events)) w)
       = (Ok events,
          withStorage (insert (generateCacheKey env city p) (JSON_stringify env events)) w))
  ∧ (∀ (env0 : Env) (w0 : World) (e : Event) (es : list Event),
       toDateString env0 = toDateString env ->
       missPath env0 city p w0 = (Ok (eventsToJson (e :: es)), w) ->
       JSON_stringify env0 (eventsToJson (e :: es)) ≠ EmptyString ->
       JSON_parse env (JSON_stringify env0 (eventsToJson (e :: es)))
       = Some (eventsToJson (e :: es)) ->
       getInitialRecommendations env city p w = (Ok (eventsToJson (e :: es)), w)).
Proof.
  split; [| split].
  - intros payload v Hget Hne Hparse.
    rewrite (load_on_hit env city p w payload v Hget (isEmpty_false _ Hne) Hparse).
    split; reflexivity.
  - intros events Hne Hparse.
    apply (load_on_hit env city p _ (JSON_stringify env events) events).
    + cbn. apply lookup_insert_eq.
    + apply isEmpty_false, Hne.
    + exact Hparse.
  - intros env0 w0 e es Hday Hfirst Hne Hparse.
    apply (load_on_hit env city p w (JSON_stringify env0 (eventsToJson (e :: es)))).
    + rewrite <- (generateCacheKey_same_day env0 env city p Hday).
      apply (missPath_stores env0 city p w0 w e es Hfirst).
    + apply isEmpty_false, Hne.
    + exact Hparse.
Qed.

(** C6 (as the code has it). A load never throws. An absent or empty entry
    is a miss. A non-empty entry that [JSON.parse] rejects is removed and the
    load goes on as a miss. A non-empty entry that parses is returned as it
    is, whatever its shape, with the store untouched. *)
Theorem cache_read_degrades (env : Env) (city : string) (p : UserProfile) (w : World) :
  let key := generateCacheKey env city p in
  (∃ (v : json) (w' : World), getInitialRecommendations env city p w = (Ok v, w'))
  ∧ (localStorage w !! key = None ∨ localStorage w !! key = Some EmptyString ->
     getInitialRecommendations env city p w = missPath env city p w)
  ∧ (∀ payload : string,
       localStorage w !! key = Some payload -> payload ≠ EmptyString ->
       JSON_parse env payload = None ->
       getInitialRecommendations env city p w
       = missPath env city p (withStorage (delete key) w)
       ∧ localStorage (withStorage (delete key) w) !! key = None)
  ∧ (∀ (payload : string) (v : json),
       localStorage w !! key = Some payload -> payload ≠ EmptyString ->
       JSON_parse env payload = Some v ->
       getInitialRecommendations env city p w = (Ok v, w)).
Proof.
  cbn zeta. split; [| split; [| split]].
  - destruct (load_classification env city p w)
      as [(payload & v & _ & _ & _ & Hrun) | [H | H]].
    + eauto.
    + rewrite H. apply missPath_returns.
    + rewrite H. apply missPath_returns.
  - apply load_on_absent.
  - intros payload Hget Hne Hparse. split.
    + apply (load_on_corrupt env city p w payload Hget (isEmpty_false _ Hne) Hparse).
    + cbn. apply lookup_delete_eq.
  - intros payload v Hget Hne Hparse.
    apply (load_on_hit env city p w payload v Hget (isEmpty_false _ Hne) Hparse).
Qed.

(** ** Normalisation of the records *)

Module NormalizeFacts.

Import Normalize.

Lemma lookup_setProp_eq (k : string) (v : json) (props : list (string * json)) :
  lookupProp k (setProp k v props) = Some v.
Proof.
  induction props as [| [k' v'] r IH]; simpl.
  - rewrite String.eqb_refl. reflexivity.
  - destruct (String.eqb k k') eqn:E; simpl.
    + rewrite String.eqb_refl. reflexivity.
    + rewrite E. exact IH.
Qed.

Lemma lookup_setProp_ne (k k' : string) (v : json) (props : list (string * json)) :
  k ≠ k' -> lookupProp k (setProp k' v props) = lookupProp k props.
Proof.
  intros Hne. induction props as [| [k2 v2] r IH]; simpl.
  - apply String.eqb_neq in Hne. rewrite Hne. reflexivity.
  - destruct (String.eqb k' k2) eqn:E; simpl.
    + apply String.eqb_eq in E. subst k2.
      apply String.eqb_neq in Hne. rewrite Hne. reflexivity.
    + destruct (String.eqb k k2); [reflexivity | exact IH].
Qed.

Lemma truthy_nonEmpty (v : json) :
  truthy (Some v) = true -> v ≠ JNull ∧ v ≠ JStr EmptyString.
Proof. destruct v as [| | |s| |]; try destruct s; simpl; intros H; split; congruence. Qed.

Lemma orElse_Ok (v : option json) (fallback : Res json) (x : json) :
  orElse v fallback = Ok x ->
  (truthy v = true ∧ v = Some x) ∨ (truthy v = false ∧ fallback = Ok x).
Proof.
  unfold orElse. destruct v as [y |].
  - destruct (truthy (Some y)); intros H; [left | right]; split; congruence.
  - intros H. right. split; [reflexivity | exact H].
Qed.

Lemma synthesizedId_truthy (env : Env) (sourcePrefix city : string) (idx : nat) :
  truthy (Some (JStr (synthesizedId env sourcePrefix city idx))) = true.
Proof. unfold synthesizedId. destruct sourcePrefix; reflexivity. Qed.

(** What a record that normalises looks like. *)
Lemma normalizeRecord_Ok (env : Env) (sourcePrefix city : string) (idx : nat)
    (ev : json) (e : Event) :
  normalizeRecord env sourcePrefix city idx ev = Ok e ->
  ∃ (props : list (string * json)) (id imageUrl link : json),
    ev = JObj props
    ∧ e = setProp "link" link (setProp "imageUrl" imageUrl (setProp "id" id props))
    ∧ (if truthy (lookupProp "id" props) then lookupProp "id" props = Some id
       else id = JStr (synthesizedId env sourcePrefix city idx))
    ∧ truthy (Some id) = true
    ∧ truthy (Some imageUrl) = true
    ∧ truthy (Some link) = true.
Proof.
  destruct ev as [| b | n | s | items | props]; try discriminate.
  intros H. unfold normalizeRecord in H. cbn [getProp spread bindRes] in H.
  destruct (orElse (lookupProp "id" props) _) as [id | err] eqn:Hid; [| discriminate].
  cbn [bindRes] in H.
  destruct (orElse (lookupProp "imageUrl" props) _) as [img | err] eqn:Himg; [| discriminate].
  cbn [bindRes] in H.
  destruct (orElse (lookupProp "link" props) _) as [lnk | err] eqn:Hlnk; [| discriminate].
  cbn [bindRes] in H. injection H as <-.
  exists props, id, img, lnk. split; [reflexivity |]. split; [reflexivity |].
  apply orElse_Ok in Hid, Himg, Hlnk.
  split; [| split; [| split]].
  - destruct Hid as [[Ht Hv] | [Ht Hv]]; rewrite Ht; congruence.
  - destruct Hid as [[Ht Hv] | [Ht Hv]].
    + rewrite <- Hv. exact Ht.
    + injection Hv as <-. apply synthesizedId_truthy.
  - destruct Himg as [[Ht Hv] | [Ht Hv]].
    + rewrite <- Hv. exact Ht.
    + destruct (callReplace (lookupProp "title" props)) as [seed | err]; [| discriminate].
      cbn [bindRes] in Hv. injection Hv as <-. reflexivity.
  - destruct Hlnk as [[Ht Hv] | [Ht Hv]].
    + rewrite <- Hv. exact Ht.
    + destruct (concatOperand (lookupProp "title" props)) as [titleText | err];
        [| discriminate].
      cbn [bindRes] in Hv. injection Hv as <-. reflexivity.
Qed.

Lemma normalizeRecord_wellFormed (env : Env) (sourcePrefix city : string) (idx : nat)
    (ev : json) (e : Event) :
  normalizeRecord env sourcePrefix city idx ev = Ok e -> wellFormed e.
Proof.
  intros H. apply normalizeRecord_Ok in H
    as (props & id & img & lnk & _ & -> & _ & Hid & Himg & Hlnk).
  unfold wellFormed, nonEmptyField. split; [| split].
  - exists id. rewrite !lookup_setProp_ne by discriminate. rewrite lookup_setProp_eq.
    destruct (truthy_nonEmpty _ Hid). auto.
  - exists img. rewrite lookup_setProp_ne by discriminate. rewrite lookup_setProp_eq.
    destruct (truthy_nonEmpty _ Himg). auto.
  - exists lnk. rewrite lookup_setProp_eq.
    destruct (truthy_nonEmpty _ Hlnk). auto.
Qed.

Lemma normalizeRecord_id (env : Env) (sourcePrefix city : string) (idx : nat)
    (ev : json) (e : Event) :
  normalizeRecord env sourcePrefix city idx ev = Ok e ->
  lookupProp "id" e
  = if truthy (rawId ev) then rawId ev
    else Some (JStr (synthesizedId env sourcePrefix city idx)).
Proof.
  intros H. apply normalizeRecord_Ok in H
    as (props & id & img & lnk & -> & -> & Hcase & _).
  rewrite !lookup_setProp_ne by discriminate. rewrite lookup_setProp_eq.
  cbn [rawId]. destruct (truthy (lookupProp "id" props)); congruence.
Qed.

(** [map] keeps the length and the positions. *)
Lemma mapFrom_lookup (env : Env) (sourcePrefix city : string) (items : list json) :
  ∀ (start : nat) (events : list Event),
    mapFrom env sourcePrefix city start items = Ok events ->
    length events = length items
    ∧ ∀ (i : nat) (raw : json) (e : Event),
        items !! i = Some raw -> events !! i = Some e ->
        normalizeRecord env sourcePrefix city (start + i) raw = Ok e.
Proof.
  induction items as [| ev rest IH]; intros start events H; simpl in H.
  - injection H as <-. split; [reflexivity |]. intros i raw e Hraw. destruct i; discriminate.
  - destruct (normalizeRecord env sourcePrefix city start ev) as [e0 | err] eqn:E0;
      [| discriminate].
    cbn [bindRes] in H.
    destruct (mapFrom env sourcePrefix city (S start) rest) as [es | err] eqn:Es;
      [| discriminate].
    cbn [bindRes] in H. injection H as <-.
    destruct (IH (S start) es Es) as [Hlen Hpos].
    split; [simpl; congruence |].
    intros [| i] raw e Hraw He; simpl in Hraw, He.
    + injection Hraw as <-. injection He as <-. rewrite Nat.add_0_r. exact E0.
    + replace (start + S i) with (S start + i) by lia. eapply Hpos; eassumption.
Qed.

Lemma mapEvents_Ok (env : Env) (sourcePrefix city : string) (v : json)
    (events : list Event) :
  mapEvents env sourcePrefix city v = Ok events ->
  ∃ items : list json,
    v = JArr items
    ∧ length events = length items
    ∧ ∀ (i : nat) (raw : json) (e : Event),
        items !! i = Some raw -> events !! i = Some e ->
        normalizeRecord env sourcePrefix city i raw = Ok e.
Proof.
  destruct v as [| | | | items |]; try discriminate.
  intros H. exists items. split; [reflexivity |].
  apply (mapFrom_lookup env sourcePrefix city items 0 events H).
Qed.

Lemma mapEvents_wellFormed (env : Env) (sourcePrefix city : string) (v : json)
    (events : list Event) :
  mapEvents env sourcePrefix city v = Ok events -> Forall wellFormed events.
Proof.
  intros H. apply mapEvents_Ok in H as (items & _ & Hlen & Hpos).
  apply Forall_lookup. intros i e He.
  destruct (items !! i) as [raw |] eqn:Hraw.
  - eapply normalizeRecord_wellFormed, Hpos; eassumption.
  - apply lookup_ge_None in Hraw. apply lookup_lt_Some in He. lia.
Qed.

Lemma orElse_total (v : option json) (fallback : Res json) (y : json) :
  fallback = Ok y -> ∃ x, orElse v fallback = Ok x.
Proof.
  intros ->. unfold orElse. destruct v as [x |]; [destruct (truthy (Some x)) |]; eauto.
Qed.

Lemma normalizeRecord_repairable (env : Env) (sourcePrefix city : string) (idx : nat)
    (raw : json) :
  repairable raw -> ∃ e, normalizeRecord env sourcePrefix city idx raw = Ok e.
Proof.
  intros (props & -> & Himage & Hlink).
  unfold normalizeRecord. cbn [getProp spread bindRes].
  match goal with
  | |- context [orElse (lookupProp "id" props) ?fb] =>
      destruct (orElse_total (lookupProp "id" props) fb _ eq_refl) as [id ->]
  end.
  cbn [bindRes].
  match goal with
  | |- context [orElse (lookupProp "imageUrl" props) ?fb] =>
      assert (Himg : ∃ img, orElse (lookupProp "imageUrl" props) fb = Ok img)
  end.
  { destruct Himage as [Ht | [title Ht]].
    - unfold orElse. destruct (lookupProp "imageUrl" props) as [x |]; [| discriminate].
      rewrite Ht. eauto.
    - eapply orElse_total. rewrite Ht. reflexivity. }
  destruct Himg as [img ->]. cbn [bindRes].
  match goal with
  | |- context [orElse (lookupProp "link" props) ?fb] =>
      assert (Hlnk : ∃ lnk, orElse (lookupProp "link" props) fb = Ok lnk)
  end.
  { destruct Hlink as [Ht | [titleText Ht]].
    - unfold orElse. destruct (lookupProp "link" props) as [x |]; [| discriminate].
      rewrite Ht. eauto.
    - eapply orElse_total. unfold concatOperand. rewrite Ht. reflexivity. }
  destruct Hlnk as [lnk ->]. cbn [bindRes]. eauto.
Qed.


End NormalizeFacts.

(** ** Synthesized ids differ from index to index *)

Module SynthesizedIds.

Import Digits.







End SynthesizedIds.

(** ** What the two fetching functions return *)

Module FetchFacts.

Import Normalize NormalizeFacts Fetch.

Lemma mapEvents_idsRepaired (env : Env) (sourcePrefix city : string) (v : json)
    (events : list Event) :
  mapEvents env sourcePrefix city v = Ok events ->
  ∃ items, v = JArr items ∧ idsRepaired env sourcePrefix city items events.
Proof.
  intros H. apply mapEvents_Ok in H as (items & -> & Hlen & Hpos).
  exists items. split; [reflexivity |]. split; [exact Hlen |].
  intros i raw e Hraw He.
  apply (normalizeRecord_id env sourcePrefix city i raw e (Hpos i raw e Hraw He)).
Qed.

Lemma searchEvents_cases (env : Env) (city query : string) (w : World) :
  let req := SearchEvents city query in
  searchEvents env city query w =
  if apiKeyPresent env then
    match generateContent env req with
    | AIFails => (Ok (JArr []), logCall req w)
    | AIText text =>
        match mapEvents env "search" city (cleanAndParseJSON env text) with
        | Ok events => (Ok (eventsToJson events), logCall req w)
        | Throw _ => (Ok (JArr []), logCall req w)
        end
    end
  else (Ok (JArr []), w).
Proof.
  cbn zeta. unfold searchEvents, tryCatch, bind. rewrite getAIClient_run.
  destruct (apiKeyPresent env); [| reflexivity].
  unfold generate. destruct (generateContent env _) as [| text]; [reflexivity |].
  unfold liftRes.
  destruct (mapEvents env "search" city (cleanAndParseJSON env text)); reflexivity.
Qed.

Lemma searchEvents_normalizes (env : Env) (city query : string) (w : World) :
  ∃ (events : list Event) (w' : World),
    searchEvents env city query w = (Ok (eventsToJson events), w')
    ∧ Forall wellFormed events
    ∧ normalizes env "search" city (SearchEvents city query) events.
Proof.
  rewrite searchEvents_cases. cbn zeta.
  assert (Hnil : ∀ w', ∃ (events : list Event) (w'' : World),
            (Ok (JArr []), w') = (Ok (eventsToJson events), w'')
            ∧ Forall wellFormed events
            ∧ normalizes env "search" city (SearchEvents city query) events).
  { intros w'. exists [], w'. split; [reflexivity |]. split; [constructor | left; reflexivity]. }
  destruct (apiKeyPresent env); [| apply Hnil].
  destruct (generateContent env _) as [| text] eqn:Hgen; [apply Hnil |].
  destruct (mapEvents env "search" city (cleanAndParseJSON env text)) as [events | err] eqn:Hmap;
    [| apply Hnil].
  exists events, (logCall (SearchEvents city query) w).
  split; [reflexivity |]. split; [eapply mapEvents_wellFormed; eassumption |].
  right. apply mapEvents_idsRepaired in Hmap as (items & Hitems & Hrep).
  exists text, items. auto.
Qed.





End FetchFacts.



(** ** The mount effect of the dashboard *)

Module MountFacts.

Import Dashboard Mount.

Lemma handleUpdateCity_run (city : string) (w : World) :
  ∃ w', App.handleUpdateCity city w = (Ok tt, w') ∧ sameButProfile w w'.
Proof.
  unfold App.handleUpdateCity, sameButProfile.
  destruct (app_userProfile w) as [p |]; [destruct (String.eqb (currentCity p) city) |];
    eexists; (split; [reflexivity |]); repeat split.
Qed.

Lemma identifyCityFromCoords_cases (env : Env) (lat lng : number) (w : World) :
  identifyCityFromCoords env lat lng w =
  if apiKeyPresent env then
    match generateContent env (IdentifyCity lat lng) with
    | AIFails => (Ok "Unknown Location", logCall (IdentifyCity lat lng) w)
    | AIText text => (Ok (cityOfText text), logCall (IdentifyCity lat lng) w)
    end
  else (Ok "Unknown Location", w).
Proof.
  unfold identifyCityFromCoords, tryCatch, bind. rewrite getAIClient_run.
  destruct (apiKeyPresent env); [| reflexivity].
  unfold generate. destruct (generateContent env _) as [| text]; reflexivity.
Qed.

Lemma resolveCity_run (env : Env) (userProfile : UserProfile) (w : World) :
  ∃ (city : string) (w' : World),
    resolveCity env App.handleUpdateCity userProfile w = (Ok city, w')
    ∧ localStorage w' = localStorage w
    ∧ aiCalls w' = aiCalls w ++ geocodeCalls env userProfile
    ∧ dash_events w' = dash_events w ∧ dash_loading w' = dash_loading w
    ∧ dash_error w' = dash_error w
    ∧ city =
      if isEmpty (currentCity userProfile) then
        match geolocation env with
        | Some (GeoPosition lat lng) =>
            if apiKeyPresent env then
              match generateContent env (IdentifyCity lat lng) with
              | AIFails => "Unknown Location"
              | AIText text => cityOfText text
              end
            else "Unknown Location"
        | Some GeoRejected => "New York, USA"
        | None => "New York, USA"
        end
      else currentCity userProfile.
Proof.
  unfold resolveCity, geocodeCalls.
  destruct (isEmpty (currentCity userProfile)); cbn [negb].
  2:{ exists (currentCity userProfile), w. rewrite app_nil_r. repeat split. }
  destruct (geolocation env) as [[| lat lng] |].
  - unfold tryCatch, bind, getCurrentPosition, throw.
    destruct (handleUpdateCity_run "New York, USA" w) as (w' & -> & Hs & Hc & He & Hl & Hr).
    exists "New York, USA", w'. rewrite app_nil_r. repeat split; assumption.
  - unfold tryCatch, bind, getCurrentPosition, ret. cbn [fst snd].
    rewrite identifyCityFromCoords_cases.
    destruct (apiKeyPresent env).
    + destruct (generateContent env (IdentifyCity lat lng)) as [| text].
      * destruct (handleUpdateCity_run "Unknown Location" (logCall (IdentifyCity lat lng) w))
          as (w' & -> & Hs & Hc & He & Hl & Hr).
        exists "Unknown Location", w'. repeat split; assumption.
      * destruct (handleUpdateCity_run (cityOfText text) (logCall (IdentifyCity lat lng) w))
          as (w' & -> & Hs & Hc & He & Hl & Hr).
        exists (cityOfText text), w'. repeat split; assumption.
    + destruct (handleUpdateCity_run "Unknown Location" w) as (w' & -> & Hs & Hc & He & Hl & Hr).
      exists "Unknown Location", w'. rewrite app_nil_r. repeat split; assumption.
  - unfold bind.
    destruct (handleUpdateCity_run "New York, USA" w) as (w' & -> & Hs & Hc & He & Hl & Hr).
    exists "New York, USA", w'. rewrite app_nil_r. repeat split; assumption.
Qed.

(** A miss in which the collaborator fails. *)
Lemma missPath_on_failure (env : Env) (city : string) (p : UserProfile) (w : World) :
  apiKeyPresent env = false
  ∨ generateContent env (InitialRecommendations city p) = AIFails ->
  ∃ w', missPath env city p w = (Ok (JArr []), w')
        ∧ aiCalls w' = aiCalls w ++ (if apiKeyPresent env
                                     then [InitialRecommendations city p] else [])
        ∧ dash_events w' = dash_events w ∧ dash_loading w' = dash_loading w
        ∧ dash_error w' = dash_error w.
Proof.
  intros Hfail. unfold missPath, bind, evictStale. rewrite fetchFresh_cases. cbn zeta.
  destruct (apiKeyPresent env).
  - destruct Hfail as [Hfail | Hfail]; [discriminate |]. rewrite Hfail.
    eexists. split; [reflexivity |]. repeat split.
  - eexists. split; [reflexivity |]. cbn. rewrite app_nil_r. repeat split.
Qed.

End MountFacts.

(** ** At most one cache entry *)

Module CacheBound.

Lemma cacheFree_bound (m : gmap string string) :
  cacheFree m -> atMostOneCacheEntry m.
Proof.
  intros Hfree k1 k2 Hk1 _ [v Hv] _. rewrite (Hfree k1 Hk1) in Hv. discriminate.
Qed.

Lemma within_bound (key : string) (m : gmap string string) :
  cacheKeysWithin key m -> atMostOneCacheEntry m.
Proof.
  intros Hwithin k1 k2 Hk1 Hk2 H1 H2.
  rewrite (Hwithin k1 Hk1 H1), (Hwithin k2 Hk2 H2). reflexivity.
Qed.

(** A store with fewer entries, or with one more entry under a key that is
    no cache key, keeps the bound. *)
Lemma bound_subset (m m' : gmap string string) :
  (∀ k, isCacheKey k -> is_Some (m' !! k) -> is_Some (m !! k)) ->
  atMostOneCacheEntry m -> atMostOneCacheEntry m'.
Proof.
  intros Hsub Hm k1 k2 Hk1 Hk2 H1 H2. apply Hm; auto.
Qed.

Lemma bound_insert_other (k v : string) (m : gmap string string) :
  ¬ isCacheKey k -> atMostOneCacheEntry m -> atMostOneCacheEntry (<[k := v]> m).
Proof.
  intros Hk. apply bound_subset. intros k' Hk' Hsome.
  rewrite lookup_insert_ne in Hsome; [exact Hsome |]. intros <-. contradiction.
Qed.

Lemma bound_delete (k : string) (m : gmap string string) :
  atMostOneCacheEntry m -> atMostOneCacheEntry (delete k m).
Proof.
  apply bound_subset. intros k' _ [v Hv].
  apply lookup_delete_Some in Hv as [_ Hv]. eauto.
Qed.

Lemma bound_filter (P : string * string -> Prop) `{!∀ x, Decision (P x)}
    (m : gmap string string) :
  atMostOneCacheEntry m -> atMostOneCacheEntry (filter P m).
Proof.
  apply bound_subset. intros k' _ [v Hv].
  apply map_lookup_filter_Some in Hv as [Hv _]. eauto.
Qed.

(** The inductive step for a load. *)
Lemma load_keeps_bound (env : Env) (city : string) (p : UserProfile) (w : World) :
  atMostOneCacheEntry (localStorage w) ->
  cacheKeysWithin (generateCacheKey env city p)
                  (localStorage (snd (getInitialRecommendations env city p w))).
Proof.
  intros Hone.
  destruct (load_classification env city p w)
    as [(payload & v & Hget & _ & _ & Hrun) | [H | H]]; rewrite ?Hrun, ?H.
  - intros k Hk Hsome. cbn in Hsome.
    apply Hone; try assumption.
    + apply generateCacheKey_isCacheKey.
    + rewrite Hget. eauto.
  - apply missPath_within.
  - apply missPath_within.
Qed.

Lemma setItem_keeps_bound (env : Env) (k v : string) (w : World) :
  ¬ isCacheKey k ->
  atMostOneCacheEntry (localStorage w) ->
  atMostOneCacheEntry (localStorage (snd (setItem env k v w))).
Proof.
  intros Hk Hone. unfold setItem.
  destruct (storageAccepts env (localStorage w) k v); cbn; [| exact Hone].
  apply bound_insert_other; assumption.
Qed.

Lemma searchEvents_storage (env : Env) (city query : string) (w : World) :
  localStorage (snd (searchEvents env city query w)) = localStorage w.
Proof.
  rewrite FetchFacts.searchEvents_cases. cbn zeta.
  destruct (apiKeyPresent env); [| reflexivity].
  destruct (generateContent env _) as [| text]; [reflexivity |].
  destruct (mapEvents env "search" city _); reflexivity.
Qed.

(** The store that [init] leaves is the one its load leaves. *)
Lemma init_storage (env : Env) (p : UserProfile) (w : World) :
  ∃ (city : string) (w1 : World),
    localStorage w1 = localStorage w
    ∧ localStorage (snd (Dashboard.init env App.handleUpdateCity p w))
      = localStorage (snd (getInitialRecommendations env city p w1)).
Proof.
  destruct (MountFacts.resolveCity_run env p (snd (Dashboard.setLoading true w)))
    as (city & w1 & Hres & Hstore & _).
  exists city, w1. split; [exact Hstore |].
  unfold Dashboard.init, tryFinally, tryCatch, bind.
  cbn [Dashboard.setLoading snd] in Hres |- *. rewrite Hres.
  destruct (getInitialRecommendations env city p w1) as [[v | err] w2]; reflexivity.
Qed.

Lemma step_keeps_bound (w w' : World) :
  appStep w w' ->
  atMostOneCacheEntry (localStorage w) -> atMostOneCacheEntry (localStorage w').
Proof.
  intros Hstep Hone. destruct Hstep.
  - eapply within_bound, load_keeps_bound, Hone.
  - rewrite searchEvents_storage. exact Hone.
  - destruct (init_storage env p w) as (city & w1 & Hstore & ->).
    eapply within_bound, load_keeps_bound. rewrite Hstore. exact Hone.
  - destruct (MountFacts.handleUpdateCity_run city w) as (w' & -> & Hstore & _).
    cbn [snd]. rewrite Hstore. exact Hone.
  - unfold App.persistProfileEffect. destruct (app_userProfile w).
    + apply setItem_keeps_bound; [| exact Hone]. intros H. vm_compute in H. discriminate.
    + cbn. apply bound_delete, Hone.
  - unfold App.resetAndCommit, App.handleReset, bind. cbn.
    apply bound_delete, bound_filter, Hone.
  - apply setItem_keeps_bound; [| exact Hone]. intros H. vm_compute in H. discriminate.
  - apply setItem_keeps_bound; [| exact Hone]. intros H. vm_compute in H. discriminate.
Qed.

Lemma steps_keep_bound (w0 w : World) :
  rtc appStep w0 w ->
  atMostOneCacheEntry (localStorage w0) -> atMostOneCacheEntry (localStorage w).
Proof.
  induction 1 as [w0 | w0 w1 w2 Hstep _ IH]; intros Hone.
  - exact Hone.
  - apply IH. eapply step_keeps_bound; [exact Hstep | exact Hone].
Qed.

Lemma reachable_bound (w : World) :
  reachable w -> atMostOneCacheEntry (localStorage w).
Proof.
  intros (w0 & Hfree & Hsteps).
  eapply steps_keep_bound; [exact Hsteps |]. apply cacheFree_bound, Hfree.
Qed.

End CacheBound.

(** C5. On a miss the fetch-and-store steps run on the store from which
    every other cache key has been removed, and they leave at most today's
    key; a hit changes nothing. A load that starts with at most one cache
    entry therefore ends with no cache key other than today's, and so does
    every load in a world that the application reaches from a store without
    cache entries. *)
Theorem eviction_before_store (env : Env) (city : string) (p : UserProfile) (w : World) :
  let key := generateCacheKey env city p in
  (∀ w0 : World,
     missPath env city p w0 = fetchFresh env city p key (snd (evictStale key w0))
     ∧ cacheKeysWithin key (localStorage (snd (evictStale key w0)))
     ∧ (∀ k, localStorage w0 !! k = localStorage (snd (evictStale key w0)) !! k
             ∨ (isCacheKey k ∧ k ≠ key))
     ∧ cacheKeysWithin key (localStorage (snd (missPath env city p w0))))
  ∧ (getInitialRecommendations env city p w = missPath env city p w
     ∨ getInitialRecommendations env city p w
       = missPath env city p (withStorage (delete key) w)
     ∨ (∃ v, getInitialRecommendations env city p w = (Ok v, w)
             ∧ is_Some (localStorage w !! key)))
  ∧ (atMostOneCacheEntry (localStorage w) ->
     cacheKeysWithin key (localStorage (snd (getInitialRecommendations env city p w)))
     ∧ atMostOneCacheEntry (localStorage (snd (getInitialRecommendations env city p w))))
  ∧ (reachable w ->
     cacheKeysWithin key (localStorage (snd (getInitialRecommendations env city p w)))
     ∧ atMostOneCacheEntry (localStorage (snd (getInitialRecommendations env city p w)))).
Proof.
  cbn zeta.
  assert (Hstep : atMostOneCacheEntry (localStorage w) ->
     cacheKeysWithin (generateCacheKey env city p)
       (localStorage (snd (getInitialRecommendations env city p w)))
     ∧ atMostOneCacheEntry (localStorage (snd (getInitialRecommendations env city p w)))).
  { intros Hone. split.
    - apply CacheBound.load_keeps_bound, Hone.
    - eapply CacheBound.within_bound, CacheBound.load_keeps_bound, Hone. }
  split; [| split; [| split]].
  - intros w0. split; [reflexivity |]. split; [apply evictStale_within |].
    split; [| apply missPath_within].
    intros k. cbn.
    destruct (decide (isStale (generateCacheKey env city p) (k, EmptyString)))
      as [Hstale | Hkeep].
    + right. exact Hstale.
    + left. symmetry. apply lookup_filter_kept. intros v Hv. apply Hkeep. exact Hv.
  - destruct (load_classification env city p w) as [(payload & v & Hget & _ & _ & Hrun) | [H | H]].
    + right; right. exists v. split; [exact Hrun | rewrite Hget; eauto].
    + left. exact H.
    + right; left. exact H.
  - exact Hstep.
  - intros Hreach. apply Hstep, CacheBound.reachable_bound, Hreach.
Qed.

(** C7 (as the code has it). With no city in the profile, the load first
    resolves one and never throws doing so. Without geolocation, or when the
    position is refused, the city is "New York, USA" and the collaborator is
    not asked. With a position, the collaborator is asked once: a non-blank
    answer, trimmed, is the city; a missing API key, a failed request, an
    undefined or a blank answer give "Unknown Location". *)
Theorem resolveCity_fallbacks (env : Env) (userProfile : UserProfile) (w : World) :
  currentCity userProfile = EmptyString ->
  ∃ (city : string) (w' : World),
    Dashboard.resolveCity env App.handleUpdateCity userProfile w = (Ok city, w')
    ∧ localStorage w' = localStorage w
    ∧ (geolocation env = None -> city = "New York, USA" ∧ aiCalls w' = aiCalls w)
    ∧ (geolocation env = Some GeoRejected ->
       city = "New York, USA" ∧ aiCalls w' = aiCalls w)
    ∧ (∀ lat lng : number,
         geolocation env = Some (GeoPosition lat lng) ->
         (apiKeyPresent env = true -> aiCalls w' = aiCalls w ++ [IdentifyCity lat lng])
         ∧ (∀ t : string,
              apiKeyPresent env = true ->
              generateContent env (IdentifyCity lat lng) = AIText (Some t) ->
              trim t ≠ EmptyString ->
              city = trim t)
         ∧ (apiKeyPresent env = false
            ∨ generateContent env (IdentifyCity lat lng) = AIFails
            ∨ generateContent env (IdentifyCity lat lng) = AIText None
            ∨ (∃ t : string,
                 generateContent env (IdentifyCity lat lng) = AIText (Some t)
                 ∧ trim t = EmptyString) ->
            city = "Unknown Location")).
Proof.
  intros Hcity.
  destruct (MountFacts.resolveCity_run env userProfile w)
    as (city & w' & Hrun & Hstore & Hcalls & _ & _ & _ & Hc).
  unfold Mount.geocodeCalls in Hcalls. rewrite Hcity in Hc, Hcalls. cbn [isEmpty] in Hc, Hcalls.
  exists city, w'. split; [exact Hrun |]. split; [exact Hstore |].
  split; [| split].
  - intros Hgeo. rewrite Hgeo in Hc, Hcalls. rewrite app_nil_r in Hcalls. auto.
  - intros Hgeo. rewrite Hgeo in Hc, Hcalls. rewrite app_nil_r in Hcalls. auto.
  - intros lat lng Hgeo. rewrite Hgeo in Hc, Hcalls. split; [| split].
    + intros Hkey. rewrite Hkey in Hcalls. exact Hcalls.
    + intros t Hkey Hgen Htrim. rewrite Hkey, Hgen in Hc. cbn [Mount.cityOfText] in Hc.
      rewrite (isEmpty_false _ Htrim) in Hc. exact Hc.
    + intros [Hkey | [Hgen | [Hgen | (t & Hgen & Htrim)]]].
      * rewrite Hkey in Hc. exact Hc.
      * rewrite Hgen in Hc. destruct (apiKeyPresent env); exact Hc.
      * rewrite Hgen in Hc. destruct (apiKeyPresent env); exact Hc.
      * rewrite Hgen in Hc. cbn [Mount.cityOfText] in Hc. rewrite Htrim in Hc.
        destruct (apiKeyPresent env); exact Hc.
Qed.

Lemma load_on_miss (env : Env) (city : string) (p : UserProfile) (w : World) :
  isMiss env (generateCacheKey env city p) (localStorage w) ->
  ∃ w0 : World,
    getInitialRecommendations env city p w = missPath env city p w0
    ∧ aiCalls w0 = aiCalls w ∧ dash_events w0 = dash_events w
    ∧ dash_loading w0 = dash_loading w ∧ dash_error w0 = dash_error w.
Proof.
  unfold isMiss. intros Hmiss.
  destruct (localStorage w !! generateCacheKey env city p) as [payload |] eqn:Hget.
  - destruct (isEmpty payload) eqn:Hne.
    + exists w. split; [| repeat split].
      apply load_on_absent. right. rewrite Hget. f_equal. apply isEmpty_true, Hne.
    + destruct Hmiss as [-> | Hparse]; [discriminate |].
      eexists. split; [apply (load_on_corrupt env city p w payload Hget Hne Hparse) |].
      repeat split.
  - exists w. split; [| repeat split]. apply load_on_absent. left. exact Hget.
Qed.

(** C2 (as the code has it). When the daily load misses the cache and the
    collaborator fails (no API key, or the request is rejected),
    [getInitialRecommendations] absorbs the failure: the mount effect ends
    without throwing, not loading, with the empty list as events and with
    the error message left as it was; the request is issued once when there
    is an API key, and never otherwise. *)
Theorem failed_load_yields_empty_list
    (env : Env) (userProfile : UserProfile) (w w1 : World) (city : string) :
  Dashboard.resolveCity env App.handleUpdateCity userProfile
    (snd (Dashboard.setLoading true w)) = (Ok city, w1) ->
  isMiss env (generateCacheKey env city userProfile) (localStorage w) ->
  apiKeyPresent env = false
  ∨ generateContent env (InitialRecommendations city userProfile) = AIFails ->
  ∃ w' : World,
    Dashboard.init env App.handleUpdateCity userProfile w = (Ok tt, w')
    ∧ dash_events w' = JArr []
    ∧ dash_error w' = dash_error w
    ∧ dash_loading w' = false
    ∧ aiCalls w' = aiCalls w1 ++ (if apiKeyPresent env
                                  then [InitialRecommendations city userProfile]
                                  else []).
Proof.
  intros Hres Hmiss Hfail.
  destruct (MountFacts.resolveCity_run env userProfile (snd (Dashboard.setLoading true w)))
    as (city' & w1' & Hrun & Hstore & _ & _ & _ & Herr & _).
  rewrite Hres in Hrun. injection Hrun as <- <-.
  cbn [Dashboard.setLoading snd localStorage dash_error] in Hstore, Herr.
  rewrite <- Hstore in Hmiss.
  destruct (load_on_miss env city userProfile w1 Hmiss)
    as (w0 & Hload & Hcalls0 & _ & _ & Herr0).
  destruct (MountFacts.missPath_on_failure env city userProfile w0 Hfail)
    as (w2 & Hmisspath & Hcalls2 & _ & _ & Herr2).
  unfold Dashboard.init, tryFinally, tryCatch, bind.
  cbn [Dashboard.setLoading snd] in Hres |- *.
  rewrite Hres, Hload, Hmisspath.
  eexists. split; [reflexivity |].
  cbn [Dashboard.setEvents Dashboard.setLoading dash_events dash_error dash_loading aiCalls].
  repeat split; congruence.
Qed.

(** * Concrete runs *)

Import Example Runs.

(** The first load of the day fetches, repairs the second record and stores
    the list under today's key; the stale key goes. *)
Example first_load_of_the_day :
  getInitialRecommendations (envWith (answering twoRecords) None) "Miami, USA" jazzFan
    (worldWith {[staleKey := "[]"]} jazzFan)
  = (Ok normalizedTwo,
     mkWorld {[jazzKey := cachedTwo]} [InitialRecommendations "Miami, USA" jazzFan]
             (Some jazzFan) (JArr []) true None).
Proof. vm_compute. reflexivity. Qed.

(** Malformed text, an empty text and an undefined text give the empty
    list. *)
Example malformed_answers_give_no_events :
  fst (searchEvents (envWith (fun _ => AIText (Some "not json")) None) "Miami, USA" "Jazz"
         (worldWith ∅ jazzFan)) = Ok (JArr [])
  ∧ fst (searchEvents (envWith (fun _ => AIText (Some EmptyString)) None) "Miami, USA" "Jazz"
           (worldWith ∅ jazzFan)) = Ok (JArr [])
  ∧ fst (searchEvents (envWith (fun _ => AIText None) None) "Miami, USA" "Jazz"
           (worldWith ∅ jazzFan)) = Ok (JArr [])
  ∧ fst (searchEvents (envWith (answering "{'events':[]}") None) "Miami, USA" "Jazz"
           (worldWith ∅ jazzFan)) = Ok (JArr [])
  ∧ fst (searchEvents (envWith (answering "[{'id':'a1'}]") None) "Miami, USA" "Jazz"
           (worldWith ∅ jazzFan)) = Ok (JArr [])
  ∧ fst (searchEvents (envWith (answering twoRecords) None) "Miami, USA" "Jazz"
           (worldWith ∅ jazzFan))
    = Ok (JArr
            [JObj [("id", JStr "a1"); ("title", JStr "Jazz Night");
                   ("imageUrl", JStr "https://img/1.png"); ("link", JStr "https://tix/1")];
             JObj [("title", JStr "Blue Note"); ("id", JStr "search-Mia-1-1698400000001");
                   ("imageUrl", JStr "https://picsum.photos/seed/BlueNote1/800/600");
                   ("link",
                    JStr "https://www.google.com/search?q=Blue%20Note%20Miami%2C%20USA%20tickets")]]).
Proof. vm_compute. repeat split. Qed.

(** A title that cannot be converted to a string: without a link the
    record makes the callback throw and the search returns no events; with
    a link the title is never converted and the record is kept. *)
Example unconvertible_title_gives_no_events :
  fst (searchEvents
         (envWith (answering "[{'imageUrl':'u','title':{'toString':1}}]") None)
         "Miami, USA" "Jazz" (worldWith ∅ jazzFan)) = Ok (JArr [])
  ∧ fst (searchEvents
           (envWith (answering "[{'imageUrl':'u','link':'l','title':{'toString':1}}]") None)
           "Miami, USA" "Jazz" (worldWith ∅ jazzFan))
    = Ok (JArr
            [JObj [("imageUrl", JStr "u"); ("link", JStr "l");
                   ("title", JObj [("toString", JNum (Decimal 1 0))]);
                   ("id", JStr "search-Mia-0-1698400000000")]]).
Proof. vm_compute. split; reflexivity. Qed.

(** Witness of C4: another spelling of the city and another order of the
    interests, on the same day. *)
Lemma generateCacheKey_deterministic_witness :
  generateCacheKey (envWith failing None) "Miami, USA"
    (mkUserProfile "Ada" true ["Jazz"; "Brunch"] false [] EmptyString)
  = generateCacheKey (envWith (answering twoRecords) (Some GeoRejected)) "  MIAMI,usa "
      (mkUserProfile "Bo" true ["Brunch"; "Jazz"] true ["SZA"] "Miami, USA").
Proof.
  apply generateCacheKey_deterministic.
  - reflexivity.
  - reflexivity.
  - left. apply perm_swap.
Defined.

(** Witness of C9: a user-created event marked Not Recommended is kept, an
    event to consider is not. *)
Lemma topPicks_exact_witness :
  In userMade (Dashboard.topPicks (Dashboard.allEvents [userMade] [recommended; considered]))
  ∧ ¬ In considered
        (Dashboard.topPicks (Dashboard.allEvents [userMade] [recommended; considered])).
Proof.
  assert (Htyped : Forall TopPicks.flagTyped
                     (Dashboard.allEvents [userMade] [recommended; considered])).
  { unfold Dashboard.allEvents. cbn [app].
    constructor; [right; exists true; reflexivity |].
    constructor; [left; reflexivity |].
    constructor; [right; exists false; reflexivity |].
    constructor. }
  destruct (topPicks_exact [userMade] [recommended; considered])
    as (_ & _ & Hkeep & _ & _ & Hspec).
  destruct (Hspec Htyped) as [_ Hiff].
  split.
  - apply Hkeep; [left; reflexivity | reflexivity].
  - intros Hin. apply Hiff in Hin as [_ [H | H]]; discriminate H.
Defined.

(** Counterexample to C9: the answer to a search carries a record marked
    Not Recommended whose [isUserCreated] is the text false; normalisation
    passes the field on, and the record is a top pick although it is
    neither Highly Recommended nor user-created. *)
Lemma untyped_flag_is_promoted :
  fst (searchEvents (envWith (answering Scenes.flaggedAnswer) None) "Miami, USA" "Jazz"
         (worldWith ∅ jazzFan))
  = Ok (eventsToJson [Scenes.flagged])
  ∧ Dashboard.topPicks (Dashboard.allEvents [] [Scenes.flagged]) = [Scenes.flagged]
  ∧ lookupProp "recommendationLevel" Scenes.flagged = Some (JStr "Not Recommended")
  ∧ lookupProp "isUserCreated" Scenes.flagged = Some (JStr "false")
  ∧ TopPicks.keptBySpec Scenes.flagged = false
  ∧ ¬ TopPicks.levelIsHighlyRecommended Scenes.flagged
  ∧ ¬ TopPicks.isUserCreated Scenes.flagged.
Proof.
  split; [vm_compute; reflexivity |]. split; [reflexivity |].
  split; [reflexivity |]. split; [reflexivity |]. split; [reflexivity |].
  split; discriminate.
Qed.


(** Witness of C1: the second load of the day, with a collaborator that
    would fail, returns the list the first load stored and asks nothing. *)
Lemma cache_hit_returns_stored_witness :
  (getInitialRecommendations (envWith failing None) "Miami, USA" jazzFan
     (worldWith {[jazzKey := cachedTwo]} jazzFan)
   = (Ok normalizedTwo, worldWith {[jazzKey := cachedTwo]} jazzFan)
   ∧ aiCalls (snd (getInitialRecommendations (envWith failing None) "Miami, USA" jazzFan
                     (worldWith {[jazzKey := cachedTwo]} jazzFan))) = [])
  ∧ getInitialRecommendations (envWith failing None) "Miami, USA" jazzFan
      (mkWorld {[jazzKey := cachedTwo]} [InitialRecommendations "Miami, USA" jazzFan]
               (Some jazzFan) (JArr []) true None)
    = (Ok normalizedTwo,
       mkWorld {[jazzKey := cachedTwo]} [InitialRecommendations "Miami, USA" jazzFan]
               (Some jazzFan) (JArr []) true None).
Proof.
  split.
  - apply (proj1 (cache_hit_returns_stored (envWith failing None) "Miami, USA" jazzFan
                    (worldWith {[jazzKey := cachedTwo]} jazzFan)) cachedTwo normalizedTwo).
    + vm_compute. reflexivity.
    + discriminate.
    + vm_compute. reflexivity.
  - apply (proj2 (proj2 (cache_hit_returns_stored (envWith failing None) "Miami, USA" jazzFan
                           (mkWorld {[jazzKey := cachedTwo]}
                                    [InitialRecommendations "Miami, USA" jazzFan]
                                    (Some jazzFan) (JArr []) true None)))
             (envWith (answering twoRecords) None)
             (worldWith {[staleKey := "[]"]} jazzFan)
             [("id", JStr "a1"); ("title", JStr "Jazz Night");
              ("imageUrl", JStr "https://img/1.png"); ("link", JStr "https://tix/1")]
             [[("title", JStr "Blue Note"); ("id", JStr "evt-Mia-1-1698400000001");
               ("imageUrl", JStr "https://picsum.photos/seed/BlueNote1/800/600");
               ("link",
                JStr "https://www.google.com/search?q=Blue%20Note%20Miami%2C%20USA%20tickets")]]).
    + reflexivity.
    + vm_compute. reflexivity.
    + vm_compute. discriminate.
    + vm_compute. reflexivity.
Defined.

(** Witness of C5: a store that holds yesterday's entry only, and the world
    that the first load of a fresh browser leaves. *)
Lemma eviction_before_store_witness :
  cacheKeysWithin jazzKey
    (localStorage
       (snd (getInitialRecommendations (envWith (answering twoRecords) None) "Miami, USA"
               jazzFan (worldWith {[staleKey := "[]"]} jazzFan))))
  ∧ cacheKeysWithin jazzKey
      (localStorage
         (snd (getInitialRecommendations (envWith failing None) "Miami, USA" jazzFan
                 (snd (getInitialRecommendations (envWith (answering twoRecords) None)
                         "Miami, USA" jazzFan (worldWith ∅ jazzFan)))))).
Proof.
  split.
  - destruct (eviction_before_store (envWith (answering twoRecords) None) "Miami, USA" jazzFan
                (worldWith {[staleKey := "[]"]} jazzFan)) as (_ & _ & Hstep & _).
    apply Hstep.
    intros k1 k2 _ _ [v1 H1] [v2 H2]. cbn in H1, H2.
    apply lookup_singleton_Some in H1 as [<- _].
    apply lookup_singleton_Some in H2 as [<- _]. reflexivity.
  - destruct (eviction_before_store (envWith failing None) "Miami, USA" jazzFan
                (snd (getInitialRecommendations (envWith (answering twoRecords) None)
                        "Miami, USA" jazzFan (worldWith ∅ jazzFan))))
      as (_ & _ & _ & Hreach).
    apply Hreach.
    exists (worldWith ∅ jazzFan). split.
    + intros k _. apply lookup_empty.
    + apply rtc_once, step_load.
Defined.

(** Counterexample to C6: the stored payload parses but is no event list;
    it is returned as it is, the entry stays and nothing is fetched. *)
Lemma unvalidated_payload_is_returned :
  getInitialRecommendations (envWith (answering twoRecords) None) "Miami, USA" jazzFan
    (worldWith {[jazzKey := notEvents]} jazzFan)
  = (Ok (JObj [("oops", JNum (Decimal 1 0))]), worldWith {[jazzKey := notEvents]} jazzFan)
  ∧ EventShape.isEventList (JObj [("oops", JNum (Decimal 1 0))]) = false
  ∧ fst (missPath (envWith (answering twoRecords) None) "Miami, USA" jazzFan
           (worldWith {[jazzKey := notEvents]} jazzFan))
    = Ok normalizedTwo.
Proof. vm_compute. repeat split. Qed.

(** Witness of C6 as amended: an entry that does not parse is removed and
    the load goes on as a miss. *)
Lemma cache_read_degrades_witness :
  getInitialRecommendations (envWith (answering twoRecords) None) "Miami, USA" jazzFan
    (worldWith {[jazzKey := "[{"]} jazzFan)
  = missPath (envWith (answering twoRecords) None) "Miami, USA" jazzFan
      (withStorage (delete jazzKey) (worldWith {[jazzKey := "[{"]} jazzFan))
  ∧ localStorage (withStorage (delete jazzKey) (worldWith {[jazzKey := "[{"]} jazzFan))
    !! jazzKey = None.
Proof.
  apply (proj1 (proj2 (proj2 (cache_read_degrades (envWith (answering twoRecords) None)
                                "Miami, USA" jazzFan
                                (worldWith {[jazzKey := "[{"]} jazzFan)))) "[{").
  - vm_compute. reflexivity.
  - discriminate.
  - vm_compute. reflexivity.
Defined.



(** Witness of C10: after the reset the profile and the cache entry are
    gone, the user events and the saved ids are still there. *)
Lemma reset_clears_profile_and_cache_only_witness :
  ∃ w' : World,
    App.resetAndCommit (envWith failing None) (worldWith fullStore jazzFan) = (Ok tt, w')
    ∧ localStorage w' !! "citysense_user_profile" = None
    ∧ localStorage w' !! jazzKey = None
    ∧ localStorage w' !! "citysense_user_events" = Some "[]"
    ∧ localStorage w' !! "savedEvents" = Some "[1]".
Proof.
  destruct (reset_clears_profile_and_cache_only (envWith failing None)
              (worldWith fullStore jazzFan))
    as (w' & Hrun & _ & Hprofile & Hcache & _ & Hevents & Hsaved).
  exists w'. split; [exact Hrun |]. split; [exact Hprofile |].
  split; [apply Hcache; reflexivity |].
  split; [rewrite Hevents | rewrite Hsaved]; reflexivity.
Defined.

(** Counterexample to C2: the collaborator rejects the request, and the
    dashboard ends ready, with no events and no error message. *)
Lemma failed_load_sets_no_error :
  generateContent (envWith failing None) (InitialRecommendations "Miami, USA" jazzFan)
  = AIFails
  ∧ Dashboard.init (envWith failing None) App.handleUpdateCity jazzFan (worldWith ∅ jazzFan)
    = (Ok tt,
       mkWorld ∅ [InitialRecommendations "Miami, USA" jazzFan] (Some jazzFan)
               (JArr []) false None)
  ∧ Dashboard.phase
      (snd (Dashboard.init (envWith failing None) App.handleUpdateCity jazzFan
              (worldWith ∅ jazzFan)))
    = Dashboard.Ready.
Proof. vm_compute. repeat split. Qed.

(** Witness of C2 as amended. *)
Lemma failed_load_yields_empty_list_witness :
  ∃ w' : World,
    Dashboard.init (envWith failing None) App.handleUpdateCity jazzFan (worldWith ∅ jazzFan)
    = (Ok tt, w')
    ∧ dash_events w' = JArr []
    ∧ dash_error w' = None
    ∧ dash_loading w' = false
    ∧ aiCalls w' = [] ++ [InitialRecommendations "Miami, USA" jazzFan].
Proof.
  apply (failed_load_yields_empty_list (envWith failing None) jazzFan (worldWith ∅ jazzFan)
           (worldWith ∅ jazzFan) "Miami, USA").
  - reflexivity.
  - exact I.
  - right. reflexivity.
Defined.

(** Counterexample to C7: the position is known but the collaborator fails;
    the city is not the default one. *)
Lemma geocoding_failure_is_not_the_default_city :
  fst (Dashboard.resolveCity (envWith failing (Some (GeoPosition miami miamiLng)))
         App.handleUpdateCity newcomer (worldWith ∅ newcomer))
  = Ok "Unknown Location"
  ∧ "Unknown Location" ≠ "New York, USA".
Proof. split; [vm_compute; reflexivity | discriminate]. Qed.

(** Witness of C7 as amended. *)
Lemma resolveCity_fallbacks_witness :
  ∃ (city : string) (w' : World),
    Dashboard.resolveCity (envWith failing (Some GeoRejected)) App.handleUpdateCity newcomer
      (worldWith ∅ newcomer) = (Ok city, w')
    ∧ city = "New York, USA".
Proof.
  destruct (resolveCity_fallbacks (envWith failing (Some GeoRejected)) newcomer
              (worldWith ∅ newcomer) eq_refl)
    as (city & w' & Hrun & _ & _ & Hrejected & _).
  exists city, w'. split; [exact Hrun |]. apply Hrejected. reflexivity.
Defined.

(** * Further properties of the code *)

(** ** What the fetching functions leave alone *)

Module ServiceFacts.

Lemma fetchFresh_frame (env : Env) (city : string) (p : UserProfile) (key : string)
    (w : World) :
  sameReactState w (snd (fetchFresh env city p key w))
  ∧ (∀ k, k ≠ key ->
          localStorage (snd (fetchFresh env city p key w)) !! k = localStorage w !! k)
  ∧ (aiCalls (snd (fetchFresh env city p key w)) = aiCalls w
     ∨ aiCalls (snd (fetchFresh env city p key w))
       = aiCalls w ++ [InitialRecommendations city p]).
Proof.
  rewrite fetchFresh_cases. cbn zeta.
  assert (Hsame : ∀ r : Res json, sameReactState w (snd (r, logCall (InitialRecommendations city p) w)))
    by (intros r; repeat split).
  destruct (apiKeyPresent env);
    [| split; [repeat split | split; [reflexivity | left; reflexivity]]].
  destruct (generateContent env _) as [| text];
    [split; [apply Hsame | split; [reflexivity | right; reflexivity]] |].
  destruct (mapEvents env "evt" city _) as [[| e es] | err];
    try (split; [apply Hsame | split; [reflexivity | right; reflexivity]]).
  destruct (storageAccepts env _ _ _);
    [| split; [apply Hsame | split; [reflexivity | right; reflexivity]]].
  split; [repeat split |]. split; [| right; reflexivity].
  intros k Hk. cbn. apply lookup_insert_ne. congruence.
Qed.

Lemma evictStale_other_keys (key : string) (w : World) (k : string) :
  ¬ isCacheKey k ->
  localStorage (snd (evictStale key w)) !! k = localStorage w !! k.
Proof.
  intros Hk. cbn. apply lookup_filter_kept. intros v [Hpre _]. apply Hk, Hpre.
Qed.

Lemma missPath_frame (env : Env) (city : string) (p : UserProfile) (w : World) :
  sameReactState w (snd (missPath env city p w))
  ∧ (∀ k, ¬ isCacheKey k ->
          localStorage (snd (missPath env city p w)) !! k = localStorage w !! k)
  ∧ (aiCalls (snd (missPath env city p w)) = aiCalls w
     ∨ aiCalls (snd (missPath env city p w))
       = aiCalls w ++ [InitialRecommendations city p]).
Proof.
  unfold missPath, bind.
  set (w1 := snd (evictStale (generateCacheKey env city p) w)).
  change (evictStale (generateCacheKey env city p) w) with (Ok tt, w1).
  destruct (fetchFresh_frame env city p (generateCacheKey env city p) w1)
    as (Hstate & Hkeys & Hcalls).
  split; [exact Hstate |]. split; [| exact Hcalls].
  intros k Hk. rewrite Hkeys.
  - apply evictStale_other_keys, Hk.
  - intros ->. apply Hk, generateCacheKey_isCacheKey.
Qed.

End ServiceFacts.

Lemma daily_load_frame (env : Env) (city : string) (p : UserProfile) (w : World) :
  (∀ k, ¬ isCacheKey k ->
        localStorage (snd (getInitialRecommendations env city p w)) !! k
        = localStorage w !! k)
  ∧ sameReactState w (snd (getInitialRecommendations env city p w))
  ∧ (aiCalls (snd (getInitialRecommendations env city p w)) = aiCalls w
     ∨ aiCalls (snd (getInitialRecommendations env city p w))
       = aiCalls w ++ [InitialRecommendations city p]).
Proof.
  destruct (load_classification env city p w)
    as [(payload & v & _ & _ & _ & Hrun) | [Hrun | Hrun]]; rewrite Hrun.
  - split; [reflexivity |]. split; [repeat split | left; reflexivity].
  - destruct (ServiceFacts.missPath_frame env city p w) as (Hstate & Hkeys & Hcalls).
    split; [exact Hkeys |]. split; [exact Hstate | exact Hcalls].
  - destruct (ServiceFacts.missPath_frame env city p
                (withStorage (delete (generateCacheKey env city p)) w))
      as (Hstate & Hkeys & Hcalls).
    split; [| split; [exact Hstate | exact Hcalls]].
    intros k Hk. rewrite (Hkeys k Hk). cbn. apply lookup_delete_ne.
    intros <-. apply Hk, generateCacheKey_isCacheKey.
Qed.

Lemma search_frame (env : Env) (city query : string) (w : World) :
  localStorage (snd (searchEvents env city query w)) = localStorage w
  ∧ sameReactState w (snd (searchEvents env city query w))
  ∧ (aiCalls (snd (searchEvents env city query w)) = aiCalls w
     ∨ aiCalls (snd (searchEvents env city query w))
       = aiCalls w ++ [SearchEvents city query]).
Proof.
  pose proof (FetchFacts.searchEvents_cases env city query w) as H.
  cbn zeta in H. rewrite H.
  destruct (apiKeyPresent env);
    [| split; [reflexivity | split; [repeat split | left; reflexivity]]].
  destruct (generateContent env _) as [| text];
    [split; [reflexivity | split; [repeat split | right; reflexivity]] |].
  destruct (mapEvents env "search" city _);
    split; try reflexivity; (split; [repeat split | right; reflexivity]).
Qed.

(** X2. A search never touches the store or the React state and logs its
    one request at most, whatever the world; so a list cached for a day is
    still served, without a request, by the load that follows the search. *)
Theorem search_bypasses_the_cache (env : Env) (city query : string) (w : World) :
  localStorage (snd (searchEvents env city query w)) = localStorage w
  ∧ sameReactState w (snd (searchEvents env city query w))
  ∧ (aiCalls (snd (searchEvents env city query w)) = aiCalls w
     ∨ aiCalls (snd (searchEvents env city query w))
       = aiCalls w ++ [SearchEvents city query])
  ∧ (∀ (env' : Env) (city' : string) (p : UserProfile) (payload : string) (v : json),
       localStorage w !! generateCacheKey env' city' p = Some payload ->
       isEmpty payload = false ->
       JSON_parse env' payload = Some v ->
       getInitialRecommendations env' city' p (snd (searchEvents env city query w))
       = (Ok v, snd (searchEvents env city query w))).
Proof.
  destruct (search_frame env city query w) as (Hstore & Hstate & Hcalls).
  split; [exact Hstore |]. split; [exact Hstate |]. split; [exact Hcalls |].
  intros env' city' p payload v Hget Hne Hparse.
  apply load_on_hit with (payload := payload); try assumption.
  rewrite Hstore. exact Hget.
Qed.

(** X3. Without an API key no request reaches the AI collaborator: a
    search gives the empty list, the reverse geocoding gives the placeholder
    city, the chat gives its apology, all three without touching the world,
    and a daily load that misses the cache gives the empty list. *)
Theorem without_api_key_nothing_is_requested
    (env : Env) (chat : Chat.Collaborator) (w : World) :
  apiKeyPresent env = false ->
  (∀ city query : string, searchEvents env city query w = (Ok (JArr []), w))
  ∧ (∀ lat lng : number,
       identifyCityFromCoords env lat lng w = (Ok "Unknown Location", w))
  ∧ (∀ (history : list Chat.Turn) (message : string) (p : UserProfile),
       Chat.chatWithCitySense env chat history message p w
       = (Ok (Chat.mkResponse Chat.APOLOGY None), w))
  ∧ (∀ (city : string) (p : UserProfile),
       aiCalls (snd (getInitialRecommendations env city p w)) = aiCalls w
       ∧ (isMiss env (generateCacheKey env city p) (localStorage w) ->
          fst (getInitialRecommendations env city p w) = Ok (JArr []))).
Proof.
  intros Hkey. repeat split.
  - intros city query.
    pose proof (FetchFacts.searchEvents_cases env city query w) as H.
    cbn zeta in H. rewrite Hkey in H. exact H.
  - intros lat lng. rewrite MountFacts.identifyCityFromCoords_cases, Hkey. reflexivity.
  - intros history message p.
    unfold Chat.chatWithCitySense, tryCatch, bind.
    rewrite getAIClient_run, Hkey. reflexivity.
  - destruct (load_classification env city p w)
      as [(payload & v & _ & _ & _ & Hrun) | [Hrun | Hrun]]; rewrite Hrun;
      [reflexivity | |].
    + destruct (MountFacts.missPath_on_failure env city p w (or_introl Hkey))
        as (w' & Hw' & Hcalls & _).
      rewrite Hw'. cbn [snd]. rewrite Hcalls, Hkey. cbn. apply app_nil_r.
    + destruct (MountFacts.missPath_on_failure env city p
                  (withStorage (delete (generateCacheKey env city p)) w) (or_introl Hkey))
        as (w' & Hw' & Hcalls & _).
      rewrite Hw'. cbn [snd]. rewrite Hcalls, Hkey. cbn. apply app_nil_r.
  - intros Hmiss. destruct (load_on_miss env city p w Hmiss) as (w0 & Hrun & _).
    destruct (MountFacts.missPath_on_failure env city p w0 (or_introl Hkey))
      as (w' & Hw' & _).
    rewrite Hrun, Hw'. reflexivity.
Qed.

Module StoreFacts.

(** A miss path that returns the empty list has written nothing. *)
Lemma missPath_empty (env : Env) (city : string) (p : UserProfile) (w : World) :
  fst (missPath env city p w) = Ok (JArr []) ->
  localStorage (snd (missPath env city p w))
  = localStorage (snd (evictStale (generateCacheKey env city p) w)).
Proof.
  unfold missPath, bind.
  set (w1 := snd (evictStale (generateCacheKey env city p) w)).
  change (evictStale (generateCacheKey env city p) w) with (Ok tt, w1).
  cbn iota beta. rewrite fetchFresh_cases. cbn zeta.
  destruct (apiKeyPresent env); [| reflexivity].
  destruct (generateContent env _) as [| text]; [reflexivity |].
  destruct (mapEvents env "evt" city _) as [[| e es] | err]; try reflexivity.
  destruct (storageAccepts env _ _ _); [| reflexivity].
  cbn. discriminate.
Qed.

Lemma evictStale_today (key : string) (w : World) :
  localStorage (snd (evictStale key w)) !! key = localStorage w !! key.
Proof.
  cbn. apply lookup_filter_kept. intros v [_ Hne]. apply Hne. reflexivity.
Qed.

Lemma evictStale_other (key k : string) (w : World) :
  isCacheKey k -> k ≠ key -> localStorage (snd (evictStale key w)) !! k = None.
Proof.
  intros Hk Hne. cbn. apply lookup_filter_dropped. intros v Hkeep. apply Hkeep.
  split; [exact Hk | exact Hne].
Qed.

End StoreFacts.

(** X1. A daily load writes today's key and nothing else: every key of
    the store outside the cache keeps its value, every other key but today's
    keeps its value or is removed, the React state is not touched, and the
    log of requests grows by the one recommendation request at most. *)
Theorem daily_load_touches_cache_keys_only
    (env : Env) (city : string) (p : UserProfile) (w : World) :
  (∀ k, ¬ isCacheKey k ->
        localStorage (snd (getInitialRecommendations env city p w)) !! k
        = localStorage w !! k)
  ∧ (∀ k, k ≠ generateCacheKey env city p ->
          localStorage (snd (getInitialRecommendations env city p w)) !! k
          = localStorage w !! k
          ∨ localStorage (snd (getInitialRecommendations env city p w)) !! k = None)
  ∧ sameReactState w (snd (getInitialRecommendations env city p w))
  ∧ (aiCalls (snd (getInitialRecommendations env city p w)) = aiCalls w
     ∨ aiCalls (snd (getInitialRecommendations env city p w))
       = aiCalls w ++ [InitialRecommendations city p]).
Proof.
  destruct (daily_load_frame env city p w) as (Hkeys & Hstate & Hcalls).
  split; [exact Hkeys |]. split; [| split; [exact Hstate | exact Hcalls]].
  intros k Hk.
  destruct (startsWith CACHE_KEY_PREFIX k) eqn:Hcache.
  2:{ left. apply Hkeys. unfold isCacheKey. congruence. }
  assert (Hmiss : ∀ w0 : World,
             localStorage (snd (missPath env city p w0)) !! k = None).
  { intros w0. unfold missPath, bind.
    set (w1 := snd (evictStale (generateCacheKey env city p) w0)).
    change (evictStale (generateCacheKey env city p) w0) with (Ok tt, w1).
    destruct (ServiceFacts.fetchFresh_frame env city p (generateCacheKey env city p) w1)
      as (_ & Hframe & _).
    rewrite (Hframe k Hk). apply StoreFacts.evictStale_other; assumption. }
  destruct (load_classification env city p w)
    as [(payload & v & _ & _ & _ & Hrun) | [Hrun | Hrun]]; rewrite Hrun.
  - left. reflexivity.
  - right. apply Hmiss.
  - right. apply Hmiss.
Qed.

(** X4. An empty result is never cached: when a daily load misses the cache
    and returns the empty list, the next load of the day misses it too. *)
Theorem empty_result_is_not_cached
    (env : Env) (city : string) (p : UserProfile) (w : World) :
  isMiss env (generateCacheKey env city p) (localStorage w) ->
  fst (getInitialRecommendations env city p w) = Ok (JArr []) ->
  isMiss env (generateCacheKey env city p)
         (localStorage (snd (getInitialRecommendations env city p w))).
Proof.
  intros Hmiss. unfold isMiss in *.
  destruct (localStorage w !! generateCacheKey env city p) as [payload |] eqn:Hget.
  - destruct (isEmpty payload) eqn:Hne.
    + apply isEmpty_true in Hne. subst payload.
      rewrite (load_on_absent env city p w (or_intror Hget)). intros Hempty.
      rewrite (StoreFacts.missPath_empty _ _ _ _ Hempty), StoreFacts.evictStale_today, Hget.
      left; reflexivity.
    + destruct Hmiss as [-> | Hparse]; [discriminate |].
      rewrite (load_on_corrupt env city p w payload Hget Hne Hparse). intros Hempty.
      rewrite (StoreFacts.missPath_empty _ _ _ _ Hempty), StoreFacts.evictStale_today.
      cbn. rewrite lookup_delete_eq. exact I.
  - rewrite (load_on_absent env city p w (or_introl Hget)). intros Hempty.
    rewrite (StoreFacts.missPath_empty _ _ _ _ Hempty), StoreFacts.evictStale_today, Hget.
    exact I.
Qed.

(** X5. When the store refuses the write, the events that were fetched are
    thrown away with it: a daily load that misses the cache returns the
    empty list, although the request was made. *)
Theorem refused_write_discards_the_events
    (env : Env) (city : string) (p : UserProfile) (w : World) :
  (∀ (m : gmap string string) (k v : string), storageAccepts env m k v = false) ->
  isMiss env (generateCacheKey env city p) (localStorage w) ->
  fst (getInitialRecommendations env city p w) = Ok (JArr [])
  ∧ (apiKeyPresent env = true ->
     aiCalls (snd (getInitialRecommendations env city p w))
     = aiCalls w ++ [InitialRecommendations city p]).
Proof.
  intros Hfull Hmiss.
  destruct (load_on_miss env city p w Hmiss) as (w0 & Hrun & Hcalls & _).
  rewrite Hrun. unfold missPath, bind.
  set (w1 := snd (evictStale (generateCacheKey env city p) w0)).
  change (evictStale (generateCacheKey env city p) w0) with (Ok tt, w1).
  cbn iota beta. rewrite fetchFresh_cases. cbn zeta.
  assert (Hw1 : aiCalls w1 = aiCalls w) by (subst w1; cbn; exact Hcalls).
  clearbody w1.
  destruct (apiKeyPresent env); [| split; [reflexivity | discriminate]].
  destruct (generateContent env _) as [| text];
    [split; [reflexivity | intros _; cbn; rewrite Hw1; reflexivity] |].
  destruct (mapEvents env "evt" city _) as [[| e es] | err];
    try (split; [reflexivity | intros _; cbn; rewrite Hw1; reflexivity]).
  rewrite Hfull. split; [reflexivity | intros _; cbn; rewrite Hw1; reflexivity].
Qed.

(** ** Normalisation, record by record *)

Module RepairFacts.

Import Normalize Repair.

Lemma repairable_canRepair (raw : json) : repairable raw -> canRepair raw = true.
Proof.
  intros (props & -> & [H | (t & H)] & _); cbn; rewrite H; [reflexivity |].
  apply orb_true_r.
Qed.

Lemma normalizeRecord_needs_repairable (env : Env) (sourcePrefix city : string)
    (idx : nat) (raw : json) (e : Event) :
  normalizeRecord env sourcePrefix city idx raw = Ok e -> canRepair raw = true.
Proof.
  intros H.
  destruct (NormalizeFacts.normalizeRecord_Ok _ _ _ _ _ _ H)
    as (props & id & imageUrl & link & -> & _).
  cbn. destruct (truthy (lookupProp "imageUrl" props)) eqn:Himg; [reflexivity |].
  cbn. revert H. unfold normalizeRecord. cbn [getProp bindRes spread].
  destruct (orElse (lookupProp "id" props) _) as [i |]; [| discriminate].
  cbn [bindRes].
  assert (Hor : ∀ fallback : Res json,
             orElse (lookupProp "imageUrl" props) fallback = fallback).
  { intros fallback. unfold orElse.
    destruct (lookupProp "imageUrl" props); [| reflexivity].
    rewrite Himg. reflexivity. }
  rewrite Hor.
  destruct (lookupProp "title" props) as [[| | |t| |] |]; cbn; try discriminate.
  reflexivity.
Qed.

(** The callback succeeds on the repairable records and on no other. *)
Lemma normalizeRecord_succeeds_iff (env : Env) (sourcePrefix city : string)
    (idx : nat) (raw : json) :
  (∃ e : Event, normalizeRecord env sourcePrefix city idx raw = Ok e) <-> repairable raw.
Proof.
  split; [| apply NormalizeFacts.normalizeRecord_repairable].
  intros (e & H).
  pose proof (normalizeRecord_needs_repairable _ _ _ _ _ _ H) as Hcan.
  destruct (NormalizeFacts.normalizeRecord_Ok _ _ _ _ _ _ H)
    as (props & id & imageUrl & link & -> & _).
  exists props. split; [reflexivity |]. split.
  - cbn in Hcan. apply orb_true_iff in Hcan as [Hc | Hc]; [left; exact Hc | right].
    destruct (lookupProp "title" props) as [[| | |t| |] |]; try discriminate.
    exists t. reflexivity.
  - destruct (truthy (lookupProp "link" props)) eqn:Hlink; [left; reflexivity | right].
    revert H. unfold normalizeRecord. cbn [getProp bindRes spread].
    destruct (orElse (lookupProp "id" props) _) as [i |]; [| discriminate].
    cbn [bindRes].
    destruct (orElse (lookupProp "imageUrl" props) _) as [img |]; [| discriminate].
    cbn [bindRes].
    assert (Hor : ∀ fallback : Res json,
               orElse (lookupProp "link" props) fallback = fallback).
    { intros fallback. unfold orElse.
      destruct (lookupProp "link" props); [| reflexivity].
      rewrite Hlink. reflexivity. }
    rewrite Hor. unfold concatOperand.
    destruct (toStringOpt (lookupProp "title" props)) as [t |]; [eexists; reflexivity |].
    discriminate.
Qed.

Lemma mapFrom_needs_repairable (env : Env) (sourcePrefix city : string)
    (items : list json) :
  ∀ (start : nat) (events : list Event),
    mapFrom env sourcePrefix city start items = Ok events ->
    forallb canRepair items = true.
Proof.
  induction items as [| raw items IH]; intros start events H; [reflexivity |].
  cbn in H |- *.
  destruct (normalizeRecord env sourcePrefix city start raw) as [e |] eqn:He;
    [| discriminate].
  cbn in H.
  destruct (mapFrom env sourcePrefix city (S start) items) as [es |] eqn:Hes;
    [| discriminate].
  rewrite (normalizeRecord_needs_repairable _ _ _ _ _ _ He).
  rewrite (IH _ _ Hes). reflexivity.
Qed.

Lemma mapEvents_needs_repairable (env : Env) (sourcePrefix city : string)
    (items : list json) (events : list Event) :
  mapEvents env sourcePrefix city (JArr items) = Ok events ->
  forallb canRepair items = true ∧ length events = length items.
Proof.
  intros H. split.
  - exact (mapFrom_needs_repairable _ _ _ _ _ _ H).
  - destruct (NormalizeFacts.mapEvents_Ok _ _ _ _ _ H) as (items' & Heq & Hlen & _).
    injection Heq as <-. exact Hlen.
Qed.

Lemma setProp_same (k : string) (v : json) (props : list (string * json)) :
  lookupProp k props = Some v -> setProp k v props = props.
Proof.
  induction props as [| [k' v'] r IH]; [discriminate |].
  cbn. destruct (String.eqb k k') eqn:Hk.
  - intros [= ->]. apply String.eqb_eq in Hk as ->. reflexivity.
  - intros H. rewrite (IH H). reflexivity.
Qed.

Lemma orElse_truthy (v : json) (fallback : Res json) :
  truthy (Some v) = true -> orElse (Some v) fallback = Ok v.
Proof. intros H. unfold orElse. rewrite H. reflexivity. Qed.

Lemma wellFormed_fixed (env : Env) (sourcePrefix city : string) (idx : nat) (e : Event) :
  wellFormed e -> normalizeRecord env sourcePrefix city idx (JObj e) = Ok e.
Proof.
  intros ((id & Hid & _ & _ & Tid) & (img & Himg & _ & _ & Timg)
          & (link & Hlink & _ & _ & Tlink)).
  unfold normalizeRecord. cbn [getProp bindRes spread].
  rewrite Hid, (orElse_truthy id _ Tid). cbn [bindRes].
  rewrite Himg, (orElse_truthy img _ Timg). cbn [bindRes].
  rewrite Hlink, (orElse_truthy link _ Tlink). cbn [bindRes].
  rewrite (setProp_same "id" id e Hid), (setProp_same "imageUrl" img e Himg),
    (setProp_same "link" link e Hlink).
  reflexivity.
Qed.

Lemma wellFormed_list_fixed (env : Env) (sourcePrefix city : string) (events : list Event) :
  Forall wellFormed events ->
  ∀ start : nat, mapFrom env sourcePrefix city start (map JObj events) = Ok events.
Proof.
  induction 1 as [| e es He Hes IH]; intros start; [reflexivity |].
  cbn [map mapFrom]. rewrite (wellFormed_fixed _ _ _ _ _ He). cbn [bindRes].
  rewrite IH. reflexivity.
Qed.

End RepairFacts.

(** X6. One bad record discards the batch: when a record of the answer is
    not an object with a truthy image URL or a string title, the mapping of
    the array throws, so a search returns the empty list and a fetch returns
    the empty list and stores nothing, the request being spent. *)
Theorem one_bad_record_discards_the_batch
    (env : Env) (city : string) (text : option string) (items : list json) :
  apiKeyPresent env = true ->
  cleanAndParseJSON env text = JArr items ->
  forallb Repair.canRepair items = false ->
  (∀ sourcePrefix : string,
     ∃ err : Error, mapEvents env sourcePrefix city (JArr items) = Throw err)
  ∧ (∀ (query : string) (w : World),
       generateContent env (SearchEvents city query) = AIText text ->
       searchEvents env city query w
       = (Ok (JArr []), logCall (SearchEvents city query) w))
  ∧ (∀ (p : UserProfile) (key : string) (w : World),
       generateContent env (InitialRecommendations city p) = AIText text ->
       fetchFresh env city p key w
       = (Ok (JArr []), logCall (InitialRecommendations city p) w)).
Proof.
  intros Hkey Hparse Hbad.
  assert (Hthrow : ∀ sourcePrefix,
             ∃ err, mapEvents env sourcePrefix city (JArr items) = Throw err).
  { intros sourcePrefix.
    destruct (mapEvents env sourcePrefix city (JArr items)) as [events | err] eqn:Hmap.
    - destruct (RepairFacts.mapEvents_needs_repairable _ _ _ _ _ Hmap) as [H _].
      congruence.
    - exists err. reflexivity. }
  split; [exact Hthrow |]. split.
  - intros query w Hai.
    pose proof (FetchFacts.searchEvents_cases env city query w) as H. cbn zeta in H.
    rewrite H, Hkey, Hai, Hparse.
    destruct (Hthrow "search") as (err & ->). reflexivity.
  - intros p key w Hai.
    rewrite fetchFresh_cases. cbn zeta. rewrite Hkey, Hai, Hparse.
    destruct (Hthrow "evt") as (err & ->). reflexivity.
Qed.

(** X7. Normalisation only fills gaps: every field other than the id, the
    image URL and the link is passed through, and no field that holds a
    truthy value is overwritten. *)
Theorem normalization_only_fills_gaps
    (env : Env) (sourcePrefix city : string) (idx : nat)
    (props : list (string * json)) (e : Event) :
  normalizeRecord env sourcePrefix city idx (JObj props) = Ok e ->
  (∀ k : string, k ≠ "id" -> k ≠ "imageUrl" -> k ≠ "link" ->
                 lookupProp k e = lookupProp k props)
  ∧ (∀ k : string, truthy (lookupProp k props) = true ->
                   lookupProp k e = lookupProp k props)
  ∧ (∀ k : string, is_Some (lookupProp k props) -> is_Some (lookupProp k e)).
Proof.
  intros H.
  assert (Hother : ∀ k : string, k ≠ "id" -> k ≠ "imageUrl" -> k ≠ "link" ->
                                 lookupProp k e = lookupProp k props).
  { intros k H1 H2 H3.
    destruct (NormalizeFacts.normalizeRecord_Ok _ _ _ _ _ _ H)
      as (props' & id & imageUrl & link & [= <-] & -> & _).
    rewrite !NormalizeFacts.lookup_setProp_ne by assumption. reflexivity. }
  assert (Hkept : ∀ k : string, truthy (lookupProp k props) = true ->
                                lookupProp k e = lookupProp k props).
  { intros k Hk.
    destruct (String.eqb_spec k "id") as [-> | Hid];
      [| destruct (String.eqb_spec k "imageUrl") as [-> | Himg];
         [| destruct (String.eqb_spec k "link") as [-> | Hlink];
            [| apply Hother; assumption]]].
    - rewrite (NormalizeFacts.normalizeRecord_id _ _ _ _ _ _ H).
      unfold Normalize.rawId. rewrite Hk. reflexivity.
    - revert H. unfold normalizeRecord. cbn [getProp bindRes spread].
      destruct (orElse (lookupProp "id" props) _) as [i |]; [| discriminate].
      cbn [bindRes].
      destruct (lookupProp "imageUrl" props) as [img |] eqn:Himg; [| discriminate].
      rewrite (RepairFacts.orElse_truthy img _ Hk). cbn [bindRes].
      destruct (orElse (lookupProp "link" props) _) as [l |]; [| discriminate].
      cbn [bindRes]. intros [= <-].
      rewrite NormalizeFacts.lookup_setProp_ne by discriminate.
      apply NormalizeFacts.lookup_setProp_eq.
    - revert H. unfold normalizeRecord. cbn [getProp bindRes spread].
      destruct (orElse (lookupProp "id" props) _) as [i |]; [| discriminate].
      cbn [bindRes].
      destruct (orElse (lookupProp "imageUrl" props) _) as [img |]; [| discriminate].
      cbn [bindRes].
      destruct (lookupProp "link" props) as [l |] eqn:Hl; [| discriminate].
      rewrite (RepairFacts.orElse_truthy l _ Hk). cbn [bindRes]. intros [= <-].
      apply NormalizeFacts.lookup_setProp_eq. }
  split; [exact Hother |]. split; [exact Hkept |].
  intros k Hsome.
  destruct (String.eqb_spec k "id") as [-> | Hid];
    [| destruct (String.eqb_spec k "imageUrl") as [-> | Himg];
       [| destruct (String.eqb_spec k "link") as [-> | Hlink];
          [| rewrite Hother by assumption; exact Hsome]]];
    destruct (NormalizeFacts.normalizeRecord_Ok _ _ _ _ _ _ H)
      as (props' & id & imageUrl & link & [= <-] & -> & _).
  - rewrite !NormalizeFacts.lookup_setProp_ne by discriminate.
    rewrite NormalizeFacts.lookup_setProp_eq. eexists; reflexivity.
  - rewrite NormalizeFacts.lookup_setProp_ne by discriminate.
    rewrite NormalizeFacts.lookup_setProp_eq. eexists; reflexivity.
  - rewrite NormalizeFacts.lookup_setProp_eq. eexists; reflexivity.
Qed.

(** X8. Normalisation is idempotent: a list that came out of the mapping
    goes through it unchanged, whatever the source prefix, the city and the
    clock of the second pass. *)
Theorem normalization_is_idempotent
    (env env' : Env) (sourcePrefix sourcePrefix' city city' : string)
    (v : json) (events : list Event) :
  mapEvents env sourcePrefix city v = Ok events ->
  mapEvents env' sourcePrefix' city' (eventsToJson events) = Ok events.
Proof.
  intros H. apply NormalizeFacts.mapEvents_wellFormed in H.
  unfold eventsToJson, mapEvents. apply RepairFacts.wellFormed_list_fixed, H.
Qed.

(** ** Trimming and slicing *)

Module TrimFacts.

Lemma trimEnd_idempotent (s : string) : trimEnd (trimEnd s) = trimEnd s.
Proof.
  induction s as [| c r IH]; [reflexivity |].
  cbn [trimEnd].
  destruct (isWhiteSpace c && isEmpty (trimEnd r)) eqn:Hc; [reflexivity |].
  cbn [trimEnd]. rewrite IH, Hc. reflexivity.
Qed.

Lemma trimStart_head (s : string) :
  trimStart s = EmptyString
  ∨ ∃ c r, trimStart s = String c r ∧ isWhiteSpace c = false.
Proof.
  induction s as [| c r IH]; [left; reflexivity |].
  cbn [trimStart]. destruct (isWhiteSpace c) eqn:Hc; [exact IH |].
  right. exists c, r. split; [reflexivity | exact Hc].
Qed.

Lemma trim_head (c : ascii) (r : string) :
  isWhiteSpace c = false -> trim (String c r) = String c (trimEnd r).
Proof.
  intros Hc. unfold trim. cbn [trimStart]. rewrite Hc. cbn [trimEnd].
  rewrite Hc. reflexivity.
Qed.

Lemma trim_idempotent (s : string) : trim (trim s) = trim s.
Proof.
  unfold trim at 2 3.
  destruct (trimStart_head s) as [-> | (c & r & -> & Hc)]; [reflexivity |].
  cbn [trimEnd]. rewrite Hc. cbn [andb].
  rewrite (trim_head c _ Hc). f_equal. apply trimEnd_idempotent.
Qed.

Lemma trim_empty_text (s : string) : trim s ≠ EmptyString -> isEmpty s = false.
Proof. destruct s; [intros H; exfalso; apply H; reflexivity | reflexivity]. Qed.

Lemma substring_whole (s : string) : substring 0 (String.length s) s = s.
Proof. induction s as [| c r IH]; [reflexivity |]. cbn. rewrite IH. reflexivity. Qed.

Lemma substring_front (s t : string) :
  substring 0 (String.length s) (s +:+ t) = s.
Proof.
  induction s as [| c r IH]; [destruct t; reflexivity |].
  simpl. rewrite IH. reflexivity.
Qed.

Lemma length_append (s t : string) :
  String.length (s +:+ t) = String.length s + String.length t.
Proof. induction s as [| c r IH]; [reflexivity |]. simpl. rewrite IH. reflexivity. Qed.

Lemma rev_app_append (s t acc : string) :
  String.rev_app (s +:+ t) acc = String.rev_app t (String.rev_app s acc).
Proof.
  revert acc. induction s as [| c r IH]; intros acc; [reflexivity |].
  simpl. apply IH.
Qed.

Lemma sliceDropLast_back (s t : string) :
  sliceDropLast (String.length t) (s +:+ t) = s.
Proof.
  unfold sliceDropLast. rewrite length_append.
  replace (String.length s + String.length t - String.length t) with (String.length s)
    by lia.
  apply substring_front.
Qed.

Lemma sliceFrom_front (s t : string) :
  sliceFrom (String.length s) (s +:+ t) = t.
Proof.
  unfold sliceFrom. rewrite length_append.
  replace (String.length s + String.length t - String.length s) with (String.length t)
    by lia.
  induction s as [| c r IH]; [apply substring_whole | exact IH].
Qed.

Lemma startsWith_front (s t : string) : startsWith s (s +:+ t) = true.
Proof. apply prefix_correct, substring_front. Qed.

Lemma append_inv_same_length (a b x y : string) :
  String.length a = String.length b -> a +:+ x = b +:+ y -> a = b.
Proof.
  revert b. induction a as [| c r IH]; intros [| d b]; try discriminate.
  - reflexivity.
  - simpl. intros [= Hlen] [= -> Heq]. f_equal. apply IH; assumption.
Qed.

Lemma append_inv_head (s a b : string) : s +:+ a = s +:+ b -> a = b.
Proof.
  induction s as [| c r IH]; [intros H; exact H |].
  simpl. intros [= H]. apply IH, H.
Qed.

Lemma append_inv_tail (a b t : string) : a +:+ t = b +:+ t -> a = b.
Proof.
  intros H. apply (append_inv_same_length a b t t); [| exact H].
  apply (f_equal String.length) in H. rewrite !length_append in H. lia.
Qed.

End TrimFacts.

(** X9. A fenced answer is unwrapped: when the trimmed text is a body
    between the opening fence with the json tag and the closing fence, and
    the body is not empty and does not start with a backtick, the body
    itself is what is parsed, and the empty array stands in when it does
    not parse. *)
Theorem fenced_answer_is_unwrapped (env : Env) (text body : string) :
  trim text = "```json" +:+ body +:+ "```" ->
  body ≠ EmptyString ->
  startsWith "`" body = false ->
  cleanAndParseJSON env (Some text)
  = match JSON_parse env body with
    | Some v => v
    | None => JArr []
    end.
Proof.
  intros Htrim Hne Htick.
  unfold cleanAndParseJSON.
  rewrite TrimFacts.trim_empty_text by (rewrite Htrim; discriminate).
  cbn zeta. rewrite Htrim.
  rewrite TrimFacts.startsWith_front.
  change 7 with (String.length "```json"). rewrite TrimFacts.sliceFrom_front.
  assert (Hstart : startsWith "```" (body +:+ "```") = false).
  { destruct body as [| c r]; [congruence |].
    unfold startsWith in *.
    change (String.prefix "```" (String c r +:+ "```"))
      with (if ascii_dec "`" c then String.prefix "``" (r +:+ "```") else false).
    change (String.prefix "`" (String c r))
      with (if ascii_dec "`" c then String.prefix EmptyString r else false) in Htick.
    destruct (ascii_dec "`" c); [destruct r; discriminate | reflexivity]. }
  rewrite Hstart.
  assert (Hend : endsWith "```" (body +:+ "```") = true).
  { unfold endsWith, String.rev. rewrite TrimFacts.rev_app_append.
    apply (TrimFacts.startsWith_front "```"). }
  rewrite Hend.
  change 3 with (String.length "```"). rewrite TrimFacts.sliceDropLast_back.
  reflexivity.
Qed.

(** ** The city of the load *)

Module CityFacts.

Import Mount.

Lemma cityOfText_not_blank (text : option string) :
  cityOfText text ≠ EmptyString ∧ trim (cityOfText text) = cityOfText text.
Proof.
  unfold cityOfText. destruct text as [t |]; [| split; [discriminate | reflexivity]].
  destruct (isEmpty (trim t)) eqn:Ht; [split; [discriminate | reflexivity] |].
  split; [| apply TrimFacts.trim_idempotent].
  intros H. rewrite H in Ht. discriminate.
Qed.

(** The profile after [handleUpdateCity]. *)
Lemma handleUpdateCity_profile (city : string) (p : UserProfile) (w : World) :
  app_userProfile w = Some p ->
  app_userProfile (snd (App.handleUpdateCity city w))
  = Some (mkUserProfile (name p) (hasOnboarded p) (interests p)
                        (spotifyConnected p) (topArtists p) city).
Proof.
  intros Hp. unfold App.handleUpdateCity. rewrite Hp.
  destruct (String.eqb_spec (currentCity p) city) as [<- | Hne]; [| reflexivity].
  cbn. rewrite Hp. destruct p; reflexivity.
Qed.

(** The city that [resolveCity] returns is not empty; when the profile had
    no city, the world it leaves is that of one [handleUpdateCity]. *)
Lemma resolveCity_city (env : Env) (userProfile : UserProfile) (w : World) :
  ∃ (city : string) (w0 : World),
    Dashboard.resolveCity env App.handleUpdateCity userProfile w
    = (Ok city,
       if isEmpty (currentCity userProfile)
       then snd (App.handleUpdateCity city w0) else w)
    ∧ app_userProfile w0 = app_userProfile w
    ∧ city ≠ EmptyString.
Proof.
  unfold Dashboard.resolveCity.
  destruct (isEmpty (currentCity userProfile)) eqn:Hcity; cbn [negb].
  2:{ exists (currentCity userProfile), w. repeat split.
      intros H. rewrite H in Hcity. discriminate. }
  assert (Hupd : ∀ (city : string) (w0 : World),
             App.handleUpdateCity city w0 = (Ok tt, snd (App.handleUpdateCity city w0))).
  { intros city w0. destruct (MountFacts.handleUpdateCity_run city w0) as (w' & -> & _).
    reflexivity. }
  destruct (geolocation env) as [[| lat lng] |].
  - unfold tryCatch, bind, Dashboard.getCurrentPosition, throw.
    exists "New York, USA", w. rewrite (Hupd "New York, USA" w).
    repeat split. discriminate.
  - unfold tryCatch, bind, Dashboard.getCurrentPosition, ret. cbn [fst snd].
    rewrite MountFacts.identifyCityFromCoords_cases.
    destruct (apiKeyPresent env).
    + destruct (generateContent env (IdentifyCity lat lng)) as [| text].
      * exists "Unknown Location", (logCall (IdentifyCity lat lng) w).
        rewrite (Hupd "Unknown Location" _). repeat split. discriminate.
      * exists (cityOfText text), (logCall (IdentifyCity lat lng) w).
        rewrite (Hupd (cityOfText text) _). repeat split.
        apply cityOfText_not_blank.
    + exists "Unknown Location", w. rewrite (Hupd "Unknown Location" w).
      repeat split. discriminate.
  - unfold bind. exists "New York, USA", w. rewrite (Hupd "New York, USA" w).
    repeat split. discriminate.
Qed.

Lemma load_returns (env : Env) (city : string) (p : UserProfile) (w : World) :
  ∃ v : json,
    getInitialRecommendations env city p w
    = (Ok v, snd (getInitialRecommendations env city p w)).
Proof.
  destruct (load_classification env city p w)
    as [(payload & v & _ & _ & _ & Hrun) | [Hrun | Hrun]]; rewrite Hrun.
  - exists v. reflexivity.
  - destruct (missPath_returns env city p w) as (v & w' & ->). exists v. reflexivity.
  - destruct (missPath_returns env city p
                (withStorage (delete (generateCacheKey env city p)) w)) as (v & w' & ->).
    exists v. reflexivity.
Qed.

(** [init], step by step. *)
Lemma init_run (env : Env) (userProfile : UserProfile) (w : World) :
  ∃ (city : string) (w1 : World) (v : json),
    Dashboard.resolveCity env App.handleUpdateCity userProfile
      (snd (Dashboard.setLoading true w)) = (Ok city, w1)
    ∧ getInitialRecommendations env city userProfile w1
      = (Ok v, snd (getInitialRecommendations env city userProfile w1))
    ∧ Dashboard.init env App.handleUpdateCity userProfile w
      = (Ok tt,
         snd (Dashboard.setLoading false
                (snd (Dashboard.setEvents v
                        (snd (getInitialRecommendations env city userProfile w1)))))).
Proof.
  destruct (MountFacts.resolveCity_run env userProfile (snd (Dashboard.setLoading true w)))
    as (city & w1 & Hres & _).
  destruct (load_returns env city userProfile w1) as (v & Hload).
  exists city, w1, v. split; [exact Hres |]. split; [exact Hload |].
  unfold Dashboard.init, tryFinally, tryCatch, bind.
  cbn [Dashboard.setLoading snd] in Hres |- *. rewrite Hres, Hload. reflexivity.
Qed.

End CityFacts.

(** X10. The reverse geocoding never fails and never returns a blank city:
    its result is not empty and carries no white space at either end, and it
    touches neither the store nor the React state. *)
Theorem geocoded_city_is_never_blank (env : Env) (lat lng : number) (w : World) :
  ∃ (city : string) (w' : World),
    identifyCityFromCoords env lat lng w = (Ok city, w')
    ∧ city ≠ EmptyString
    ∧ trim city = city
    ∧ localStorage w' = localStorage w
    ∧ sameReactState w w'.
Proof.
  rewrite MountFacts.identifyCityFromCoords_cases.
  destruct (apiKeyPresent env).
  - destruct (generateContent env (IdentifyCity lat lng)) as [| text].
    + eexists _, _. split; [reflexivity |]. repeat split. discriminate.
    + eexists _, _. split; [reflexivity |].
      destruct (CityFacts.cityOfText_not_blank text) as [Hne Htrim].
      repeat split; assumption.
  - eexists _, _. split; [reflexivity |]. repeat split. discriminate.
Qed.

(** X11. The mount effect never fails and never shows its failure message:
    for every environment it ends with the loading flag down, the error
    state as it was, the events set to what the daily load returned, and
    every key of the store outside the cache as it was. *)
Theorem mount_never_fails (env : Env) (userProfile : UserProfile) (w : World) :
  ∃ (w' : World) (city : string) (w1 : World),
    Dashboard.init env App.handleUpdateCity userProfile w = (Ok tt, w')
    ∧ dash_loading w' = false
    ∧ dash_error w' = dash_error w
    ∧ Dashboard.resolveCity env App.handleUpdateCity userProfile
        (snd (Dashboard.setLoading true w)) = (Ok city, w1)
    ∧ Ok (dash_events w') = fst (getInitialRecommendations env city userProfile w1)
    ∧ (∀ k : string, ¬ isCacheKey k -> localStorage w' !! k = localStorage w !! k).
Proof.
  destruct (CityFacts.init_run env userProfile w) as (city & w1 & v & Hres & Hload & Hinit).
  eexists _, city, w1. split; [exact Hinit |].
  destruct (MountFacts.resolveCity_run env userProfile (snd (Dashboard.setLoading true w)))
    as (city' & w1' & Hres' & Hstore & _ & _ & _ & Herr & _).
  rewrite Hres in Hres'. injection Hres' as <- <-.
  destruct (daily_load_frame env city userProfile w1) as (Hkeys & Hstate & _).
  destruct Hstate as (_ & _ & _ & Herr').
  split; [reflexivity |]. split; [cbn; rewrite Herr', Herr; reflexivity |].
  split; [exact Hres |]. split; [rewrite Hload; reflexivity |].
  intros k Hk. cbn. rewrite (Hkeys k Hk), Hstore. reflexivity.
Qed.

(** X12. After the mount effect the profile has a city: when the profile
    state holds the profile the dashboard was given, it holds afterwards a
    profile with a city that is not empty, the city it had if it had one,
    and with every other field as it was. *)
Theorem after_mount_the_profile_has_a_city
    (env : Env) (userProfile : UserProfile) (w : World) :
  app_userProfile w = Some userProfile ->
  ∃ (w' : World) (city : string),
    Dashboard.init env App.handleUpdateCity userProfile w = (Ok tt, w')
    ∧ app_userProfile w'
      = Some (mkUserProfile (name userProfile) (hasOnboarded userProfile)
                            (interests userProfile) (spotifyConnected userProfile)
                            (topArtists userProfile) city)
    ∧ city ≠ EmptyString
    ∧ (currentCity userProfile ≠ EmptyString -> city = currentCity userProfile).
Proof.
  intros Hp.
  destruct (CityFacts.init_run env userProfile w) as (city & w1 & v & Hres & Hload & Hinit).
  destruct (CityFacts.resolveCity_city env userProfile (snd (Dashboard.setLoading true w)))
    as (city' & w0 & Hres' & Hp0 & Hcity).
  rewrite Hres in Hres'. injection Hres' as <- Hw1.
  eexists _, city. split; [exact Hinit |].
  destruct (daily_load_frame env city userProfile w1) as (_ & (Hprof & _) & _).
  split; [| split; [exact Hcity |]].
  - cbn. rewrite Hprof, Hw1.
    destruct (isEmpty (currentCity userProfile)) eqn:He.
    + apply CityFacts.handleUpdateCity_profile. rewrite Hp0. exact Hp.
    + assert (Hc : city = currentCity userProfile).
      { revert Hres. unfold Dashboard.resolveCity. rewrite He. cbn [negb]. unfold ret.
        intros [= Hc _]. symmetry. exact Hc. }
      rewrite Hc. cbn. rewrite Hp. destruct userProfile; reflexivity.
  - intros Hne. revert Hres. unfold Dashboard.resolveCity.
    rewrite (isEmpty_false _ Hne). cbn [negb]. unfold ret.
    intros [= Hc _]. symmetry. exact Hc.
Qed.

(** X13. A new day starts from an empty cache: when the store holds the
    list of one day and no other cache entry, the first load of another day,
    for the same city and profile, misses the cache, and the entry of the
    earlier day is gone afterwards whatever the fetch gives. *)
Theorem a_new_day_misses_and_evicts
    (env1 env2 : Env) (city : string) (p : UserProfile) (w : World) :
  toDateString env1 ≠ toDateString env2 ->
  atMostOneCacheEntry (localStorage w) ->
  is_Some (localStorage w !! generateCacheKey env1 city p) ->
  generateCacheKey env2 city p ≠ generateCacheKey env1 city p
  ∧ getInitialRecommendations env2 city p w = missPath env2 city p w
  ∧ localStorage (snd (getInitialRecommendations env2 city p w))
      !! generateCacheKey env1 city p = None.
Proof.
  intros Hday Hone Hold.
  assert (Hkeys : generateCacheKey env2 city p ≠ generateCacheKey env1 city p).
  { unfold generateCacheKey. cbn zeta. intros H. apply Hday.
    unfold CACHE_KEY_PREFIX in H.
    set (rest := "_" +:+ toLowerCase (removeWhiteSpace city) +:+ "_"
                   +:+ join "-" (sort (interests p))) in H.
    assert (H' : toDateString env2 +:+ rest = toDateString env1 +:+ rest).
    { exact (TrimFacts.append_inv_head _ _ _ H). }
    symmetry. exact (TrimFacts.append_inv_tail _ _ _ H'). }
  assert (Hnone : localStorage w !! generateCacheKey env2 city p = None).
  { destruct (localStorage w !! generateCacheKey env2 city p) as [v |] eqn:Hget;
      [| reflexivity].
    exfalso. apply Hkeys. apply Hone; try apply generateCacheKey_isCacheKey;
      [eexists; exact Hget | exact Hold]. }
  split; [exact Hkeys |].
  rewrite (load_on_absent env2 city p w (or_introl Hnone)).
  split; [reflexivity |].
  unfold missPath, bind.
  set (w1 := snd (evictStale (generateCacheKey env2 city p) w)).
  change (evictStale (generateCacheKey env2 city p) w) with (Ok tt, w1).
  destruct (ServiceFacts.fetchFresh_frame env2 city p (generateCacheKey env2 city p) w1)
    as (_ & Hframe & _).
  rewrite Hframe by (intros H; apply Hkeys; symmetry; exact H).
  apply StoreFacts.evictStale_other; [apply generateCacheKey_isCacheKey |].
  intros H. apply Hkeys. symmetry. exact H.
Qed.

(** ** The chat *)

Module ChatFacts.

Import Chat.

Lemma elem_of_List_filter {A : Type} (f : A -> bool) (l : list A) (x : A) :
  x ∈ List.filter f l <-> x ∈ l ∧ f x = true.
Proof. rewrite !list_elem_of_In. apply filter_In. Qed.

Lemma elem_of_uniqueFirst (l : list string) (x : string) :
  x ∈ uniqueFirst l <-> x ∈ l.
Proof.
  induction l as [| y r IH]; [reflexivity |].
  cbn [uniqueFirst]. rewrite !elem_of_cons, elem_of_List_filter, IH.
  split.
  - intros [H | [H _]]; [left | right]; exact H.
  - intros [H | H]; [left; exact H |].
    destruct (String.eqb_spec x y) as [Heq | Hne]; [left; exact Heq |].
    right. split; [exact H | reflexivity].
Qed.

Lemma NoDup_uniqueFirst (l : list string) : NoDup (uniqueFirst l).
Proof.
  induction l as [| y r IH]; [constructor |].
  cbn [uniqueFirst]. constructor.
  - rewrite elem_of_List_filter. intros [_ H].
    apply negb_true_iff, String.eqb_neq in H. apply H. reflexivity.
  - apply NoDup_List_filter, IH.
Qed.

Lemma sublist_uniqueFirst (l : list string) : sublist (uniqueFirst l) l.
Proof.
  induction l as [| y r IH]; [constructor |].
  cbn [uniqueFirst]. apply sublist_skip.
  etransitivity; [apply TopPicksFacts.filter_sublist | exact IH].
Qed.

Lemma List_filter_app_cons {A : Type} (f : A -> bool) (l1 l2 : list A) (x : A) :
  f x = true ->
  List.filter f (l1 ++ x :: l2) = List.filter f l1 ++ x :: List.filter f l2.
Proof. intros Hx. rewrite List.filter_app. cbn [List.filter]. rewrite Hx. reflexivity. Qed.

(** The lines before a line are the lines that occur before its first
    occurrence. *)
Lemma uniqueFirst_first_occurrence (s1 s2 : list string) (x : string) :
  x ∉ s1 ->
  ∃ l1 l2 : list string,
    uniqueFirst (s1 ++ x :: s2) = l1 ++ x :: l2
    ∧ ∀ z : string, z ∈ l1 <-> z ∈ s1.
Proof.
  induction s1 as [| y r IH]; intros Hx.
  - exists [], (List.filter (fun z => negb (String.eqb z x)) (uniqueFirst s2)).
    split; [reflexivity |]. intros z. reflexivity.
  - apply not_elem_of_cons in Hx as [Hne Hr].
    destruct (IH Hr) as (l1 & l2 & Heq & Hl1).
    exists (y :: List.filter (fun z => negb (String.eqb z y)) l1),
           (List.filter (fun z => negb (String.eqb z y)) l2).
    split.
    + cbn [app uniqueFirst]. rewrite Heq. f_equal.
      apply List_filter_app_cons.
      apply negb_true_iff, String.eqb_neq, Hne.
    + intros z. rewrite !elem_of_cons, elem_of_List_filter, Hl1.
      split.
      * intros [H | [H _]]; [left | right]; exact H.
      * intros [H | H]; [left; exact H |].
        destruct (String.eqb_spec z y) as [Heq' | Hne']; [left; exact Heq' |].
        right. split; [exact H | reflexivity].
Qed.

Lemma chat_cases (env : Env) (chat : Collaborator) (history : list Turn)
    (message : string) (p : UserProfile) (w : World) :
  chatWithCitySense env chat history message p w =
  (Ok (if apiKeyPresent env then
         match chat history message p with
         | ChatFails => mkResponse APOLOGY None
         | ChatAnswers text chunks =>
             mkResponse
               (withSources (match text with Some t => t | None => EmptyString end)
                            (match chunks with Some c => c | None => [] end))
               None
         end
       else mkResponse APOLOGY None), w).
Proof.
  unfold chatWithCitySense, tryCatch, bind. rewrite getAIClient_run.
  destruct (apiKeyPresent env); [| reflexivity].
  unfold liftRes. destruct (chat history message p); reflexivity.
Qed.

End ChatFacts.

(** X14. The chat always answers: whatever the environment and the
    collaborator do, [chatWithCitySense] resolves, it never carries
    suggested events, it leaves the world as it was, and its text is the
    apology when the key is missing or the collaborator fails, the text of
    the answer, empty when undefined, followed by the sources otherwise:
    the text of the answer alone when no chunk gives a source line. *)
Theorem chat_always_answers
    (env : Env) (chat : Chat.Collaborator) (history : list Chat.Turn)
    (message : string) (p : UserProfile) (w : World) :
  ∃ r : Chat.Response,
    Chat.chatWithCitySense env chat history message p w = (Ok r, w)
    ∧ Chat.events r = None
    ∧ (apiKeyPresent env = false ∨ chat history message p = Chat.ChatFails ->
       Chat.responseText r = Chat.APOLOGY)
    ∧ (∀ (text : option string) (chunks : option (list Chat.GroundingChunk)),
         apiKeyPresent env = true ->
         chat history message p = Chat.ChatAnswers text chunks ->
         Chat.responseText r
         = Chat.withSources (default EmptyString text) (default [] chunks))
    ∧ (∀ (text : option string) (chunks : option (list Chat.GroundingChunk)),
         apiKeyPresent env = true ->
         chat history message p = Chat.ChatAnswers text chunks ->
         omap Chat.sourceLine (default [] chunks) = [] ->
         Chat.responseText r = default EmptyString text).
Proof.
  eexists. split; [apply ChatFacts.chat_cases |].
  assert (Hnone : ∀ (t : string) (chunks : list Chat.GroundingChunk),
             omap Chat.sourceLine chunks = [] -> Chat.withSources t chunks = t).
  { intros t chunks H. unfold Chat.withSources. cbn zeta. rewrite H. reflexivity. }
  destruct (apiKeyPresent env).
  - destruct (chat history message p) as [| text chunks] eqn:Hchat.
    + split; [reflexivity |]. split; [reflexivity |]. split; discriminate.
    + split; [reflexivity |]. split; [intros [H | H]; discriminate |].
      split.
      * intros text' chunks' _ [= <- <-]. destruct text, chunks; reflexivity.
      * intros text' chunks' _ [= <- <-] Hlines.
        destruct text, chunks; exact (Hnone _ _ Hlines).
  - split; [reflexivity |]. split; [reflexivity |]. split; discriminate.
Qed.

(** X15. The sources of an answer are listed once each, in the order of
    their first occurrence: the lines appended to the text have no
    duplicates, they are exactly the lines of the chunks that have both a
    uri and a title, the lines listed before a line are exactly the lines
    that occur before its first occurrence among the chunks, and nothing is
    appended when no chunk has both. *)
Theorem sources_are_listed_once (responseText : string)
    (groundingChunks : list Chat.GroundingChunk) :
  ∃ lines : list string,
    NoDup lines
    ∧ (∀ x : string, x ∈ lines <-> x ∈ omap Chat.sourceLine groundingChunks)
    ∧ sublist lines (omap Chat.sourceLine groundingChunks)
    ∧ head lines = head (omap Chat.sourceLine groundingChunks)
    ∧ (∀ (before after : list string) (x : string),
         omap Chat.sourceLine groundingChunks = before ++ x :: after ->
         x ∉ before ->
         ∃ listedBefore listedAfter : list string,
           lines = listedBefore ++ x :: listedAfter
           ∧ ∀ z : string, z ∈ listedBefore <-> z ∈ before)
    ∧ Chat.withSources responseText groundingChunks
      = match lines with
        | [] => responseText
        | _ :: _ =>
            responseText +:+ Chat.newline +:+ Chat.newline +:+ "**Sources:**"
              +:+ Chat.newline +:+ join Chat.newline lines
        end.
Proof.
  exists (Chat.uniqueFirst (omap Chat.sourceLine groundingChunks)).
  split; [apply ChatFacts.NoDup_uniqueFirst |].
  split; [intros x; apply ChatFacts.elem_of_uniqueFirst |].
  split; [apply ChatFacts.sublist_uniqueFirst |].
  unfold Chat.withSources. cbn zeta.
  split; [destruct (omap Chat.sourceLine groundingChunks); reflexivity |].
  split.
  - intros before after x -> Hx.
    apply ChatFacts.uniqueFirst_first_occurrence, Hx.
  - destruct (omap Chat.sourceLine groundingChunks) as [| x r]; reflexivity.
Qed.

(** X16. Sending a message appends the question and the answer, in that
    order, after the messages that were there: a blank input or a pending
    answer changes nothing; otherwise the conversation grows by the user's
    text as typed and by one model message without suggested events, the
    input is cleared and the pending flag is down.  The world is not
    touched. *)
Theorem send_appends_question_and_answer
    (env : Env) (chat : Chat.Collaborator) (nowUser nowModel : Z)
    (p : UserProfile) (st : ChatPlanner.State) (w : World) :
  ∃ st' : ChatPlanner.State,
    ChatPlanner.handleSend env chat nowUser nowModel p st w = (Ok st', w)
    ∧ (isEmpty (trim (ChatPlanner.input st)) = true ∨ ChatPlanner.isThinking st = true ->
       st' = st)
    ∧ (isEmpty (trim (ChatPlanner.input st)) = false ->
       ChatPlanner.isThinking st = false ->
       ∃ answer : string,
         ChatPlanner.messages st'
         = ChatPlanner.messages st
             ++ [ChatPlanner.mkMessage (intToString nowUser) Chat.RoleUser
                   (ChatPlanner.input st) None;
                 ChatPlanner.mkMessage (intToString (nowModel + 1)) Chat.RoleModel
                   answer None]
         ∧ fst (Chat.chatWithCitySense env chat
                  (map (fun m => Chat.mkTurn (ChatPlanner.msgRole m) (ChatPlanner.msgText m))
                       (ChatPlanner.messages st))
                  (ChatPlanner.input st) p w)
           = Ok (Chat.mkResponse answer None)
         ∧ ChatPlanner.input st' = EmptyString
         ∧ ChatPlanner.isThinking st' = false).
Proof.
  unfold ChatPlanner.handleSend.
  destruct (isEmpty (trim (ChatPlanner.input st))) eqn:Hblank; cbn [orb].
  { exists st. split; [reflexivity |]. split; [reflexivity | discriminate]. }
  destruct (ChatPlanner.isThinking st) eqn:Hbusy.
  { exists st. split; [reflexivity |]. split; [reflexivity | discriminate]. }
  cbn zeta. unfold bind. cbn [ChatPlanner.msgText].
  rewrite ChatFacts.chat_cases.
  match goal with |- context [Ok ?x] => set (r := x) end.
  assert (Hev : Chat.events r = None).
  { subst r. destruct (apiKeyPresent env); [| reflexivity].
    destruct (chat _ _ p); reflexivity. }
  eexists. split; [reflexivity |].
  split; [intros [H | H]; discriminate |].
  intros _ _. exists (Chat.responseText r).
  cbn [ChatPlanner.messages ChatPlanner.input ChatPlanner.isThinking fst].
  rewrite Hev. split; [reflexivity |]. split; [| split; reflexivity].
  destruct r as [t ev]. cbn in Hev. subst ev. reflexivity.
Qed.

(** ** Search and category filter of the dashboard *)

Module FilterFacts.

Import DashboardView Category.

Lemma substring_middle (pre pat post : string) :
  substring (String.length pre) (String.length pat) (pre +:+ pat +:+ post) = pat.
Proof.
  induction pre as [| c r IH]; [| exact IH].
  exact (TrimFacts.substring_front pat post).
Qed.

Lemma append_empty_r (s : string) : s +:+ EmptyString = s.
Proof.
  induction s as [| c r IH]; [reflexivity |].
  change (String c (r +:+ EmptyString) = String c r). f_equal. exact IH.
Qed.

Lemma substring_head (k : nat) (s : string) :
  ∃ post : string, s = substring 0 k s +:+ post.
Proof.
  revert k. induction s as [| c r IH]; intros [| k].
  - exists EmptyString. reflexivity.
  - exists EmptyString. reflexivity.
  - exists (String c r). reflexivity.
  - destruct (IH k) as (post & Hpost). exists post.
    change (String c r = String c (substring 0 k r +:+ post)). f_equal. exact Hpost.
Qed.

Lemma substring_split (m k : nat) (s : string) :
  ∃ pre post : string, s = pre +:+ substring m k s +:+ post.
Proof.
  revert m. induction s as [| c r IH]; intros m.
  - exists EmptyString, EmptyString. destruct m, k; reflexivity.
  - destruct m as [| m].
    + destruct (substring_head k (String c r)) as (post & Hpost).
      exists EmptyString, post. exact Hpost.
    + destruct (IH m) as (pre & post & Hs). exists (String c pre), post.
      change (String c r = String c (pre +:+ substring m k r +:+ post)).
      f_equal. exact Hs.
Qed.

Lemma includes_iff (pat s : string) :
  includes pat s = true <-> ∃ pre post : string, s = pre +:+ pat +:+ post.
Proof.
  unfold includes. split.
  - destruct (index 0 pat s) as [m |] eqn:Hidx; [| discriminate]. intros _.
    apply index_correct1 in Hidx.
    destruct (substring_split m (String.length pat) s) as (pre & post & Hs).
    exists pre, post. rewrite Hidx in Hs. exact Hs.
  - intros (pre & post & ->).
    destruct (index 0 pat (pre +:+ pat +:+ post)) as [m |] eqn:Hidx; [reflexivity |].
    destruct pat as [| c pat].
    + destruct (pre +:+ EmptyString +:+ post); discriminate.
    + exfalso.
      apply (index_correct3 0 (String.length pre) _ _ Hidx); [discriminate | lia |].
      apply substring_middle.
Qed.

Lemma keeps_iff (categoryFilter : string) (e : Event) :
  keeps categoryFilter e = true <-> contains categoryFilter e.
Proof.
  unfold keeps, contains. split.
  - destruct (lookupProp "category" e) as [[| | |c| |] |]; try discriminate.
    intros H. apply orb_true_iff in H as [H | H].
    + apply includes_iff in H as (pre & post & ->). exists pre, post. reflexivity.
    + apply String.eqb_eq in H as ->. exists EmptyString, EmptyString.
      change (EmptyString +:+ categoryFilter +:+ EmptyString)
        with (categoryFilter +:+ EmptyString).
      rewrite append_empty_r. reflexivity.
  - intros (pre & post & ->). apply orb_true_iff. left.
    apply includes_iff. exists pre, post. reflexivity.
Qed.

Lemma filterRes_textual (categoryFilter : string) (l : list Event) :
  forallb textual l = true ->
  filterRes (matchesCategory categoryFilter) l = Ok (List.filter (keeps categoryFilter) l).
Proof.
  induction l as [| e r IH]; [reflexivity |].
  cbn [forallb]. intros H. apply andb_true_iff in H as [He Hr].
  cbn [filterRes List.filter]. rewrite (IH Hr).
  unfold matchesCategory, keeps. unfold textual in He.
  destruct (lookupProp "category" e) as [[| | |c| |] |]; try discriminate; reflexivity.
Qed.

Lemma filterRes_untyped (categoryFilter : string) (l : list Event) :
  existsb untyped l = true ->
  filterRes (matchesCategory categoryFilter) l = Throw TypeError.
Proof.
  induction l as [| e r IH]; [discriminate |].
  cbn [existsb filterRes]. intros H.
  destruct (matchesCategory categoryFilter e) as [keep | err] eqn:He.
  - cbn [bindRes]. rewrite IH; [reflexivity |].
    apply orb_true_iff in H as [H | H]; [| exact H].
    exfalso. revert He H. unfold matchesCategory, untyped.
    destruct (lookupProp "category" e) as [[| | | | |] |]; discriminate.
  - cbn [bindRes]. revert He. unfold matchesCategory.
    destruct (lookupProp "category" e) as [[| | | | |] |]; congruence.
Qed.

Lemma handleSearch_run (env : Env) (p : UserProfile) (searchQuery categoryFilter : string)
    (w : World) :
  isEmpty (trim searchQuery) = false ->
  ∃ v : json,
    searchEvents env (currentCity p) searchQuery (snd (Dashboard.setLoading true w))
    = (Ok v, snd (searchEvents env (currentCity p) searchQuery
                    (snd (Dashboard.setLoading true w))))
    ∧ handleSearch env p searchQuery categoryFilter w
      = (Ok "All",
         snd (Dashboard.setLoading false
                (snd (Dashboard.setEvents v
                        (snd (searchEvents env (currentCity p) searchQuery
                                (snd (Dashboard.setLoading true w)))))))).
Proof.
  intros Hq.
  destruct (FetchFacts.searchEvents_normalizes env (currentCity p) searchQuery
              (snd (Dashboard.setLoading true w))) as (events & w' & Hrun & _).
  exists (eventsToJson events). rewrite Hrun. split; [reflexivity |].
  unfold handleSearch. rewrite Hq. unfold bind, tryFinally, tryCatch.
  cbn [Dashboard.setLoading snd] in Hrun |- *. rewrite Hrun. reflexivity.
Qed.

End FilterFacts.

(** X17. A search from the dashboard never fails and never shows its
    failure message: a blank query changes nothing; any other query resets
    the category filter to All, sets the events to what [searchEvents]
    returned and ends with the loading flag down; the error state, the
    profile and the store are as they were. *)
Theorem search_never_fails
    (env : Env) (p : UserProfile) (searchQuery categoryFilter : string) (w : World) :
  ∃ (categoryFilter' : string) (w' : World),
    DashboardView.handleSearch env p searchQuery categoryFilter w = (Ok categoryFilter', w')
    ∧ dash_error w' = dash_error w
    ∧ app_userProfile w' = app_userProfile w
    ∧ localStorage w' = localStorage w
    ∧ (isEmpty (trim searchQuery) = true -> categoryFilter' = categoryFilter ∧ w' = w)
    ∧ (isEmpty (trim searchQuery) = false ->
       categoryFilter' = "All"
       ∧ dash_loading w' = false
       ∧ Ok (dash_events w')
         = fst (searchEvents env (currentCity p) searchQuery
                  (snd (Dashboard.setLoading true w)))).
Proof.
  destruct (isEmpty (trim searchQuery)) eqn:Hq.
  - exists categoryFilter, w. unfold DashboardView.handleSearch. rewrite Hq.
    repeat split; discriminate.
  - destruct (FilterFacts.handleSearch_run env p searchQuery categoryFilter w Hq)
      as (v & Hrun & Hsearch).
    eexists _, _. split; [exact Hsearch |].
    destruct (search_frame env (currentCity p) searchQuery
                (snd (Dashboard.setLoading true w))) as (Hstore & Hstate & _).
    destruct Hstate as (Hprof & _ & _ & Herr).
    rewrite Hrun.
    set (W := snd (searchEvents env (currentCity p) searchQuery
                     (snd (Dashboard.setLoading true w)))) in *.
    clearbody W. cbn in Hstore, Hprof, Herr |- *.
    repeat split; try assumption; discriminate.
Qed.

(** X18. The category filter is a substring match: when every event has a
    string category or none, a filter other than All never throws and keeps,
    in their order, exactly the events in whose category the filter occurs. *)
Theorem category_filter_keeps_substring_matches
    (allEvents : list Event) (categoryFilter : string) :
  categoryFilter ≠ "All" ->
  forallb Category.textual allEvents = true ->
  ∃ kept : list Event,
    DashboardView.filteredEvents allEvents categoryFilter = Ok kept
    ∧ sublist kept allEvents
    ∧ ∀ e : Event, e ∈ kept <-> e ∈ allEvents ∧ Category.contains categoryFilter e.
Proof.
  intros Hall Htext.
  exists (List.filter (Category.keeps categoryFilter) allEvents).
  split; [| split].
  - unfold DashboardView.filteredEvents.
    rewrite (proj2 (String.eqb_neq _ _) Hall).
    apply FilterFacts.filterRes_textual, Htext.
  - apply TopPicksFacts.filter_sublist.
  - intros e. rewrite ChatFacts.elem_of_List_filter, FilterFacts.keeps_iff. reflexivity.
Qed.

(** X19. One event whose category is a number, a boolean or an object
    makes a filter other than All throw, whatever the other events are; the
    filter All returns every event without looking at the categories. *)
Theorem category_filter_throws_on_untyped_category
    (allEvents : list Event) (categoryFilter : string) :
  existsb Category.untyped allEvents = true ->
  DashboardView.filteredEvents allEvents "All" = Ok allEvents
  ∧ (categoryFilter ≠ "All" ->
     DashboardView.filteredEvents allEvents categoryFilter = Throw TypeError).
Proof.
  intros Hbad. split; [reflexivity |].
  intros Hall. unfold DashboardView.filteredEvents.
  rewrite (proj2 (String.eqb_neq _ _) Hall).
  apply FilterFacts.filterRes_untyped, Hbad.
Qed.

(** ** The map *)

(** X20. A pin needs two truthy coordinates: the events that get a marker
    are, in their order, events whose [coordinates] is an object with a
    truthy [lat] and a truthy [lng]; an event at latitude or longitude zero
    gets none; and when the overlay for missing location data is shown, no
    event gets one. *)
Theorem map_pins_need_truthy_coordinates (events : list Event) :
  sublist (MapView.validEvents events) events
  ∧ (∀ e : Event,
       e ∈ MapView.validEvents events ->
       e ∈ events
       ∧ ∃ (props : list (string * json)) (lat lng : json),
           lookupProp "coordinates" e = Some (JObj props)
           ∧ lookupProp "lat" props = Some lat ∧ lookupProp "lng" props = Some lng
           ∧ truthy (Some lat) = true ∧ truthy (Some lng) = true)
  ∧ (∀ (e : Event) (props : list (string * json)) (ex : Z),
       lookupProp "coordinates" e = Some (JObj props) ->
       lookupProp "lat" props = Some (JNum (Decimal 0 ex))
       ∨ lookupProp "lng" props = Some (JNum (Decimal 0 ex)) ->
       e ∉ MapView.validEvents events)
  ∧ (MapView.showsNoLocationOverlay events = true -> MapView.validEvents events = []).
Proof.
  unfold MapView.validEvents. split; [apply TopPicksFacts.filter_sublist |].
  split; [| split].
  - intros e He. apply ChatFacts.elem_of_List_filter in He as [Hin Hpos].
    split; [exact Hin |].
    unfold MapView.hasPosition, MapView.optionalProp in Hpos.
    destruct (lookupProp "coordinates" e) as [[| | | | |props] |]; try discriminate.
    exists props.
    destruct (lookupProp "lat" props) as [lat |]; [| discriminate].
    destruct (lookupProp "lng" props) as [lng |];
      [| rewrite andb_false_r in Hpos; discriminate].
    apply andb_true_iff in Hpos as [Hlat Hlng].
    exists lat, lng. repeat split; assumption.
  - intros e props ex Hc Hzero He.
    apply ChatFacts.elem_of_List_filter in He as [_ Hpos].
    unfold MapView.hasPosition, MapView.optionalProp in Hpos. rewrite Hc in Hpos.
    destruct Hzero as [Hz | Hz]; rewrite Hz in Hpos.
    + discriminate.
    + rewrite andb_false_r in Hpos. discriminate.
  - unfold MapView.showsNoLocationOverlay.
    induction events as [| e r IH]; [reflexivity |].
    cbn [List.filter].
    destruct (truthy (lookupProp "coordinates" e)) eqn:Hc; [discriminate |].
    intros H. rewrite (IH H).
    unfold MapView.hasPosition, MapView.optionalProp.
    destruct (lookupProp "coordinates" e) as [[| | | | |props] |]; try reflexivity.
    discriminate.
Qed.

(** ** Saved events *)

Module SavedFacts.

Import EventCard.

Lemma readSaved_world (env : Env) (w : World) :
  snd (readSaved env w) = w.
Proof.
  unfold readSaved, bind, getItem.
  destruct (JSON_parse env _); reflexivity.
Qed.

Lemma readSaved_after_write (env : Env) (w : World) (v : json) :
  JSON_stringify env v ≠ EmptyString ->
  JSON_parse env (JSON_stringify env v) = Some v ->
  readSaved env (withStorage (insert "savedEvents" (JSON_stringify env v)) w)
  = (Ok v, withStorage (insert "savedEvents" (JSON_stringify env v)) w).
Proof.
  intros Hne Hparse. unfold readSaved, bind, getItem.
  cbn [withStorage localStorage]. rewrite lookup_insert_eq.
  rewrite (isEmpty_false _ Hne), Hparse. reflexivity.
Qed.

Lemma existsb_after_remove (id id' : string) (items : list json) :
  existsb (isId id') (List.filter (fun x => negb (isId id x)) items)
  = if String.eqb id' id then false else existsb (isId id') items.
Proof.
  induction items as [| x r IH]; [destruct (String.eqb id' id); reflexivity |].
  cbn [List.filter existsb].
  destruct (isId id x) eqn:Hx; cbn [negb existsb]; rewrite IH.
  - destruct (String.eqb_spec id' id) as [-> | Hne]; [reflexivity |].
    destruct x as [| | |s| |]; try discriminate.
    cbn in Hx |- *. apply String.eqb_eq in Hx as ->.
    rewrite (proj2 (String.eqb_neq _ _) (not_eq_sym Hne)). reflexivity.
  - destruct (String.eqb_spec id' id) as [-> | Hne]; [| reflexivity].
    rewrite Hx. reflexivity.
Qed.

Lemma existsb_after_add (id id' : string) (items : list json) :
  existsb (isId id')
    (if existsb (isId id) items then items else items ++ [JStr id])
  = if String.eqb id' id then true else existsb (isId id') items.
Proof.
  destruct (String.eqb_spec id' id) as [-> | Hne].
  - destruct (existsb (isId id) items) eqn:Hin; [exact Hin |].
    rewrite existsb_app. cbn. rewrite String.eqb_refl. apply orb_true_r.
  - destruct (existsb (isId id) items); [reflexivity |].
    rewrite existsb_app. cbn.
    rewrite (proj2 (String.eqb_neq _ _) (not_eq_sym Hne)).
    rewrite !orb_false_r. reflexivity.
Qed.

End SavedFacts.

(** X21. The saved flag survives a remount: when the stored list parses to
    an array and the list that a toggle writes is accepted by the store and
    read back as it was written, the toggle flips the flag, a card mounted
    afterwards for the same event shows the new flag, and a card for any
    other event shows what it showed before. *)
Theorem saved_flag_survives_a_remount
    (env : Env) (id : string) (isSaved : bool) (items : list json) (w : World) :
  let newSavedEvents :=
    if isSaved then List.filter (fun x => negb (EventCard.isId id x)) items
    else if existsb (EventCard.isId id) items then items else items ++ [JStr id] in
  EventCard.readSaved env w = (Ok (JArr items), w) ->
  storageAccepts env (localStorage w) "savedEvents"
    (JSON_stringify env (JArr newSavedEvents)) = true ->
  JSON_stringify env (JArr newSavedEvents) ≠ EmptyString ->
  JSON_parse env (JSON_stringify env (JArr newSavedEvents)) = Some (JArr newSavedEvents) ->
  ∃ w' : World,
    EventCard.toggleSave env id isSaved w = (Ok (negb isSaved), w')
    ∧ EventCard.mountEffect env id w' = (Ok (negb isSaved), w')
    ∧ (∀ id' : string,
         id' ≠ id ->
         fst (EventCard.mountEffect env id' w') = fst (EventCard.mountEffect env id' w))
    ∧ (∀ k : string, k ≠ "savedEvents" -> localStorage w' !! k = localStorage w !! k).
Proof.
  intros newSavedEvents Hread Haccept Hne Hparse.
  exists (withStorage (insert "savedEvents" (JSON_stringify env (JArr newSavedEvents))) w).
  assert (Hmount : ∀ id' : string,
             EventCard.mountEffect env id'
               (withStorage (insert "savedEvents"
                               (JSON_stringify env (JArr newSavedEvents))) w)
             = (Ok (existsb (EventCard.isId id') newSavedEvents),
                withStorage (insert "savedEvents"
                               (JSON_stringify env (JArr newSavedEvents))) w)).
  { intros id'. unfold EventCard.mountEffect, tryCatch, bind.
    rewrite (SavedFacts.readSaved_after_write env w _ Hne Hparse). reflexivity. }
  assert (Hnew : ∀ id' : string,
             existsb (EventCard.isId id') newSavedEvents
             = if String.eqb id' id then negb isSaved
               else existsb (EventCard.isId id') items).
  { intros id'. subst newSavedEvents. destruct isSaved.
    - apply SavedFacts.existsb_after_remove.
    - apply SavedFacts.existsb_after_add. }
  split; [| split; [| split]].
  - unfold EventCard.toggleSave, tryCatch, bind. rewrite Hread. cbn zeta.
    fold newSavedEvents. unfold setItem. rewrite Haccept. reflexivity.
  - rewrite Hmount, Hnew, String.eqb_refl. reflexivity.
  - intros id' Hid. rewrite Hmount, Hnew.
    rewrite (proj2 (String.eqb_neq _ _) Hid).
    unfold EventCard.mountEffect, tryCatch, bind. rewrite Hread. reflexivity.
  - intros k Hk. cbn. apply lookup_insert_ne. congruence.
Qed.

(** X22. Saving never fails and touches one key: a toggle and a mount
    always resolve; the mount leaves the world as it was; the toggle writes
    nothing but the key of the saved events, and when the stored text does
    not parse or the store refuses the write, it leaves the world and the
    flag as they were. *)
Theorem saving_never_fails (env : Env) (id : string) (isSaved : bool) (w : World) :
  (∃ shown : bool, EventCard.mountEffect env id w = (Ok shown, w))
  ∧ ∃ (flag : bool) (w' : World),
      EventCard.toggleSave env id isSaved w = (Ok flag, w')
      ∧ (∀ k : string, k ≠ "savedEvents" -> localStorage w' !! k = localStorage w !! k)
      ∧ sameReactState w w'
      ∧ aiCalls w' = aiCalls w
      ∧ (flag = negb isSaved ∨ (flag = isSaved ∧ w' = w))
      ∧ (fst (EventCard.readSaved env w) = Throw SyntaxError
         ∨ (∀ v : string, storageAccepts env (localStorage w) "savedEvents" v = false) ->
         flag = isSaved ∧ w' = w).
Proof.
  split.
  - unfold EventCard.mountEffect, tryCatch, bind.
    pose proof (SavedFacts.readSaved_world env w) as Hw.
    destruct (EventCard.readSaved env w) as [[v | err] w0]; cbn in Hw; subst w0;
      eexists; reflexivity.
  - unfold EventCard.toggleSave, tryCatch, bind.
    pose proof (SavedFacts.readSaved_world env w) as Hw.
    destruct (EventCard.readSaved env w) as [[v | err] w0]; cbn in Hw; subst w0.
    + cbn zeta. unfold setItem.
      match goal with |- context [storageAccepts env ?m ?k ?x] =>
        destruct (storageAccepts env m k x) eqn:Haccept
      end.
      * eexists _, _. split; [reflexivity |].
        split; [intros k Hk; cbn; apply lookup_insert_ne; congruence |].
        split; [repeat split |]. split; [reflexivity |]. split; [left; reflexivity |].
        intros [H | H]; [discriminate |]. rewrite H in Haccept. discriminate.
      * eexists _, _. split; [reflexivity |].
        split; [reflexivity |]. split; [repeat split |]. split; [reflexivity |].
        split; [right; split; reflexivity | intros _; split; reflexivity].
    + eexists _, _. split; [reflexivity |].
      split; [reflexivity |]. split; [repeat split |]. split; [reflexivity |].
      split; [right; split; reflexivity | intros _; split; reflexivity].
Qed.

(** ** Events the user creates *)

Module CreateFacts.

Lemma to_int_not_nil (z : Z) : Z.to_int z ≠ Pos Nil ∧ Z.to_int z ≠ Neg Nil.
Proof.
  destruct z as [| p | p]; cbn; split; try discriminate;
    intros [= H]; exact (DecimalPos.Unsigned.to_uint_nonnil p H).
Qed.

Lemma intToString_inj (a b : Z) : intToString a = intToString b -> a = b.
Proof.
  unfold intToString. intros H.
  apply DecimalZ.to_int_inj.
  destruct (to_int_not_nil a) as [Ha1 Ha2]. destruct (to_int_not_nil b) as [Hb1 Hb2].
  pose proof (NilZero.isi _ Ha1 Ha2) as Ia. pose proof (NilZero.isi _ Hb1 Hb2) as Ib.
  rewrite H in Ia. rewrite Ia in Ib. injection Ib as Hab. exact Hab.
Qed.

Lemma orString_not_empty (a b : string) :
  b ≠ EmptyString -> CreateEventModal.orString a b ≠ EmptyString.
Proof.
  unfold CreateEventModal.orString. destruct a; [intros H; exact H | discriminate].
Qed.

End CreateFacts.

(** X23. An event the user creates is a complete event and a top pick: it
    has the shape of an [EventItem], its id, image and link are not empty,
    its price is Free or a dollar amount that is not zero, and once handed
    to [handleCreateEvent] it is the first of all events and among the top
    picks, ahead of everything that was there. *)
Theorem created_event_is_complete_and_promoted
    (formData : CreateEventModal.FormData) (formattedDate : string) (now : Z)
    (currentCity : string) (userEvents events : list Event) :
  let e := CreateEventModal.newEvent formData formattedDate now currentCity in
  EventShape.isEventItem (JObj e) = true
  ∧ Normalize.wellFormed e
  ∧ (lookupProp "price" e = Some (JStr "Free")
     ∨ ∃ amount : string,
         lookupProp "price" e = Some (JStr ("$" +:+ amount))
         ∧ amount ≠ EmptyString ∧ amount ≠ "0")
  ∧ Dashboard.allEvents (CreateEventModal.handleCreateEvent e userEvents) events
    = e :: Dashboard.allEvents userEvents events
  ∧ Dashboard.topPicks
      (Dashboard.allEvents (CreateEventModal.handleCreateEvent e userEvents) events)
    = e :: Dashboard.topPicks (Dashboard.allEvents userEvents events).
Proof.
  intros e. split; [reflexivity |]. split; [| split; [| split; reflexivity]].
  - assert (Hfield : ∀ (k s : string),
               lookupProp k e = Some (JStr s) -> s ≠ EmptyString ->
               Normalize.nonEmptyField k e).
    { intros k s Hk Hs. exists (JStr s). split; [exact Hk |].
      split; [discriminate |]. split; [congruence |].
      cbn. rewrite (isEmpty_false _ Hs). reflexivity. }
    split; [| split].
    + apply (Hfield "id" ("user-" +:+ intToString now)); [reflexivity | discriminate].
    + eapply (Hfield "imageUrl"); [reflexivity |].
      apply CreateFacts.orString_not_empty. discriminate.
    + eapply (Hfield "link"); [reflexivity |].
      apply CreateFacts.orString_not_empty. discriminate.
  - change (lookupProp "price" e)
      with (Some (JStr (if isEmpty (CreateEventModal.price formData) then "Free"
                        else if String.eqb (CreateEventModal.price formData) "0"
                             then "Free"
                             else "$" +:+ CreateEventModal.price formData))).
    destruct (isEmpty (CreateEventModal.price formData)) eqn:Hp; [left; reflexivity |].
    destruct (String.eqb_spec (CreateEventModal.price formData) "0") as [H0 | H0];
      [left; reflexivity |].
    right. exists (CreateEventModal.price formData).
    split; [reflexivity |]. split; [| exact H0].
    intros H. rewrite H in Hp. discriminate.
Qed.

(** X24. The id of a created event is the clock reading behind the prefix
    for user events: two events created at different readings have
    different ids, whatever their forms say, and two events created at the
    same reading share their id. *)
Theorem created_ids_follow_the_clock
    (form1 form2 : CreateEventModal.FormData) (date1 date2 : string) (now1 now2 : Z)
    (city1 city2 : string) :
  lookupProp "id" (CreateEventModal.newEvent form1 date1 now1 city1)
  = lookupProp "id" (CreateEventModal.newEvent form2 date2 now2 city2)
  <-> now1 = now2.
Proof.
  cbn. split.
  - intros [= H]. apply CreateFacts.intToString_inj. exact H.
  - intros ->. reflexivity.
Qed.

(** ** Onboarding *)

Module OnboardingFacts.

Lemma existsb_eqb_iff (interest : string) (l : list string) :
  existsb (String.eqb interest) l = true <-> interest ∈ l.
Proof.
  rewrite existsb_exists, list_elem_of_In. split.
  - intros (x & Hin & Heq). apply String.eqb_eq in Heq as ->. exact Hin.
  - intros Hin. exists interest. split; [exact Hin | apply String.eqb_refl].
Qed.

Lemma elem_of_toggleInterest (interest other : string) (prev : list string) :
  other ∈ Onboarding.toggleInterest interest prev
  <-> (other = interest ∧ interest ∉ prev) ∨ (other ≠ interest ∧ other ∈ prev).
Proof.
  unfold Onboarding.toggleInterest.
  destruct (existsb (String.eqb interest) prev) eqn:Hin.
  - apply existsb_eqb_iff in Hin.
    rewrite ChatFacts.elem_of_List_filter, negb_true_iff, String.eqb_neq.
    split.
    + intros [H Hne]. right. split; assumption.
    + intros [[-> Hnot] | [Hne H]]; [contradiction | split; assumption].
  - assert (Hnot : interest ∉ prev).
    { intros H. apply existsb_eqb_iff in H. congruence. }
    rewrite elem_of_app, list_elem_of_singleton. split.
    + intros [H | ->]; [| left; split; [reflexivity | exact Hnot]].
      right. split; [| exact H]. intros ->. contradiction.
    + intros [[-> _] | [_ H]]; [right; reflexivity | left; exact H].
Qed.

Lemma filter_absent (interest : string) (l : list string) :
  interest ∉ l -> List.filter (fun i => negb (String.eqb i interest)) l = l.
Proof.
  induction l as [| x r IH]; [reflexivity |].
  intros H. apply not_elem_of_cons in H as [Hne Hr].
  cbn [List.filter]. rewrite (proj2 (String.eqb_neq _ _) (not_eq_sym Hne)).
  cbn [negb]. rewrite (IH Hr). reflexivity.
Qed.

End OnboardingFacts.

(** X25. A click on an interest flips its selection and nothing else: the
    interest is selected afterwards exactly when it was not before, every
    other interest is as it was, a selection without duplicates stays
    without duplicates, and a second click on an interest that was not
    selected restores the selection, order included. *)
Theorem toggleInterest_flips_one_selection (interest : string) (prev : list string) :
  (interest ∈ Onboarding.toggleInterest interest prev <-> interest ∉ prev)
  ∧ (∀ other : string,
       other ≠ interest ->
       (other ∈ Onboarding.toggleInterest interest prev <-> other ∈ prev))
  ∧ (NoDup prev -> NoDup (Onboarding.toggleInterest interest prev))
  ∧ (interest ∉ prev ->
     Onboarding.toggleInterest interest (Onboarding.toggleInterest interest prev) = prev)
  ∧ (NoDup prev ->
     Onboarding.toggleInterest interest (Onboarding.toggleInterest interest prev) ≡ₚ prev).
Proof.
  split; [| split; [| split; [| split]]].
  - rewrite OnboardingFacts.elem_of_toggleInterest. split.
    + intros [[_ H] | [H _]]; [exact H | contradiction].
    + intros H. left. split; [reflexivity | exact H].
  - intros other Hne. rewrite OnboardingFacts.elem_of_toggleInterest. split.
    + intros [[H _] | [_ H]]; [contradiction | exact H].
    + intros H. right. split; assumption.
  - apply toggleInterest_NoDup.
  - intros Hnot. unfold Onboarding.toggleInterest at 2.
    destruct (existsb (String.eqb interest) prev) eqn:Hin.
    { apply OnboardingFacts.existsb_eqb_iff in Hin. contradiction. }
    unfold Onboarding.toggleInterest.
    rewrite existsb_app. cbn [existsb]. rewrite String.eqb_refl, orb_true_r.
    rewrite List.filter_app. cbn [List.filter]. rewrite String.eqb_refl. cbn [negb].
    rewrite app_nil_r. apply OnboardingFacts.filter_absent, Hnot.
  - intros Hnd. apply NoDup_Permutation.
    + apply toggleInterest_NoDup, toggleInterest_NoDup, Hnd.
    + exact Hnd.
    + intros x. rewrite !OnboardingFacts.elem_of_toggleInterest.
      destruct (String.eqb_spec x interest) as [-> | Hne].
      * split.
        -- intros [[_ H] | [H _]]; [| contradiction].
           destruct (decide (interest ∈ prev)) as [Hin | Hout]; [exact Hin |].
           exfalso. apply H. left. split; [reflexivity | exact Hout].
        -- intros Hin. left. split; [reflexivity |].
           intros [[_ H] | [H _]]; contradiction.
      * split.
        -- intros [[H _] | [_ [[H _] | [_ H]]]]; try contradiction. exact H.
        -- intros Hin. right. split; [exact Hne |]. right. split; assumption.
Qed.

(** X26. Onboarding needs an interest and yields an onboarded profile
    without a city: the form hands nothing on while no interest is selected;
    otherwise the profile that [handleOnboardingComplete] sets is onboarded,
    has the selected interests, the name Traveler when none was typed, the
    mock artists exactly when Spotify is connected, and an empty city for
    the dashboard to resolve; the store is not touched. *)
Theorem onboarding_yields_a_profile_without_city
    (name : string) (selectedInterests : list string) (spotifyConnected : bool)
    (w : World) :
  (Signup.handleSubmit name selectedInterests spotifyConnected = None
   <-> selectedInterests = [])
  ∧ ∀ data : Signup.PartialProfile,
      Signup.handleSubmit name selectedInterests spotifyConnected = Some data ->
      ∃ w' : World,
        Signup.handleOnboardingComplete data w = (Ok tt, w')
        ∧ app_userProfile w'
          = Some (mkUserProfile (if isEmpty name then "Traveler" else name) true
                                selectedInterests spotifyConnected
                                (if spotifyConnected then Signup.MOCK_TOP_ARTISTS else [])
                                EmptyString)
        ∧ selectedInterests ≠ []
        ∧ localStorage w' = localStorage w
        ∧ aiCalls w' = aiCalls w.
Proof.
  split.
  - unfold Signup.handleSubmit. destruct selectedInterests; split; congruence.
  - intros data Hdata. unfold Signup.handleSubmit in Hdata.
    destruct selectedInterests as [| i r] eqn:Hsel; [discriminate |].
    injection Hdata as <-. eexists. split; [reflexivity |].
    cbn. repeat split. discriminate.
Qed.

(** ** What a restart reads back *)

Module StartupFacts.

Import Startup.

Lemma loadUserProfile_cases (env : Env) (w : World) :
  loadUserProfile env w
  = (Ok match localStorage w !! "citysense_user_profile" with
        | Some s => if isEmpty s then JNull
                    else match JSON_parse env s with Some v => v | None => JNull end
        | None => JNull
        end, w).
Proof.
  unfold loadUserProfile, tryCatch, bind, getItem.
  destruct (localStorage w !! "citysense_user_profile") as [s |]; [| reflexivity].
  destruct (isEmpty s); [reflexivity |].
  destruct (JSON_parse env s); reflexivity.
Qed.

Lemma loadUserEvents_cases (env : Env) (w : World) :
  loadUserEvents env w
  = (Ok match localStorage w !! "citysense_user_events" with
        | Some s => if isEmpty s then JArr []
                    else match JSON_parse env s with Some v => v | None => JArr [] end
        | None => JArr []
        end, w).
Proof.
  unfold loadUserEvents, tryCatch, bind, getItem.
  destruct (localStorage w !! "citysense_user_events") as [s |]; [| reflexivity].
  destruct (isEmpty s); [reflexivity |].
  destruct (JSON_parse env s); reflexivity.
Qed.

Lemma reset_store (env : Env) (w : World) :
  localStorage (snd (App.resetAndCommit env w))
  = delete "citysense_user_profile"
      (filter (fun entry : string * string =>
                 ¬ (startsWith "CITYSENSE_EVENTS_CACHE_" (fst entry) = true))
              (localStorage w)).
Proof. reflexivity. Qed.

End StartupFacts.

(** X27. The profile survives a restart: when the store accepts the
    profile and its text is read back as it was written, the effect that
    persists the profile state is followed, at the next start, by an initial
    profile state equal to that profile; only the key of the profile is
    written. *)
Theorem profile_survives_a_restart (env : Env) (p : UserProfile) (w : World) :
  app_userProfile w = Some p ->
  storageAccepts env (localStorage w) "citysense_user_profile"
    (JSON_stringify env (App.profileToJson p)) = true ->
  JSON_stringify env (App.profileToJson p) ≠ EmptyString ->
  JSON_parse env (JSON_stringify env (App.profileToJson p)) = Some (App.profileToJson p) ->
  ∃ w' : World,
    App.persistProfileEffect env w = (Ok tt, w')
    ∧ Startup.loadUserProfile env w' = (Ok (App.profileToJson p), w')
    ∧ (∀ k : string, k ≠ "citysense_user_profile" ->
                     localStorage w' !! k = localStorage w !! k).
Proof.
  intros Hp Haccept Hne Hparse.
  exists (withStorage (insert "citysense_user_profile"
                         (JSON_stringify env (App.profileToJson p))) w).
  split; [| split].
  - unfold App.persistProfileEffect, setItem. rewrite Hp, Haccept. reflexivity.
  - rewrite StartupFacts.loadUserProfile_cases. cbn [withStorage localStorage].
    rewrite lookup_insert_eq, (isEmpty_false _ Hne), Hparse. reflexivity.
  - intros k Hk. cbn. apply lookup_insert_ne. congruence.
Qed.

(** X28. The events of the user survive a restart, the newest first: when
    the store accepts the list and its text is read back as it was written,
    the effect that persists the list after an event was created is
    followed, at the next start, by an initial list that begins with that
    event and continues with the earlier ones. *)
Theorem user_events_survive_a_restart
    (env : Env) (event : Event) (prev : list Event) (w : World) :
  let userEvents := CreateEventModal.handleCreateEvent event prev in
  storageAccepts env (localStorage w) "citysense_user_events"
    (JSON_stringify env (eventsToJson userEvents)) = true ->
  JSON_stringify env (eventsToJson userEvents) ≠ EmptyString ->
  JSON_parse env (JSON_stringify env (eventsToJson userEvents))
  = Some (eventsToJson userEvents) ->
  ∃ w' : World,
    Startup.persistUserEventsEffect env userEvents w = (Ok tt, w')
    ∧ Startup.loadUserEvents env w' = (Ok (JArr (JObj event :: map JObj prev)), w')
    ∧ (∀ k : string, k ≠ "citysense_user_events" ->
                     localStorage w' !! k = localStorage w !! k).
Proof.
  intros userEvents Haccept Hne Hparse.
  exists (withStorage (insert "citysense_user_events"
                         (JSON_stringify env (eventsToJson userEvents))) w).
  split; [| split].
  - unfold Startup.persistUserEventsEffect, setItem. rewrite Haccept. reflexivity.
  - rewrite StartupFacts.loadUserEvents_cases. cbn [withStorage localStorage].
    rewrite lookup_insert_eq, (isEmpty_false _ Hne), Hparse. reflexivity.
  - intros k Hk. cbn. apply lookup_insert_ne. congruence.
Qed.

(** X29. A start never fails, and a reset is a fresh start for the profile
    only: reading the profile and the user events back always resolves and
    leaves the world as it was, a missing, empty or unparseable entry giving
    no profile and no events; after a reset the profile reads back as none,
    whatever was stored, and the user events read back as they did before. *)
Theorem restart_never_fails (env : Env) (w : World) :
  (∃ v : json, Startup.loadUserProfile env w = (Ok v, w))
  ∧ (∃ v : json, Startup.loadUserEvents env w = (Ok v, w))
  ∧ (isMiss env "citysense_user_profile" (localStorage w) ->
     Startup.loadUserProfile env w = (Ok JNull, w))
  ∧ (isMiss env "citysense_user_events" (localStorage w) ->
     Startup.loadUserEvents env w = (Ok (JArr []), w))
  ∧ (∀ env' : Env,
       fst (Startup.loadUserProfile env (snd (App.resetAndCommit env' w))) = Ok JNull
       ∧ fst (Startup.loadUserEvents env (snd (App.resetAndCommit env' w)))
         = fst (Startup.loadUserEvents env w)).
Proof.
  rewrite !StartupFacts.loadUserProfile_cases, !StartupFacts.loadUserEvents_cases.
  split; [eexists; reflexivity |]. split; [eexists; reflexivity |].
  split; [| split].
  - unfold isMiss.
    destruct (localStorage w !! "citysense_user_profile") as [s |]; [| reflexivity].
    intros [-> | Hparse]; [reflexivity |].
    destruct (isEmpty s); [reflexivity |]. rewrite Hparse. reflexivity.
  - unfold isMiss.
    destruct (localStorage w !! "citysense_user_events") as [s |]; [| reflexivity].
    intros [-> | Hparse]; [reflexivity |].
    destruct (isEmpty s); [reflexivity |]. rewrite Hparse. reflexivity.
  - intros env'.
    rewrite StartupFacts.loadUserProfile_cases, StartupFacts.loadUserEvents_cases.
    cbn [fst]. rewrite !StartupFacts.reset_store.
    rewrite lookup_delete_eq. split; [reflexivity |].
    rewrite lookup_delete_ne by discriminate.
    rewrite lookup_filter_kept; [reflexivity |].
    intros v. cbn. discriminate.
Qed.

(** * Concrete runs of the further properties *)

Import Scenes.

(** The load after a search is served from the cache. *)
Lemma search_bypasses_the_cache_witness :
  getInitialRecommendations (envWith (answering twoRecords) None) "Miami, USA" jazzFan
    (snd (searchEvents (envWith (answering twoRecords) None) "Miami, USA" "Jazz"
            (worldWith {[jazzKey := cachedTwo]} jazzFan)))
  = (Ok normalizedTwo,
     snd (searchEvents (envWith (answering twoRecords) None) "Miami, USA" "Jazz"
            (worldWith {[jazzKey := cachedTwo]} jazzFan))).
Proof.
  refine (proj2 (proj2 (proj2
            (search_bypasses_the_cache (envWith (answering twoRecords) None) "Miami, USA"
               "Jazz" (worldWith {[jazzKey := cachedTwo]} jazzFan))))
            (envWith (answering twoRecords) None) "Miami, USA" jazzFan
            cachedTwo normalizedTwo _ _ _).
  - vm_compute. reflexivity.
  - reflexivity.
  - vm_compute. reflexivity.
Defined.

(** Without a key a search gives nothing and asks nothing. *)
Lemma without_api_key_nothing_is_requested_witness :
  searchEvents withoutKey "Miami, USA" "Jazz" (worldWith ∅ jazzFan)
  = (Ok (JArr []), worldWith ∅ jazzFan).
Proof.
  apply (proj1 (without_api_key_nothing_is_requested withoutKey
                  (fun _ _ _ => Chat.ChatAnswers (Some "Hello") None)
                  (worldWith ∅ jazzFan) eq_refl)).
Defined.

(** A failed first load leaves the cache missing. *)
Lemma empty_result_is_not_cached_witness :
  isMiss (envWith failing None) jazzKey
    (localStorage (snd (getInitialRecommendations (envWith failing None) "Miami, USA"
                          jazzFan (worldWith ∅ jazzFan)))).
Proof.
  apply (empty_result_is_not_cached (envWith failing None) "Miami, USA" jazzFan
           (worldWith ∅ jazzFan)).
  - vm_compute. exact I.
  - vm_compute. reflexivity.
Defined.

(** Two good records are fetched and lost to a full store. *)
Lemma refused_write_discards_the_events_witness :
  fst (getInitialRecommendations quotaExceeded "Miami, USA" jazzFan (worldWith ∅ jazzFan))
  = Ok (JArr [])
  ∧ (apiKeyPresent quotaExceeded = true ->
     aiCalls (snd (getInitialRecommendations quotaExceeded "Miami, USA" jazzFan
                     (worldWith ∅ jazzFan)))
     = aiCalls (worldWith ∅ jazzFan) ++ [InitialRecommendations "Miami, USA" jazzFan]).
Proof.
  apply (refused_write_discards_the_events quotaExceeded "Miami, USA" jazzFan
           (worldWith ∅ jazzFan)).
  - intros m k v. reflexivity.
  - vm_compute. exact I.
Defined.

(** The record without image and title takes the good one with it. *)
Lemma one_bad_record_discards_the_batch_witness :
  searchEvents (envWith (answering oneBad) None) "Miami, USA" "Jazz" (worldWith ∅ jazzFan)
  = (Ok (JArr []), logCall (SearchEvents "Miami, USA" "Jazz") (worldWith ∅ jazzFan)).
Proof.
  refine (proj1 (proj2
            (one_bad_record_discards_the_batch (envWith (answering oneBad) None)
               "Miami, USA" (Some (RefJSON.ofSingleQuoted oneBad)) oneBadItems _ _ _))
            "Jazz" (worldWith ∅ jazzFan) _).
  - reflexivity.
  - vm_compute. reflexivity.
  - reflexivity.
  - reflexivity.
Defined.

(** The title of a repaired record is the one it came with. *)
Lemma normalization_only_fills_gaps_witness :
  lookupProp "title" blueNoteNormalized = lookupProp "title" blueNote.
Proof.
  refine (proj1 (proj2
            (normalization_only_fills_gaps (envWith failing None) "evt" "Miami, USA" 0
               blueNote blueNoteNormalized _)) "title" _).
  - vm_compute. reflexivity.
  - reflexivity.
Defined.

(** A second pass, as a search for another city, changes nothing. *)
Lemma normalization_is_idempotent_witness :
  mapEvents nextDay "search" "Paris, France" (eventsToJson [blueNoteNormalized])
  = Ok [blueNoteNormalized].
Proof.
  apply (normalization_is_idempotent (envWith failing None) nextDay "evt" "search"
           "Miami, USA" "Paris, France" (JArr [JObj blueNote]) [blueNoteNormalized]).
  vm_compute. reflexivity.
Defined.

(** An answer with fences and white space around them. *)
Lemma fenced_answer_is_unwrapped_witness :
  cleanAndParseJSON (envWith failing None) (Some fencedAnswer)
  = match JSON_parse (envWith failing None) fencedBody with
    | Some v => v
    | None => JArr []
    end.
Proof.
  apply (fenced_answer_is_unwrapped (envWith failing None) fencedAnswer fencedBody).
  - vm_compute. reflexivity.
  - discriminate.
  - reflexivity.
Defined.

(** A newcomer located in Miami. *)
Lemma after_mount_the_profile_has_a_city_witness :
  ∃ (w' : World) (city : string),
    Dashboard.init (envWith (answering "Miami, USA") (Some (GeoPosition miami miamiLng)))
      App.handleUpdateCity newcomer (worldWith ∅ newcomer) = (Ok tt, w')
    ∧ app_userProfile w'
      = Some (mkUserProfile (name newcomer) (hasOnboarded newcomer) (interests newcomer)
                            (spotifyConnected newcomer) (topArtists newcomer) city)
    ∧ city ≠ EmptyString
    ∧ (currentCity newcomer ≠ EmptyString -> city = currentCity newcomer).
Proof.
  apply (after_mount_the_profile_has_a_city
           (envWith (answering "Miami, USA") (Some (GeoPosition miami miamiLng)))
           newcomer (worldWith ∅ newcomer)).
  reflexivity.
Defined.

(** The list of Friday is gone after the first load of Saturday. *)
Lemma a_new_day_misses_and_evicts_witness :
  generateCacheKey nextDay "Miami, USA" jazzFan
  ≠ generateCacheKey (envWith failing None) "Miami, USA" jazzFan
  ∧ getInitialRecommendations nextDay "Miami, USA" jazzFan
      (worldWith {[jazzKey := cachedTwo]} jazzFan)
    = missPath nextDay "Miami, USA" jazzFan (worldWith {[jazzKey := cachedTwo]} jazzFan)
  ∧ localStorage (snd (getInitialRecommendations nextDay "Miami, USA" jazzFan
                         (worldWith {[jazzKey := cachedTwo]} jazzFan)))
      !! generateCacheKey (envWith failing None) "Miami, USA" jazzFan = None.
Proof.
  apply (a_new_day_misses_and_evicts (envWith failing None) nextDay "Miami, USA" jazzFan
           (worldWith {[jazzKey := cachedTwo]} jazzFan)).
  - discriminate.
  - intros k1 k2 _ _ [v1 H1] [v2 H2]. cbn in H1, H2.
    apply lookup_singleton_Some in H1 as [<- _].
    apply lookup_singleton_Some in H2 as [<- _]. reflexivity.
  - vm_compute. eexists. reflexivity.
Defined.

(** The filter Music keeps Live Music and drops Food. *)
Lemma category_filter_keeps_substring_matches_witness :
  ∃ kept : list Event,
    DashboardView.filteredEvents [liveMusic; brunch] "Music" = Ok kept
    ∧ sublist kept [liveMusic; brunch]
    ∧ ∀ e : Event, e ∈ kept <-> e ∈ [liveMusic; brunch] ∧ Category.contains "Music" e.
Proof.
  apply (category_filter_keeps_substring_matches [liveMusic; brunch] "Music").
  - discriminate.
  - reflexivity.
Defined.

(** A numeric category breaks the filter Music. *)
Lemma category_filter_throws_on_untyped_category_witness :
  DashboardView.filteredEvents [liveMusic; numbered] "Music" = Throw TypeError.
Proof.
  apply (proj2 (category_filter_throws_on_untyped_category [liveMusic; numbered] "Music"
                  eq_refl)).
  discriminate.
Defined.

(** Saving the first event into an empty store. *)
Lemma saved_flag_survives_a_remount_witness :
  ∃ w' : World,
    EventCard.toggleSave (envWith failing None) "a1" false (worldWith ∅ jazzFan)
    = (Ok true, w')
    ∧ EventCard.mountEffect (envWith failing None) "a1" w' = (Ok true, w')
    ∧ (∀ id' : string,
         id' ≠ "a1" ->
         fst (EventCard.mountEffect (envWith failing None) id' w')
         = fst (EventCard.mountEffect (envWith failing None) id' (worldWith ∅ jazzFan)))
    ∧ (∀ k : string, k ≠ "savedEvents" ->
                     localStorage w' !! k = localStorage (worldWith ∅ jazzFan) !! k).
Proof.
  apply (saved_flag_survives_a_remount (envWith failing None) "a1" false []
           (worldWith ∅ jazzFan)).
  - vm_compute. reflexivity.
  - reflexivity.
  - vm_compute. discriminate.
  - vm_compute. reflexivity.
Defined.

(** The profile of the examples, written and read back. *)
Lemma profile_survives_a_restart_witness :
  ∃ w' : World,
    App.persistProfileEffect (envWith failing None) (worldWith ∅ jazzFan) = (Ok tt, w')
    ∧ Startup.loadUserProfile (envWith failing None) w' = (Ok (App.profileToJson jazzFan), w')
    ∧ (∀ k : string, k ≠ "citysense_user_profile" ->
                     localStorage w' !! k = localStorage (worldWith ∅ jazzFan) !! k).
Proof.
  apply (profile_survives_a_restart (envWith failing None) jazzFan (worldWith ∅ jazzFan)).
  - reflexivity.
  - reflexivity.
  - vm_compute. discriminate.
  - vm_compute. reflexivity.
Defined.

(** A created event, written and read back ahead of an earlier one. *)
Lemma user_events_survive_a_restart_witness :
  ∃ w' : World,
    Startup.persistUserEventsEffect (envWith failing None)
      (CreateEventModal.handleCreateEvent userMade [recommended]) (worldWith ∅ jazzFan)
    = (Ok tt, w')
    ∧ Startup.loadUserEvents (envWith failing None) w'
      = (Ok (JArr (JObj userMade :: map JObj [recommended])), w')
    ∧ (∀ k : string, k ≠ "citysense_user_events" ->
                     localStorage w' !! k = localStorage (worldWith ∅ jazzFan) !! k).
Proof.
  apply (user_events_survive_a_restart (envWith failing None) userMade [recommended]
           (worldWith ∅ jazzFan)).
  - reflexivity.
  - vm_compute. discriminate.
  - vm_compute. reflexivity.
Defined.
